(** * Fork-maintenance tooling of the cipher fork: shell scripts and bake file

    The repository's own code is a handful of bash scripts wrapped around
    [git], [bun] and [docker buildx], one buildx bake file, and the
    TypeScript scripts that rewrite import lines.  Each shell script
    is embedded below as a program in a small shell monad: the state is what
    the script can change (repository, file system, the commands it ran and
    the lines it printed), and everything the script merely observes from the
    outside (exit statuses of tools, user replies, clocks) is an explicit
    oracle record.

    Shell semantics assumed throughout: bash 4.4 or later (so that an empty
    array expands under [set -u], and [(( ))] is subject to [set -e]). *)

From stdpp Require Import base numbers strings gmap list.
From Stdlib Require Import Ascii ZArith Lia.

Local Open Scope string_scope.
Local Open Scope Z_scope.

(** ** The shell monad *)

Module Sh.

(** A statement either lets control fall through ([Done]) or terminates
    the whole shell process with a status ([Exited]). *)
Inductive result (A : Type) : Type :=
| Done (a : A)
| Exited (code : Z).
Arguments Done {A} a.
Arguments Exited {A} code.

Definition sh (S A : Type) : Type := S -> result A * S.

Definition ret {S A : Type} (a : A) : sh S A := fun s => (Done a, s).

Definition bind {S A B : Type} (m : sh S A) (k : A -> sh S B) : sh S B :=
  fun s =>
    match m s with
    | (Done a, s') => k a s'
    | (Exited c, s') => (Exited c, s')
    end.

(** [exit n] *)
Definition exit {S A : Type} (c : Z) : sh S A := fun s => (Exited c, s).

Definition get {S : Type} : sh S S := fun s => (Done s, s).
Definition modify {S : Type} (f : S -> S) : sh S unit := fun s => (Done tt, f s).

(** [set] options of a script. *)
Record shopts : Type := {
  errexit : bool;   (* -e *)
  nounset : bool;   (* -u *)
  pipefail : bool   (* -o pipefail *)
}.

(** [set -euo pipefail], [set -e], and no [set] line at all. *)
Definition euo_pipefail : shopts :=
  {| errexit := true; nounset := true; pipefail := true |}.
Definition e_only : shopts :=
  {| errexit := true; nounset := false; pipefail := false |}.
Definition no_opts : shopts :=
  {| errexit := false; nounset := false; pipefail := false |}.

(** A command in plain statement position: under errexit a nonzero status
    terminates the shell with that status; otherwise the status is
    dropped.  Commands tested by [if], on the left of [&&]/[||] or under
    [!] are not wrapped in [stmt]: their status is consumed by the test. *)
Definition stmt {S : Type} (o : shopts) (c : sh S Z) : sh S unit :=
  bind c (fun st => if errexit o && negb (st =? 0) then exit st else ret tt).

(** The other status-consuming contexts: [c || true], and [! c]. *)
Definition or_true {S : Type} (c : sh S Z) : sh S unit := bind c (fun _ => ret tt).

(** [for x in l; do body; done] *)
Fixpoint for_each {S A : Type} (l : list A) (body : A -> sh S unit) : sh S unit :=
  match l with
  | [] => ret tt
  | x :: l' => bind (body x) (fun _ => for_each l' body)
  end.

(** The same loop when the body updates a shell variable, which is passed
    from one iteration to the next. *)
Fixpoint for_acc {S A V : Type} (l : list A) (body : A -> V -> sh S V) (v : V) : sh S V :=
  match l with
  | [] => ret v
  | x :: l' => bind (body x v) (for_acc l' body)
  end.

(** [((v++))]: the new value, and the status of the arithmetic command,
    which is 1 when the expression (the old value) evaluates to 0. *)
Definition post_incr (v : Z) : Z * Z := (v + 1, if v =? 0 then 1 else 0).

(** Exit status of a script run.  Every script modelled here ends in an
    [echo] or a [log] call, so falling off the end gives status 0. *)
Definition status_of {A : Type} (r : result A) : Z :=
  match r with Done _ => 0 | Exited c => c end.

Definition run {S : Type} (m : sh S unit) (s : S) : Z * S :=
  let '(r, s') := m s in (status_of r, s').

End Sh.

Import Sh.

(** stdpp's monad notations ([x ← c; k] and [c;; k]) for [sh S]. *)
#[global] Instance sh_bind {S : Type} : MBind (sh S) := fun A B k m => Sh.bind m k.
#[global] Instance sh_ret {S : Type} : MRet (sh S) := fun A a => Sh.ret a.

(** ** Commands run and lines printed *)

Inductive cmd : Type :=
| GitFetch (remote : string)
| GitBranch (name : string)
| GitCheckoutB (name : string)
| GitRebase (onto : string)
| GitCheckoutOurs (file : string)
| GitCheckoutTheirs (file : string)
| GitAdd (file : string)
| Tool (argv : string).   (* any other command line, verbatim *)

Inductive msg : Type :=
| NotInRebase
| KeepingOurs (file : string)
| TakingTheirs (file : string)
| NoOurVersion (file : string)
| NoUpstreamVersion (file : string)
| DeletedInOurs (file : string)
| DeletedInUpstream (file : string)
| AutoResolved (n : Z)
| ManualNeeded (n : Z)
| ManualFile (file : string)
| AllResolved
| ReadinessFailed
| Aborted
| BackupCreated (branch : string)
| IntegrationCreated (branch : string)
| RebaseClean
| TestsPassed
| RebaseSuccessful (backup : string)
| TestsFailed
| ConflictsDetected
| ManualIntervention (backup : string)
| ForkCurrent
| ManualWorkflow
| CleanIntegration
| SyncComplete
| SyncCancelled
| HealthSummary (percentage score total : Z)
| BuildLog (line : string).

Inductive event : Type :=
| Ran (c : cmd)
| Said (m : msg).

#[global] Instance cmd_eq_dec : EqDecision cmd.
Proof. solve_decision. Defined.
#[global] Instance msg_eq_dec : EqDecision msg.
Proof. solve_decision. Defined.
#[global] Instance event_eq_dec : EqDecision event.
Proof. solve_decision. Defined.

(** ** The part of git the scripts touch *)

Module Git.

Definition blob := string.
Definition commit := string.

(** Per-path state: the merged index entry (stage 0), the three conflict
    stages (1 = base, 2 = ours, 3 = theirs) and the working-tree file. *)
Record pathstate : Type := {
  merged : option blob;
  base : option blob;
  ours : option blob;
  theirs : option blob;
  worktree : option blob
}.

Inductive head_ref : Type :=
| OnBranch (name : string)
| Detached (c : commit).

Record repo : Type := {
  paths : gmap string pathstate;
  rebasing : bool;
  branches : gmap string commit;
  head : head_ref;
  remotes : gmap string commit
}.

Definition set_paths (f : gmap string pathstate -> gmap string pathstate) (r : repo) : repo :=
  {| paths := f (paths r); rebasing := rebasing r; branches := branches r;
     head := head r; remotes := remotes r |}.

Definition unmerged (e : pathstate) : bool :=
  bool_decide (is_Some (base e)) || bool_decide (is_Some (ours e))
  || bool_decide (is_Some (theirs e)).

(** The XY column of [git status --porcelain] for an unmerged path. *)
Definition xy (e : pathstate) : option string :=
  match base e, ours e, theirs e with
  | Some _, Some _, Some _ => Some "UU"
  | Some _, None, Some _ => Some "DU"
  | Some _, Some _, None => Some "UD"
  | None, Some _, Some _ => Some "AA"
  | None, Some _, None => Some "AU"
  | None, None, Some _ => Some "UA"
  | Some _, None, None => Some "DD"
  | None, None, None => None
  end.

(** The lines of [git status --porcelain] that belong to unmerged paths.
    The lines of merged paths never start with UU, DU or UD, so they are
    invisible to every grep the scripts run over this output.  Paths are
    taken to print unquoted. *)
Definition porcelain_unmerged (r : repo) : list string :=
  omap (fun '(p, e) => (fun c => c +:+ " " +:+ p) <$> xy e) (map_to_list (paths r)).

(** [git diff --name-only --diff-filter=U] *)
Definition diff_unmerged (r : repo) : list string :=
  (filter (fun pe => unmerged pe.2 = true) (map_to_list (paths r))).*1.

(** [git show :2:file] and [git show :3:file], as exit statuses. *)
Definition show_stage (pick : pathstate -> option blob) (file : string) (r : repo) : Z :=
  match paths r !! file ≫= pick with
  | Some _ => 0
  | None => 128
  end.

(** [git checkout --ours file] / [--theirs]: writes the chosen stage into
    the working tree and leaves the index unmerged; fails when the path has
    no such stage.  The argument names one file, not a directory. *)
Definition checkout_stage (pick : pathstate -> option blob) (file : string) (r : repo)
  : Z * repo :=
  match paths r !! file with
  | Some e =>
      match pick e with
      | Some b =>
          (0, set_paths <[file := {| merged := merged e; base := base e; ours := ours e;
                                     theirs := theirs e; worktree := Some b |}]> r)
      | None => (1, r)
      end
  | None => (1, r)
  end.

(** [git add file]: the working-tree file becomes the merged entry and
    the conflict stages go away. *)
Definition add (file : string) (r : repo) : Z * repo :=
  match paths r !! file with
  | Some e =>
      (0, set_paths <[file := {| merged := worktree e; base := None; ours := None;
                                 theirs := None; worktree := worktree e |}]> r)
  | None => (128, r)
  end.

Definition head_commit (r : repo) : option commit :=
  match head r with
  | OnBranch b => branches r !! b
  | Detached c => Some c
  end.

(** [git branch name]: a new branch at HEAD; refused when the name is
    taken or HEAD has no commit. *)
Definition branch (name : string) (r : repo) : Z * repo :=
  match branches r !! name, head_commit r with
  | None, Some c =>
      (0, {| paths := paths r; rebasing := rebasing r;
             branches := <[name := c]> (branches r); head := head r;
             remotes := remotes r |})
  | _, _ => (128, r)
  end.

(** [git checkout -b name]: the same, and HEAD moves onto the new branch. *)
Definition checkout_b (name : string) (r : repo) : Z * repo :=
  match branches r !! name, head_commit r with
  | None, Some c =>
      (0, {| paths := paths r; rebasing := rebasing r;
             branches := <[name := c]> (branches r); head := OnBranch name;
             remotes := remotes r |})
  | _, _ => (128, r)
  end.

(** [git branch --show-current]: empty when HEAD is detached. *)
Definition show_current (r : repo) : string :=
  match head r with
  | OnBranch b => b
  | Detached _ => ""
  end.

(** [git rev-parse --abbrev-ref HEAD] *)
Definition rev_parse_abbrev_head (r : repo) : Z * string :=
  match head r with
  | OnBranch b =>
      match branches r !! b with
      | Some _ => (0, b)
      | None => (128, "HEAD")
      end
  | Detached _ => (0, "HEAD")
  end.

(** What [git fetch <remote>] finds is outside the repository: on success
    the remote-tracking refs it brings are written over the old ones. *)
Inductive fetch_outcome : Type :=
| Fetched (refs : gmap string commit)
| FetchFailed (status : Z).

Definition fetch (out : fetch_outcome) (r : repo) : Z * repo :=
  match out with
  | Fetched refs =>
      (0, {| paths := paths r; rebasing := rebasing r; branches := branches r;
             head := head r; remotes := refs ∪ remotes r |})
  | FetchFailed st => (st, r)
  end.

(** How [git rebase upstream/main] ends depends on commit contents, which
    are not modelled: the outcome is given.  A finished rebase moves the
    current branch (or the detached HEAD) to the rewritten tip.  A rebase
    that stops on conflicts leaves HEAD detached at the commit being
    replayed, the conflicting paths unmerged, and the rebase in progress.
    A refused rebase (unknown upstream ref, dirty tree) changes nothing. *)
Inductive rebase_outcome : Type :=
| RebaseDone (tip : commit)
| RebaseConflict (stopped_at : commit) (conflicts : gmap string pathstate)
| RebaseRefused.

Definition rebase (out : rebase_outcome) (r : repo) : Z * repo :=
  match out with
  | RebaseDone tip =>
      (0, match head r with
          | OnBranch b =>
              {| paths := paths r; rebasing := false;
                 branches := <[b := tip]> (branches r); head := head r;
                 remotes := remotes r |}
          | Detached _ =>
              {| paths := paths r; rebasing := false; branches := branches r;
                 head := Detached tip; remotes := remotes r |}
          end)
  | RebaseConflict c conflicts =>
      (1, {| paths := conflicts ∪ paths r; rebasing := true; branches := branches r;
             head := Detached c; remotes := remotes r |})
  | RebaseRefused => (128, r)
  end.

End Git.

(** ** State shared by the git scripts *)

Inductive fkind : Type := RegularFile | Directory.

#[global] Instance fkind_eq_dec : EqDecision fkind.
Proof. solve_decision. Defined.

Record world : Type := {
  repo : Git.repo;
  fs : gmap string fkind;   (* the files the build script tests for *)
  trace : list event        (* commands run and lines printed, oldest first *)
}.

Definition emit (e : event) : sh world unit :=
  Sh.modify (fun w => {| repo := repo w; fs := fs w; trace := trace w ++ [e] |}).

Definition echo (m : msg) : sh world unit := emit (Said m).

Definition set_repo (f : Git.repo -> Git.repo) : sh world unit :=
  Sh.modify (fun w => {| repo := f (repo w); fs := fs w; trace := trace w |}).

Definition set_fs (f : gmap string fkind -> gmap string fkind) : sh world unit :=
  Sh.modify (fun w => {| repo := repo w; fs := f (fs w); trace := trace w |}).

(** A git command that may change the repository. *)
Definition git (c : cmd) (f : Git.repo -> Z * Git.repo) : sh world Z :=
  emit (Ran c);;
  w ← Sh.get;
  set_repo (fun _ => (f (repo w)).2);;
  mret (f (repo w)).1.

(** A command whose only modelled effect is its exit status. *)
Definition tool (argv : string) (status : Z) : sh world Z :=
  emit (Ran (Tool argv));;
  mret status.

(** Another script run as a child process: it shares the repository and
    the terminal, and its exit status is the status of the command. *)
Definition child (script : sh world unit) : sh world Z :=
  fun w => let '(st, w') := Sh.run script w in (Done st, w').

(** [read]: the line typed, or status 1 at end of input. *)
Definition read (input : option string) : sh world (Z * string) :=
  mret (match input with Some s => (0, s) | None => (1, "") end).

(** ** scripts/resolve-rebase-conflicts.sh *)

Module Resolve.

Definition opts : shopts := euo_pipefail.

(** Files to always keep our version (ours) *)
Definition KEEP_OURS : list string :=
  ["package.json"; "bun.lock"; "biome.json"; "lefthook.yml"; "justfile";
   "bunfig.toml"; ".gitignore"].

(** Files to always take upstream version (theirs) *)
Definition TAKE_THEIRS : list string := [].

(** A file name used as a grep pattern: [.] matches any character, every
    other character of the names above matches itself. *)
Fixpoint re_prefix (pat s : string) : bool :=
  match pat, s with
  | EmptyString, _ => true
  | String _ _, EmptyString => false
  | String c pat', String d s' =>
      (bool_decide (c = "."%char) || bool_decide (c = d)) && re_prefix pat' s'
  end.

Fixpoint re_search (pat s : string) : bool :=
  re_prefix pat s
  || match s with
     | EmptyString => false
     | String _ s' => re_search pat s'
     end.

(** One line against ["^UU.*$file\|^DU.*$file\|^UD.*$file"]. *)
Definition conflict_line_matches (file line : string) : bool :=
  match line with
  | String a (String b rest) =>
      let code := String a (String b EmptyString) in
      (bool_decide (code = "UU") || bool_decide (code = "DU") || bool_decide (code = "UD"))
      && re_search file rest
  | _ => false
  end.

(** [git status --porcelain | grep -q "^UU.*$file\|^DU.*$file\|^UD.*$file"]
    ([git status] is taken to succeed and to have written its output before
    [grep -q] closes the pipe, so that pipefail does not come into play). *)
Definition status_grep (file : string) (r : Git.repo) : bool :=
  existsb (conflict_line_matches file) (Git.porcelain_unmerged r).

Definition git_checkout_ours (file : string) : sh world Z :=
  git (GitCheckoutOurs file) (Git.checkout_stage Git.ours file).

Definition git_checkout_theirs (file : string) : sh world Z :=
  git (GitCheckoutTheirs file) (Git.checkout_stage Git.theirs file).

Definition git_add (file : string) : sh world Z :=
  git (GitAdd file) (Git.add file).

(** [((resolved_count++))] as a statement of this script. *)
Definition incr_resolved (resolved_count : Z) : sh world Z :=
  let '(n, st) := post_incr resolved_count in
  stmt opts (mret st);;
  mret n.

(** Body of the first loop: # Auto-keep our tooling configs *)
Definition keep_ours_body (file : string) (resolved_count : Z) : sh world Z :=
  w ← Sh.get;
  if status_grep file (repo w) then
    echo (KeepingOurs file);;
    if Git.show_stage Git.ours file (repo w) =? 0 then
      st ← git_checkout_ours file;
      (if st =? 0 then mret tt else echo (NoOurVersion file));;
      or_true (git_add file);;
      incr_resolved resolved_count
    else
      echo (DeletedInOurs file);;
      mret resolved_count
  else mret resolved_count.

(** Body of the second loop: # Auto-take upstream versions *)
Definition take_theirs_body (file : string) (resolved_count : Z) : sh world Z :=
  w ← Sh.get;
  if status_grep file (repo w) then
    echo (TakingTheirs file);;
    if Git.show_stage Git.theirs file (repo w) =? 0 then
      st ← git_checkout_theirs file;
      (if st =? 0 then mret tt else echo (NoUpstreamVersion file));;
      or_true (git_add file);;
      incr_resolved resolved_count
    else
      echo (DeletedInUpstream file);;
      mret resolved_count
  else mret resolved_count.

(** # Check if we're in a rebase *)
Definition check_rebase : sh world unit :=
  w ← Sh.get;
  if negb (Git.rebasing (repo w)) then echo NotInRebase;; Sh.exit 1 else mret tt.

(** The two loops, from [resolved_count=0]. *)
Definition auto_resolve : sh world Z :=
  let resolved_count := 0 in
  resolved_count ← for_acc KEEP_OURS keep_ours_body resolved_count;
  for_acc TAKE_THEIRS take_theirs_body resolved_count.

(** === Resolution Summary ===, and # Check remaining conflicts *)
Definition summary (resolved_count : Z) : sh world unit :=
  echo (AutoResolved resolved_count);;
  w ← Sh.get;
  let remaining := Z.of_nat (length (Git.diff_unmerged (repo w))) in
  if 0 <? remaining then
    echo (ManualNeeded remaining);;
    for_each (Git.diff_unmerged (repo w)) (fun file => echo (ManualFile file))
  else echo AllResolved.

Definition script : sh world unit :=
  check_rebase;;
  resolved_count ← auto_resolve;
  summary resolved_count.

End Resolve.

(** ** scripts/rebase-from-upstream.sh *)

Module Rebase.

Definition opts : shopts := euo_pipefail.

(** What the script observes from outside.  The readiness script is not
    part of the sources; only its exit status matters here. *)
Record oracle : Type := {
  readiness_status : Z;           (* ./scripts/check-rebase-readiness.sh *)
  reply : option string;          (* REPLY of [read -n 1 -r]; None at end of input *)
  stamp : string;                 (* date +%Y%m%d-%H%M%S *)
  day : string;                   (* date +%Y%m%d *)
  rebase_outcome : Git.rebase_outcome;
  unit_tests_status : Z           (* bun run test:unit *)
}.

(** [[[ $REPLY =~ ^[Yy]$ ]]] *)
Definition is_yes (REPLY : string) : bool :=
  bool_decide (REPLY = "y") || bool_decide (REPLY = "Y").

Definition backup_name (o : oracle) : string := "backup/before-rebase-" +:+ stamp o.
Definition integration_name (o : oracle) : string := "integrate/upstream-" +:+ day o.

(** [./scripts/resolve-rebase-conflicts.sh] as a child process: its exit
    status is the status of the command. *)
Definition resolve_rebase_conflicts : sh world Z :=
  emit (Ran (Tool "./scripts/resolve-rebase-conflicts.sh"));;
  child Resolve.script.

(** # Run readiness check, and # Confirm with user *)
Definition confirm (o : oracle) : sh world unit :=
  ready ← tool "./scripts/check-rebase-readiness.sh" (readiness_status o);
  (if negb (ready =? 0) then echo ReadinessFailed;; Sh.exit 1 else mret tt);;
  '(st, REPLY) ← read (reply o);
  stmt opts (mret st);;
  if negb (is_yes REPLY) then echo Aborted;; Sh.exit 0 else mret tt.

(** # Create backup, # Get current branch, # Create integration branch.
    The value is [$current_branch], which is only printed later. *)
Definition create_branches (o : oracle) : sh world string :=
  let backup_branch := backup_name o in
  stmt opts (git (GitBranch backup_branch) (Git.branch backup_branch));;
  echo (BackupCreated backup_branch);;
  w ← Sh.get;
  let current_branch := Git.show_current (repo w) in
  let integration_branch := integration_name o in
  stmt opts (git (GitCheckoutB integration_branch) (Git.checkout_b integration_branch));;
  echo (IntegrationCreated integration_branch);;
  mret current_branch.

(** # Start rebase *)
Definition start_rebase (o : oracle) (current_branch : string) : sh world unit :=
  let backup_branch := backup_name o in
  rebased ← git (GitRebase "upstream/main") (Git.rebase (rebase_outcome o));
  if rebased =? 0 then
    echo RebaseClean;;
    (* Run tests *)
    tests ← tool "bun run test:unit" (unit_tests_status o);
    if tests =? 0 then
      echo TestsPassed;;
      echo (RebaseSuccessful backup_branch)
    else echo TestsFailed
  else
    echo ConflictsDetected;;
    stmt opts resolve_rebase_conflicts;;
    echo (ManualIntervention backup_branch).

Definition script (o : oracle) : sh world unit :=
  confirm o;;
  current_branch ← create_branches o;
  start_rebase o current_branch.

End Rebase.

(** ** scripts/sync-upstream.sh *)

Module Sync.

Definition opts : shopts := e_only.

Record oracle : Type := {
  fetch_outcome : Git.fetch_outcome;     (* git fetch upstream *)
  upstream_log : list string;            (* git log --oneline HEAD..upstream/main *)
  merge_base : Z * string;               (* git merge-base HEAD upstream/main *)
  merge_tree : Z * string;               (* git merge-tree $base_commit HEAD upstream/main *)
  confirm : option string;               (* line read into $confirm; None at end of input *)
  rebase_outcome : Git.rebase_outcome
}.

Fixpoint contains (sub s : string) : bool :=
  String.prefix sub s
  || match s with
     | EmptyString => false
     | String _ s' => contains sub s'
     end.

(** Lines of a text, split at newlines. *)
Fixpoint lines_from (cur s : string) : list string :=
  match s with
  | EmptyString => [cur]
  | String c s' =>
      if bool_decide (c = "010"%char) then cur :: lines_from "" s'
      else lines_from (cur +:+ String c EmptyString) s'
  end.
Definition lines (s : string) : list string := lines_from "" s.

(** [grep -E "^\+\+\+|^---"] *)
Definition is_file_header (l : string) : bool :=
  String.prefix "+++" l || String.prefix "---" l.

(** [sed 's/^[+\-]*[ab]\///']: a leading run of [+], [\] and [-]
    followed by [a/] or [b/] is removed. *)
Fixpoint drop_marks (l : string) : string :=
  match l with
  | String c l' =>
      if bool_decide (c = "+"%char) || bool_decide (c = "\"%char) || bool_decide (c = "-"%char)
      then drop_marks l' else l
  | EmptyString => l
  end.

Definition sed_strip (l : string) : string :=
  match drop_marks l with
  | String c (String "/" rest) =>
      if bool_decide (c = "a"%char) || bool_decide (c = "b"%char) then rest else l
  | _ => l
  end.

(** The lines that leave
    [echo "$conflict_preview" | grep -E ... | sed ... | sort -u | grep -v /dev/null],
    before sorting; sorting and removing duplicates does not change
    whether there are any. *)
Definition conflict_files (conflict_preview : string) : list string :=
  filter (fun l => contains "/dev/null" l = false)
    (sed_strip <$> filter (fun l => is_file_header l = true) (lines conflict_preview)).

(** Status of that pipeline: without pipefail, the status of the final
    [grep -v], which is 1 when it selects no line. *)
Definition conflict_files_status (conflict_preview : string) : Z :=
  match conflict_files conflict_preview with
  | [] => 1
  | _ :: _ => 0
  end.

(** [[[ $confirm == [yY] || $confirm == [yY][eE][sS] ]]] *)
Definition lower (c : ascii) : ascii :=
  let n := nat_of_ascii c in
  if (65 <=? n)%nat && (n <=? 90)%nat then ascii_of_nat (n + 32) else c.
Definition confirmed (confirm : string) : bool :=
  match confirm with
  | String y EmptyString => bool_decide (lower y = "y"%char)
  | String y (String e (String s EmptyString)) =>
      bool_decide (lower y = "y"%char) && bool_decide (lower e = "e"%char)
      && bool_decide (lower s = "s"%char)
  | _ => false
  end.

Definition script (o : oracle) : sh world unit :=
  (* Fetch latest upstream *)
  stmt opts (git (GitFetch "upstream") (Git.fetch (fetch_outcome o)));;
  (* Check current branch *)
  w ← Sh.get;
  let '(st, current_branch) := Git.rev_parse_abbrev_head (repo w) in
  stmt opts (mret st);;
  (* Analyze upstream changes *)
  let upstream_commits := Z.of_nat (length (upstream_log o)) in
  (if upstream_commits =? 0 then echo ForkCurrent;; Sh.exit 0 else mret tt);;
  (* "Recent commits:" only prints *)
  (* Conflict detection using merge-tree *)
  let '(st, base_commit) := merge_base o in
  stmt opts (mret st);;
  let '(st, conflict_preview) := merge_tree o in
  stmt opts (mret st);;
  if contains "<<<<<<< " conflict_preview then
    echo ConflictsDetected;;
    stmt opts (mret (conflict_files_status conflict_preview));;
    echo ManualWorkflow;;
    Sh.exit 1
  else
    echo CleanIntegration;;
    '(st, confirm) ← read (confirm o);
    stmt opts (mret st);;
    if confirmed confirm then
      stmt opts (git (GitRebase "upstream/main") (Git.rebase (rebase_outcome o)));;
      echo SyncComplete
    else echo SyncCancelled.

End Sync.

(** ** scripts/fork-health.sh *)

Module Health.

(** The script has no [set] line. *)
Definition opts : shopts := no_opts.

Record oracle : Type := {
  fetch_outcome : Git.fetch_outcome;   (* git fetch upstream *)
  rev_list_behind : Z * Z;             (* git rev-list --count upstream/main ^HEAD *)
  build : Z;                           (* bun run build *)
  test_ci : Z;                         (* bun run test:ci *)
  typecheck : Z;                       (* bun run typecheck *)
  bun_version_cmd : Z * string;        (* bun --version: status and output *)
  lefthook_version_cmd : Z * string;   (* bunx lefthook version *)
  biome_version_cmd : Z * string       (* bunx @biomejs/biome --version *)
}.

(** The three version variables are never initialised by the script: when
    a tool is missing they keep the value inherited from the environment
    (empty when unset, as [set -u] is off). *)
Record inherited : Type := {
  env_bun_version : string;
  env_lefthook_version : string;
  env_biome_version : string
}.

Record report : Type := {
  build_status : string;
  test_status : string;
  ts_status : string;
  bun_version : string;
  lefthook_version : string;
  biome_version : string;
  priority : string;
  health_score : Z;
  total_checks : Z;
  health_percentage : Z
}.

(** [[ test ] && ((health_score++))] *)
Definition tally (test : bool) (health_score : Z) : Z :=
  if test then (post_incr health_score).1 else health_score.

Definition nonempty (s : string) : bool := negb (String.eqb s "").

(** [x=$(tool --version)]: the tool runs a second time and its output is
    the value; the status of an assignment is not checked here. *)
Definition version_of (argv : string) (r : Z * string) : sh world string :=
  tool argv r.1;;
  mret r.2.

(** The divergence, recent-activity and dependency sections only print;
    of the variables they set, [behind_count] alone is read again. *)
Definition script (o : oracle) (e : inherited) : sh world report :=
  (* Ensure upstream is fetched *)
  stmt opts (git (GitFetch "upstream") (Git.fetch (fetch_outcome o)));;
  let behind_count := if (rev_list_behind o).1 =? 0 then (rev_list_behind o).2 else 0 in
  (* Build validation *)
  st ← tool "bun run build" (build o);
  let build_status := if st =? 0 then "pass" else "fail" in
  (* Test validation *)
  st ← tool "bun run test:ci" (test_ci o);
  let test_status := if st =? 0 then "pass" else "fail" in
  (* TypeScript validation *)
  st ← tool "bun run typecheck" (typecheck o);
  let ts_status := if st =? 0 then "pass" else "issues" in
  (* Bun validation *)
  st ← tool "bun --version" (bun_version_cmd o).1;
  bun_version ← (if st =? 0 then version_of "bun --version" (bun_version_cmd o)
                 else mret (env_bun_version e));
  (* Lefthook validation *)
  st ← tool "bunx lefthook version" (lefthook_version_cmd o).1;
  lefthook_version ← (if st =? 0
                      then version_of "bunx lefthook version" (lefthook_version_cmd o)
                      else mret (env_lefthook_version e));
  (* BiomeJS validation *)
  st ← tool "bunx @biomejs/biome --version" (biome_version_cmd o).1;
  biome_version ← (if st =? 0
                   then version_of "bunx @biomejs/biome --version" (biome_version_cmd o)
                   else mret (env_biome_version e));
  (* Integration recommendations *)
  let priority :=
    if 10 <? behind_count then "high"
    else if 5 <? behind_count then "medium"
    else if 0 <? behind_count then "low"
    else "none" in
  (* Health score calculation *)
  let health_score := 0 in
  let total_checks := 6 in
  let health_score := tally (String.eqb build_status "pass") health_score in
  let health_score := tally (String.eqb test_status "pass") health_score in
  let health_score := tally (negb (String.eqb ts_status "fail")) health_score in  (* Allow warnings *)
  let health_score := tally (nonempty bun_version) health_score in
  let health_score := tally (nonempty lefthook_version) health_score in
  let health_score := tally (nonempty biome_version) health_score in
  let health_percentage := Z.quot (health_score * 100) total_checks in
  echo (HealthSummary health_percentage health_score total_checks);;
  mret {| build_status := build_status; test_status := test_status;
          ts_status := ts_status; bun_version := bun_version;
          lefthook_version := lefthook_version; biome_version := biome_version;
          priority := priority; health_score := health_score;
          total_checks := total_checks; health_percentage := health_percentage |}.

End Health.

(** ** docker-bake.hcl *)

Module Bake.

(** Variables set in the environment of [docker buildx bake]. *)
Definition env : Type := gmap string string.

(** The [variable] blocks and their defaults. *)
Definition variables : list (string * string) :=
  [("APP_VERSION", "latest"); ("REGISTRY", "peterkc/cipher"); ("BUN_VERSION", "1.2.21");
   ("BUILD_UI", "false"); ("BUILDKIT_INLINE_CACHE", "1"); ("DOCKER_BUILDKIT", "1");
   ("PUSH_TO_REGISTRY", "false"); ("OUTPUT_TYPE", "docker")].

Definition default_of (name : string) : string :=
  match List.find (fun d => String.eqb d.1 name) variables with
  | Some d => d.2
  | None => ""
  end.

(** A variable takes the environment's value when there is one. *)
Definition var (e : env) (name : string) : string :=
  match e !! name with
  | Some v => v
  | None => default_of name
  end.

(** Of a target block, the attributes that decide where its image goes:
    its parents and its own [output], if it has one. *)
Record target : Type := {
  name : string;
  inherits : list string;
  output : option (env -> list string)
}.

(** [output = [PUSH_TO_REGISTRY == "true" ? "type=registry" : "type=${OUTPUT_TYPE}"]] *)
Definition conditional_output (e : env) : list string :=
  [if String.eqb (var e "PUSH_TO_REGISTRY") "true" then "type=registry"
   else "type=" +:+ var e "OUTPUT_TYPE"].

Definition cipher_base : target :=
  {| name := "cipher-base"; inherits := [];
     output := Some (fun _ => ["type=docker"]) (* Base target for cache only *) |}.
Definition cipher_dev : target :=
  {| name := "cipher-dev"; inherits := ["cipher-base"];
     output := Some conditional_output |}.
Definition cipher_prod : target :=
  {| name := "cipher-prod"; inherits := ["cipher-base"];
     output := Some conditional_output |}.
Definition cipher_release : target :=
  {| name := "cipher-release"; inherits := ["cipher-prod"]; output := None |}.





End Bake.

(** ** docker/scripts/build.sh *)

Module Build.

Definition opts : shopts := euo_pipefail.

Record oracle : Type := {
  BUILD_UI_env : string;        (* environment values, empty when unset *)
  NODE_ENV_env : string;
  ENABLE_CACHE_env : string;
  bun_on_path : bool;           (* command -v bun *)
  available_space : Z;          (* df . | awk 'NR==2 {print $4}' *)
  (* exit status and effect on the files of the bun command lines *)
  bun : string -> gmap string fkind -> Z * gmap string fkind
}.

(** [${VAR:-default}] *)
Definition or_default (v d : string) : string := if String.eqb v "" then d else v.

Definition BUILD_UI (o : oracle) : string := or_default (BUILD_UI_env o) "false".
Definition NODE_ENV (o : oracle) : string := or_default (NODE_ENV_env o) "production".
Definition ENABLE_CACHE (o : oracle) : string := or_default (ENABLE_CACHE_env o) "true".

Definition log (line : string) : sh world unit := echo (BuildLog line).

Definition error_exit {A : Type} (line : string) : sh world A :=
  echo (BuildLog ("ERROR: " +:+ line));;
  Sh.exit 1.

Definition is_file (w : world) (path : string) : bool :=
  bool_decide (fs w !! path = Some RegularFile).
Definition is_dir (w : world) (path : string) : bool :=
  bool_decide (fs w !! path = Some Directory).

Definition run_bun (o : oracle) (args : string) : sh world Z :=
  emit (Ran (Tool ("bun " +:+ args)));;
  w ← Sh.get;
  set_fs (fun _ => (bun o args (fs w)).2);;
  mret (bun o args (fs w)).1.

(** [rm -rf path 2>/dev/null || true] *)
Definition rm_rf (path : string) : sh world unit :=
  emit (Ran (Tool ("rm -rf " +:+ path)));;
  set_fs (filter (fun kv => ¬ (kv.1 = path ∨ String.prefix (path +:+ "/") kv.1 = true))).

Definition validate_environment (o : oracle) : sh world unit :=
  log "Validating build environment...";;
  w ← Sh.get;
  (if negb (is_file w "package.json")
   then error_exit "package.json not found - are we in the correct directory?"
   else mret tt);;
  (if negb (bun_on_path o) then error_exit "Bun runtime not found" else mret tt);;
  log "Build Configuration:";;
  (if available_space o <? 1000000 then log "WARNING: Low disk space" else mret tt).

Definition install_dependencies (o : oracle) : sh world unit :=
  log "Installing dependencies with Bun...";;
  let install_args := "--frozen-lockfile" in
  let install_args :=
    if String.eqb (ENABLE_CACHE o) "true" then install_args +:+ " --verbose"
    else install_args in
  let install_args :=
    if String.eqb (NODE_ENV o) "production" then install_args +:+ " --production"
    else install_args in
  (if String.eqb (NODE_ENV o) "production"
   then log "Installing production dependencies only"
   else log "Installing all dependencies (including dev dependencies)");;
  st ← run_bun o ("install " +:+ install_args);
  if st =? 0 then log "Dependencies installed successfully"
  else error_exit "Failed to install dependencies".

Definition build_application (o : oracle) : sh world unit :=
  log "Building Cipher application...";;
  let build_cmd := if String.eqb (BUILD_UI o) "true" then "compile" else "compile:no-ui" in
  (if String.eqb (BUILD_UI o) "true" then log "Building with UI components"
   else log "Building without UI components (API only)");;
  (* Check if build script exists *)
  st ← run_bun o ("run --silent " +:+ build_cmd +:+ " --dry-run");
  build_cmd ← (if negb (st =? 0) then
                 log "Warning: Build script not found, trying fallback";;
                 mret (if String.eqb (BUILD_UI o) "true" then "build" else "build:backend")
               else mret build_cmd);
  (* Execute build *)
  st ← run_bun o ("run " +:+ build_cmd);
  if st =? 0 then
    log "Application built successfully";;
    w ← Sh.get;
    if is_dir w "dist" then log "Build output size"
    else log "Warning: dist directory not found after build"
  else error_exit "Failed to build application".

Definition cleanup_build (o : oracle) : sh world unit :=
  log "Cleaning up build artifacts...";;
  if String.eqb (NODE_ENV o) "production" then
    w ← Sh.get;
    (if is_dir w "node_modules" then
       log "Cleaning development dependencies...";;
       or_true (run_bun o "install --frozen-lockfile --production")
     else mret tt);;
    rm_rf ".turbo";;
    rm_rf ".next";;
    rm_rf ".cache";;
    log "Production cleanup completed"
  else mret tt.

(** # Health check *)
Definition verify_build : sh world unit :=
  log "Verifying build output...";;
  let errors := 0 in
  w ← Sh.get;
  errors ← (if is_file w "dist/cipher" then
              log "✓ Main executable found: dist/cipher";; mret errors
            else if is_file w "dist/index.js" then
              log "✓ Main script found: dist/index.js";; mret errors
            else
              log "✗ Main executable/script not found in dist/";; mret (errors + 1));
  (if is_dir w "memAgent" then log "✓ memAgent configuration found"
   else log "⚠ memAgent configuration not found");;
  if errors =? 0 then log "Build verification passed"
  else error_exit "Build verification failed".

Definition main (o : oracle) : sh world unit :=
  log "Starting Cipher build process...";;
  validate_environment o;;
  install_dependencies o;;
  build_application o;;
  cleanup_build o;;
  verify_build;;
  log "Build process completed successfully!".

End Build.

(** ** The shell scripts of the repository and their [set] lines *)

Module Scripts.

Record script_file : Type := {
  path : string;
  opts : shopts
}.

(** [set -eux]: xtrace only prints. *)
Definition eux : shopts := {| errexit := true; nounset := true; pipefail := false |}.

Definition all : list script_file :=
  [ {| path := "scripts/sync-upstream.sh"; opts := Sync.opts |};
    {| path := "scripts/fork-health.sh"; opts := Health.opts |};
    {| path := "scripts/resolve-rebase-conflicts.sh"; opts := Resolve.opts |};
    {| path := "scripts/rebase-from-upstream.sh"; opts := Rebase.opts |};
    {| path := "scripts/compare-with-upstream.sh"; opts := euo_pipefail |};
    {| path := "docker/scripts/build.sh"; opts := Build.opts |};
    {| path := "docker/scripts/common-packages.sh"; opts := eux |};
    {| path := "docker buildx configuration script"; opts := euo_pipefail |} ].

End Scripts.

(** ** scripts/fork-health.sh: the two verdict lines of the summary *)

Module HealthSummary.

(** [$([ $health_score -ge 4 ] && echo "Healthy" || echo "Needs attention")] *)
Definition modernization_stack (health_score : Z) : string :=
  if 4 <=? health_score then "Healthy" else "Needs attention".

(** The [if]/[elif]/[else] on [$health_percentage]. *)
Definition status (health_percentage : Z) : string :=
  if 80 <=? health_percentage then "Excellent fork health"
  else if 60 <=? health_percentage then "Good health with some issues"
  else "Fork needs maintenance attention".

End HealthSummary.

(** ** docker-bake.hcl: groups, and the tags, arguments and platforms of the targets *)

Module BakeFile.



(** Of a target block: parents, build arguments, tags and platforms. *)
Record block : Type := {
  name : string;
  inherits : list string;
  args : list (string * (Bake.env -> string));
  tags : option (Bake.env -> list string);
  platforms : option (list string)
}.

Definition cipher_base : block :=
  {| name := "cipher-base"; inherits := [];
     args := [("BUN_VERSION", fun e => Bake.var e "BUN_VERSION");
              ("BASE", fun e => "oven/bun:" +:+ Bake.var e "BUN_VERSION" +:+ "-slim")];
     tags := None; platforms := None |}.

Definition cipher_dev : block :=
  {| name := "cipher-dev"; inherits := ["cipher-base"];
     args := [("BUILD_UI", fun e => Bake.var e "BUILD_UI");
              ("NODE_ENV", fun _ => "development")];
     tags := Some (fun e => [Bake.var e "REGISTRY" +:+ ":dev-" +:+ Bake.var e "APP_VERSION";
                             Bake.var e "REGISTRY" +:+ ":dev-latest"]);
     platforms := None |}.

Definition cipher_prod : block :=
  {| name := "cipher-prod"; inherits := ["cipher-base"];
     args := [("BUILD_UI", fun _ => "true"); ("NODE_ENV", fun _ => "production")];
     tags := Some (fun e => [Bake.var e "REGISTRY" +:+ ":" +:+ Bake.var e "APP_VERSION";
                             Bake.var e "REGISTRY" +:+ ":latest"]);
     platforms := None |}.

Definition cipher_release : block :=
  {| name := "cipher-release"; inherits := ["cipher-prod"];
     args := [("BUILD_UI", fun _ => "true"); ("NODE_ENV", fun _ => "production")];
     tags := Some (fun e => [Bake.var e "REGISTRY" +:+ ":" +:+ Bake.var e "APP_VERSION";
                             Bake.var e "REGISTRY" +:+ ":latest";
                             Bake.var e "REGISTRY" +:+ ":release-" +:+ Bake.var e "APP_VERSION"]);
     platforms := Some ["linux/amd64"; "linux/arm64"; "linux/arm/v7"] |}.

Definition blocks : list block := [cipher_base; cipher_dev; cipher_prod; cipher_release].

Definition block_of (target_name : string) : option block :=
  List.find (fun b => String.eqb (name b) target_name) blocks.

(** A list attribute set in the block replaces the inherited one; among
    several parents the last one that has it wins. *)
Fixpoint resolve {A : Type} (own : block -> option A) (depth : nat) (target_name : string)
  : option A :=
  match depth with
  | O => None
  | S depth' =>
      match block_of target_name with
      | None => None
      | Some b =>
          match own b with
          | Some a => Some a
          | None =>
              fold_left
                (fun acc parent =>
                   match resolve own depth' parent with
                   | Some a => Some a
                   | None => acc
                   end)
                (inherits b) None
          end
      end
  end.

Definition tags_of (e : Bake.env) (target_name : string) : list string :=
  match resolve tags (length blocks) target_name with
  | Some f => f e
  | None => []
  end.

Definition platforms_of (target_name : string) : list string :=
  default [] (resolve platforms (length blocks) target_name).

(** [args] is a map: the block's entries are laid over those of its
    parents, key by key. *)
Fixpoint resolve_args (depth : nat) (e : Bake.env) (target_name : string)
  : gmap string string :=
  match depth with
  | O => ∅
  | S depth' =>
      match block_of target_name with
      | None => ∅
      | Some b =>
          list_to_map ((fun kv => (kv.1, kv.2 e)) <$> args b)
          ∪ fold_left (fun acc parent => resolve_args depth' e parent ∪ acc) (inherits b) ∅
      end
  end.

Definition args_of (e : Bake.env) (target_name : string) : gmap string string :=
  resolve_args (length blocks) e target_name.

End BakeFile.

(** ** The docker buildx configuration script *)

Module Buildx.

Definition opts : shopts := euo_pipefail.

Inductive driver : Type :=
| Cloud (endpoint : string)
| DockerContainer (platforms : string).

(** What the script can change: the builder instances and the current one. *)
Record docker : Type := {
  builders : gmap string driver;
  current : option string
}.

(** The docker command lines run, and the log lines by their fixed text. *)
Inductive event : Type :=
| Docker (argv : string)
| Log (line : string).

Record state : Type := {
  daemon : docker;
  out : list event
}.

Record oracle : Type := {
  DOCKER_BUILDER_env : string;          (* environment values, empty when unset *)
  DOCKER_CLOUD_ENDPOINT_env : string;
  PLATFORMS_env : string;
  (* status of [docker buildx create] for a name that is free: an endpoint
     that cannot be reached, a driver that is not installed *)
  create_status : Z
}.

Definition DOCKER_BUILDER (o : oracle) : string :=
  Build.or_default (DOCKER_BUILDER_env o) "cipher-builder".
Definition DOCKER_CLOUD_ENDPOINT (o : oracle) : string := DOCKER_CLOUD_ENDPOINT_env o.
Definition PLATFORMS (o : oracle) : string :=
  Build.or_default (PLATFORMS_env o) "linux/amd64,linux/arm64,linux/arm/v7".

Definition emit (e : event) : sh state unit :=
  Sh.modify (fun s => {| daemon := daemon s; out := out s ++ [e] |}).

Definition log (line : string) : sh state unit := emit (Log line).

(** [docker buildx inspect NAME]: fails when there is no such builder. *)
Definition inspect (builder : string) : sh state Z :=
  emit (Docker ("buildx inspect " +:+ builder));;
  s ← Sh.get;
  mret (if bool_decide (is_Some (builders (daemon s) !! builder)) then 0 else 1).

(** [docker buildx create --name NAME --driver ...]: refused when the name
    is taken; [--use] makes the new builder the current one. *)
Definition create (o : oracle) (argv : string) (builder : string) (d : driver) (use : bool)
  : sh state Z :=
  emit (Docker argv);;
  s ← Sh.get;
  if bool_decide (is_Some (builders (daemon s) !! builder)) then mret 1
  else if negb (create_status o =? 0) then mret (create_status o)
  else
    Sh.modify (fun s => {| daemon := {| builders := <[builder := d]> (builders (daemon s));
                                        current := if use then Some builder
                                                   else current (daemon s) |};
                           out := out s |});;
    mret 0.

(** [docker buildx use NAME] *)
Definition use (builder : string) : sh state Z :=
  emit (Docker ("buildx use " +:+ builder));;
  s ← Sh.get;
  if bool_decide (is_Some (builders (daemon s) !! builder)) then
    Sh.modify (fun s => {| daemon := {| builders := builders (daemon s);
                                        current := Some builder |};
                           out := out s |});;
    mret 0
  else mret 1.

(** # Check if builder exists *)
Definition check_builder (o : oracle) : sh state Z :=
  st ← inspect (DOCKER_BUILDER o);
  mret (if st =? 0 then 0 else 1).

(** # Create builder based on configuration *)
Definition create_builder (o : oracle) : sh state unit :=
  if negb (String.eqb (DOCKER_CLOUD_ENDPOINT o) "")
     && negb (String.eqb (DOCKER_CLOUD_ENDPOINT o) "default")
  then
    log "Creating cloud builder";;
    stmt opts (create o ("buildx create --driver cloud --name " +:+ DOCKER_BUILDER o
                         +:+ " " +:+ DOCKER_CLOUD_ENDPOINT o)
                 (DOCKER_BUILDER o) (Cloud (DOCKER_CLOUD_ENDPOINT o)) false)
  else
    log "Creating container builder";;
    stmt opts (create o ("buildx create --name " +:+ DOCKER_BUILDER o
                         +:+ " --driver docker-container --platform " +:+ PLATFORMS o
                         +:+ " --use")
                 (DOCKER_BUILDER o) (DockerContainer (PLATFORMS o)) true).

(** # Main logic *)
Definition main (o : oracle) : sh state unit :=
  log "Configuring Docker buildx...";;
  st ← check_builder o;
  (if st =? 0 then
     log "Builder already exists";;
     stmt opts (use (DOCKER_BUILDER o));;
     log "Switched to builder"
   else
     log "Builder does not exist, creating...";;
     create_builder o;;
     stmt opts (use (DOCKER_BUILDER o));;
     log "Created and switched to builder");;
  log "Builder information:";;
  or_true (inspect (DOCKER_BUILDER o));;
  log "Buildx configuration completed".

End Buildx.

(** ** The TypeScript import fixers

    [scripts/fix-type-imports.ts] and [scripts/fix-type-imports-precise.ts]
    rewrite import lines of the TypeScript sources.  JavaScript strings are
    sequences of UTF-16 code units; the string methods and the regular
    expressions the scripts use are modelled on those. *)

Module Js.

Local Open Scope list_scope.

Definition str : Type := list N.

(** A string literal of the source (all of them are ASCII). *)
Definition lit (s : string) : str := N_of_ascii <$> String.list_ascii_of_string s.

Definition newline : N := 10%N.

(** WhiteSpace and LineTerminator code points: the class [\s], and what
    [trim] strips. *)
Definition is_space (c : N) : bool :=
  existsb (N.eqb c)
    [9; 10; 11; 12; 13; 32; 160; 5760; 8232; 8233; 8239; 8287; 12288; 65279]%N
  || (N.leb 8192 c && N.leb c 8202).

Fixpoint trimStart (s : str) : str :=
  match s with
  | c :: s' => if is_space c then trimStart s' else s
  | [] => []
  end.

Definition trimEnd (s : str) : str := rev (trimStart (rev s)).

Definition trim (s : str) : str := trimEnd (trimStart s).

Fixpoint startsWith (s prefix : str) {struct prefix} : bool :=
  match prefix, s with
  | [], _ => true
  | a :: prefix', b :: s' => N.eqb a b && startsWith s' prefix'
  | _ :: _, [] => false
  end.

Fixpoint includes (s needle : str) : bool :=
  match s with
  | [] => startsWith [] needle
  | _ :: s' => startsWith s needle || includes s' needle
  end.

(** [s.split(sep)] for a separator of one code unit. *)
Fixpoint split (sep : N) (s : str) : list str :=
  match s with
  | [] => [[]]
  | c :: s' =>
      if N.eqb c sep then [] :: split sep s'
      else match split sep s' with
           | piece :: pieces => (c :: piece) :: pieces
           | [] => [[c]]
           end
  end.

Fixpoint join (sep : N) (pieces : list str) : str :=
  match pieces with
  | [] => []
  | [piece] => piece
  | piece :: pieces' => piece ++ sep :: join sep pieces'
  end.

(** [A-Z] and [A-Za-z] *)
Definition is_upper (c : N) : bool := N.leb 65 c && N.leb c 90.
Definition is_letter (c : N) : bool := is_upper c || (N.leb 97 c && N.leb c 122).

End Js.

(** The regular expressions of the fixers are sequences of literals and
    character classes under a greedy quantifier, anchored at the start of the
    line.  A match gives the text of each element of the sequence, and what
    is left of the input; a capture group is the text of the elements it
    spans. *)

Module Regex.

Local Open Scope list_scope.

Inductive quant : Type := One | Star | Plus.

Inductive seg : Type :=
| Lit (s : Js.str)
| Cls (p : N -> bool) (q : quant).

(** Length of the longest prefix in the class. *)
Fixpoint span (p : N -> bool) (s : Js.str) : nat :=
  match s with
  | c :: s' => if p c then S (span p s') else O
  | [] => O
  end.

(** A greedy quantifier takes as many repetitions as it can, and gives
    them back one at a time for as long as the rest of the pattern fails. *)
Fixpoint backtrack {A : Type} (attempt : nat -> option A) (least k : nat) : option A :=
  if Nat.ltb k least then None
  else match attempt k with
       | Some r => Some r
       | None =>
           match k with
           | O => None
           | S k' => backtrack attempt least k'
           end
       end.

Definition least (q : quant) : nat := match q with Plus => 1%nat | _ => 0%nat end.

Fixpoint run (segs : list seg) (input : Js.str) : option (list Js.str * Js.str) :=
  match segs with
  | [] => Some ([], input)
  | Lit s :: segs' =>
      if Js.startsWith input s
      then (fun r => (s :: r.1, r.2)) <$> run segs' (drop (length s) input)
      else None
  | Cls p One :: segs' =>
      match input with
      | c :: input' =>
          if p c then (fun r => ([c] :: r.1, r.2)) <$> run segs' input' else None
      | [] => None
      end
  | Cls p q :: segs' =>
      backtrack (fun k => (fun r => (take k input :: r.1, r.2)) <$> run segs' (drop k input))
        (least q) (span p input)
  end.

End Regex.

(** ** scripts/fix-type-imports.ts *)

Module FixTypeImports.

Local Open Scope list_scope.

Record ImportFix : Type := {
  file : string;
  line : Z;
  original : Js.str;
  fixed : Js.str
}.

(** The lines of the report that carry a count or a fix; the fixed text
    printed around them is left out. *)
Inductive printed : Type :=
| Found (n : Z)
| FilesProcessed (n : Z)
| FilesModified (n : Z)
| TotalFixes (n : Z)
| Sample (idx : Z) (entry : ImportFix)
| MoreFixes (n : Z).

(** The files, the module-level variables, and the lines printed. *)
Record state : Type := {
  files : gmap string Js.str;
  fixes : list ImportFix;
  filesProcessed : Z;
  filesModified : Z;
  out : list printed
}.

(** The class of the single and the double quote, Q below. *)
Definition quote (c : N) : bool := N.eqb c 39 || N.eqb c 34.

(** The pattern of the loop, with a blank put before a closing parenthesis
    that follows a star: [/^(\s* )import\s+\{\s*([^}]+)\s*\}\s+from\s+(Q[^Q]+Q)/] *)
Definition importPattern : list Regex.seg :=
  [Regex.Cls Js.is_space Regex.Star;                      (* group 1 *)
   Regex.Lit (Js.lit "import");
   Regex.Cls Js.is_space Regex.Plus;
   Regex.Lit (Js.lit "{");
   Regex.Cls Js.is_space Regex.Star;
   Regex.Cls (fun c => negb (N.eqb c 125)) Regex.Plus;    (* group 2 *)
   Regex.Cls Js.is_space Regex.Star;
   Regex.Lit (Js.lit "}");
   Regex.Cls Js.is_space Regex.Plus;
   Regex.Lit (Js.lit "from");
   Regex.Cls Js.is_space Regex.Plus;
   Regex.Cls quote Regex.One;                             (* group 3, three elements *)
   Regex.Cls (fun c => negb (quote c)) Regex.Plus;
   Regex.Cls quote Regex.One].

(** [const [, indent, imports, from] = importMatch] *)
Definition importMatch (line : Js.str) : option (Js.str * Js.str * Js.str) :=
  match Regex.run importPattern line with
  | Some ([indent; _; _; _; _; imports; _; _; _; _; _; q1; specifier; q2], _) =>
      Some (indent, imports, q1 ++ specifier ++ q2)
  | _ => None
  end.

Definition isLikelyTypeImport (imports from : Js.str) : bool :=
  Js.includes from (Js.lit "express")
  || Js.includes from (Js.lit "@modelcontextprotocol")
  || Js.includes from (Js.lit "weaviate")
  || Js.includes imports (Js.lit "Config")
  || Js.includes imports (Js.lit "Type")
  || Js.includes imports (Js.lit "Interface")
  || (* /^[A-Z]/.test(imports.trim().split(',')[0]?.trim() || '') *)
     match Js.trim (hd [] (Js.split 44 (Js.trim imports))) with
     | c :: _ => Js.is_upper c
     | [] => false
     end.

(** The replacement of a line, when the loop body makes one. *)
Definition fixedLine (line : Js.str) : option Js.str :=
  match importMatch line with
  | Some (indent, imports, from) =>
      if Js.includes line (Js.lit "import type") then None
      else if isLikelyTypeImport imports from
      then Some (indent ++ Js.lit "import type { " ++ Js.trim imports
                 ++ Js.lit " } from " ++ from)
      else None
  | None => None
  end.

(** The [for] loop of [fixFileImports], from index [i] on. *)
Fixpoint loop (filePath : string) (i : Z) (lines : list Js.str)
    (newLines : list Js.str) (fixes : list ImportFix) (modified : bool)
  : list Js.str * list ImportFix * bool :=
  match lines with
  | [] => (newLines, fixes, modified)
  | line :: lines' =>
      match fixedLine line with
      | Some fixed =>
          loop filePath (i + 1) lines' (newLines ++ [fixed])
            (fixes ++ [{| file := filePath; line := i + 1; original := line;
                          fixed := fixed |}])
            true
      | None => loop filePath (i + 1) lines' (newLines ++ [line]) fixes modified
      end
  end.

(** An exception that nothing catches reaches [main().catch], which ends
    the process with status 1. *)
Definition throw {A : Type} : sh state A := Sh.exit 1.

Definition fixFileImports (filePath : string) : sh state bool :=
  s ← Sh.get;
  match files s !! filePath with
  | None => throw                       (* readFileSync *)
  | Some content =>
      let lines := Js.split Js.newline content in
      let '(newLines, fixes', modified) := loop filePath 0 lines [] (fixes s) false in
      Sh.modify (fun s =>
        {| files := if modified then <[filePath := Js.join Js.newline newLines]> (files s)
                    else files s;
           fixes := fixes';
           filesProcessed := filesProcessed s + 1;
           filesModified := if modified then filesModified s + 1 else filesModified s;
           out := out s |});;
      mret modified
  end.

Definition log (l : printed) : sh state unit :=
  Sh.modify (fun s => {| files := files s; fixes := fixes s;
                         filesProcessed := filesProcessed s;
                         filesModified := filesModified s; out := out s ++ [l] |}).

(** [main], given the files that [glob] finds. *)
Definition main (found : list string) : sh state unit :=
  log (Found (Z.of_nat (length found)));;
  for_each found (fun file => _ ← fixFileImports file; mret tt);;
  s ← Sh.get;
  log (FilesProcessed (filesProcessed s));;
  log (FilesModified (filesModified s));;
  log (TotalFixes (Z.of_nat (length (fixes s))));;
  if 0 <? Z.of_nat (length (fixes s)) then
    for_each (imap (fun idx entry => (Z.of_nat idx + 1, entry)) (take 10 (fixes s)))
      (fun sample => log (Sample sample.1 sample.2));;
    (if 10 <? Z.of_nat (length (fixes s))
     then log (MoreFixes (Z.of_nat (length (fixes s)) - 10))
     else mret tt)
  else mret tt.

(** The module-level variables as the script starts. *)
Definition initial (files : gmap string Js.str) : state :=
  {| files := files; fixes := []; filesProcessed := 0; filesModified := 0; out := [] |}.

End FixTypeImports.

(** ** scripts/fix-type-imports-precise.ts: fixFileImports *)

Module FixTypeImportsPrecise.

Local Open Scope list_scope.

Record state : Type := {
  files : gmap string Js.str;
  filesModified : Z
}.

(** [/^\s*import\s+\{/] *)
Definition namedImport : list Regex.seg :=
  [Regex.Cls Js.is_space Regex.Star; Regex.Lit (Js.lit "import");
   Regex.Cls Js.is_space Regex.Plus; Regex.Lit (Js.lit "{")].

(** [/^\s*import\s+[A-Za-z]/] *)
Definition defaultImport : list Regex.seg :=
  [Regex.Cls Js.is_space Regex.Star; Regex.Lit (Js.lit "import");
   Regex.Cls Js.is_space Regex.Plus; Regex.Cls Js.is_letter Regex.One].

(** [/^(\s* )import\s+/], without the blank *)
Definition importKeyword : list Regex.seg :=
  [Regex.Cls Js.is_space Regex.Star; Regex.Lit (Js.lit "import");
   Regex.Cls Js.is_space Regex.Plus].

(** [line.replace(importKeyword, '$1import type ')] *)
Definition replaceImport (line : Js.str) : Js.str :=
  match Regex.run importKeyword line with
  | Some ([indent; _; _], rest) => indent ++ Js.lit "import type " ++ rest
  | _ => line
  end.

Definition matches (pattern : list Regex.seg) (line : Js.str) : bool :=
  bool_decide (is_Some (Regex.run pattern line)).

(** The body of the loop over [lineNumbers]. *)
Definition fixLineNumber (lineNum : Z) (acc : list Js.str * Z) : list Js.str * Z :=
  let '(lines, fixCount) := acc in
  let lineIndex := lineNum - 1 in
  if (lineIndex <? 0) || (Z.of_nat (length lines) <=? lineIndex) then acc
  else
    match lines !! Z.to_nat lineIndex with
    | None => acc
    | Some line =>
        (* Pattern 1: import { ... } from '...' *)
        if matches namedImport line && negb (Js.includes line (Js.lit "import type"))
        then (<[Z.to_nat lineIndex := replaceImport line]> lines, fixCount + 1)
        (* Pattern 2: import Name from '...' (default import) *)
        else if matches defaultImport line
                && negb (Js.includes line (Js.lit "import type"))
                && negb (Js.includes line (Js.lit "{"))
        then (<[Z.to_nat lineIndex := replaceImport line]> lines, fixCount + 1)
        else acc
    end.

Definition throw {A : Type} : sh state A := Sh.exit 1.

(** [lineNumbers] in the iteration order of the Set. *)
Definition fixFileImports (filePath : string) (lineNumbers : list Z) : sh state Z :=
  s ← Sh.get;
  match files s !! filePath with
  | None => throw                       (* readFileSync *)
  | Some content =>
      let lines := Js.split Js.newline content in
      let '(lines, fixCount) :=
        fold_left (fun acc lineNum => fixLineNumber lineNum acc) lineNumbers (lines, 0) in
      (if 0 <? fixCount then
         Sh.modify (fun s => {| files := <[filePath := Js.join Js.newline lines]> (files s);
                                filesModified := filesModified s + 1 |})
       else mret tt);;
      mret fixCount
  end.

End FixTypeImportsPrecise.

(** ** scripts/compare-with-upstream.sh *)

Module Compare.

Definition opts : shopts := euo_pipefail.

Inductive key_status : Type := Identical | Different | OnlyInFork | DeletedInFork.

Inductive printed : Type :=
| Title
| Fetching
| FetchDone
| CommitStatus (ahead behind : Z)
| OurUniqueCommits (log : list string)
| NewUpstreamCommits (log : list string)
| FileDifferences
| OnlyInOurFork (files : list string)
| DeletedInOurFork (files : list string)
| ModifiedFiles (files : list string)
| NoneListed
| KeyFilesTitle
| KeyFile (file : string) (status : key_status)
| ComparisonOptions
| RecentActivity (log : list string)
| NoRecentCommits
| ConflictCandidates (candidates : string)
| NoConflictCandidates
| NewDependencies (names : list string)
| NoDependencies
| SummaryTitle
| UpToDate
| SlightlyBehind (behind : Z)
| SignificantlyBehind (behind : Z).

Inductive event : Type :=
| Ran (c : cmd)
| Echo (l : printed).

Record state : Type := {
  repo : Git.repo;
  fs : gmap string fkind;
  out : list event
}.

(** Exit statuses and outputs of the commands the script only reads from.
    A pipeline's status is the one it has under pipefail. *)
Record oracle : Type := {
  fetch_outcome : Git.fetch_outcome;          (* git fetch upstream *)
  rev_list_ahead : Z * Z;                     (* git rev-list --count upstream/main..HEAD *)
  rev_list_behind : Z * Z;                    (* git rev-list --count HEAD..upstream/main *)
  log_ours : Z * list string;                 (* git log ... upstream/main..HEAD | head -20 *)
  log_upstream : Z * list string;             (* git log ... HEAD..upstream/main | head -20 *)
  diff_added : Z * list string;               (* git diff --diff-filter=A ... | grep -v *)
  diff_deleted : Z * list string;
  diff_modified : Z * list string;
  diff_quiet : string -> Z;                   (* git diff --quiet HEAD upstream/main -- file *)
  in_upstream : string -> Z;                  (* git ls-tree ... | grep -q file *)
  recent : Z * list string;                   (* git log upstream/main --since | head -10 *)
  conflict_candidates : string;               (* comm -12 ... || true *)
  jq_on_path : bool;                          (* command -v jq *)
  new_dependencies : Z * list string          (* comm -13 ... | head -10 *)
}.

Definition emit (e : event) : sh state unit :=
  Sh.modify (fun s => {| repo := repo s; fs := fs s; out := out s ++ [e] |}).

Definition echo (l : printed) : sh state unit := emit (Echo l).

Definition KEY_FILES : list string :=
  ["package.json"; "biome.json"; "lefthook.yml"; "justfile"; "tsconfig.json";
   "vitest.config.ts"].

(** A command whose output is captured or printed: its status. *)
Definition tool (argv : string) (status : Z) : sh state Z :=
  emit (Ran (Tool argv));;
  mret status.

(** A pipeline that prints, followed by [|| echo fallback]. *)
Definition listing (argv : string) (result : Z * list string)
    (shown : list string -> printed) (fallback : printed) : sh state unit :=
  st ← tool argv result.1;
  echo (shown result.2);;
  if st =? 0 then mret tt else echo fallback.

Definition key_file (o : oracle) (file : string) : sh state unit :=
  s ← Sh.get;
  if bool_decide (fs s !! file = Some RegularFile) then
    st ← tool ("git diff --quiet HEAD upstream/main -- " +:+ file) (diff_quiet o file);
    if st =? 0 then echo (KeyFile file Identical)
    else
      st ← tool ("git ls-tree -r upstream/main --name-only | grep -q " +:+ file)
             (in_upstream o file);
      if st =? 0 then echo (KeyFile file Different)
      else echo (KeyFile file OnlyInFork)
  else
    st ← tool ("git ls-tree -r upstream/main --name-only | grep -q " +:+ file)
           (in_upstream o file);
    if st =? 0 then echo (KeyFile file DeletedInFork) else mret tt.

Definition summary (behind : Z) : sh state unit :=
  echo SummaryTitle;;
  if behind =? 0 then echo UpToDate
  else if behind <? 10 then echo (SlightlyBehind behind)
  else echo (SignificantlyBehind behind).

Definition script (o : oracle) : sh state unit :=
  echo Title;;
  (* Fetch latest *)
  echo Fetching;;
  stmt opts (emit (Ran (GitFetch "upstream"));;
             s ← Sh.get;
             Sh.modify (fun s => {| repo := (Git.fetch (fetch_outcome o) (repo s)).2;
                                    fs := fs s; out := out s |});;
             mret (Git.fetch (fetch_outcome o) (repo s)).1);;
  echo FetchDone;;
  (* Show commit divergence *)
  stmt opts (tool "git rev-list --count upstream/main..HEAD" (rev_list_ahead o).1);;
  let ahead := (rev_list_ahead o).2 in
  stmt opts (tool "git rev-list --count HEAD..upstream/main" (rev_list_behind o).1);;
  let behind := (rev_list_behind o).2 in
  echo (CommitStatus ahead behind);;
  (if 0 <? ahead then
     stmt opts (st ← tool "git log --oneline --no-merges upstream/main..HEAD | head -20"
                       (log_ours o).1;
                echo (OurUniqueCommits (log_ours o).2);;
                mret st)
   else mret tt);;
  (if 0 <? behind then
     stmt opts (st ← tool "git log --oneline --no-merges HEAD..upstream/main | head -20"
                       (log_upstream o).1;
                echo (NewUpstreamCommits (log_upstream o).2);;
                mret st)
   else mret tt);;
  (* File differences *)
  echo FileDifferences;;
  listing "git diff --name-only --diff-filter=A HEAD upstream/main | grep -v"
    (diff_added o) OnlyInOurFork NoneListed;;
  listing "git diff --name-only --diff-filter=D HEAD upstream/main | grep -v"
    (diff_deleted o) DeletedInOurFork NoneListed;;
  listing "git diff --name-only --diff-filter=M HEAD upstream/main | grep -v"
    (diff_modified o) ModifiedFiles NoneListed;;
  (* Key file comparison *)
  echo KeyFilesTitle;;
  for_each KEY_FILES (key_file o);;
  echo ComparisonOptions;;
  (* Recent upstream activity *)
  listing "git log upstream/main --oneline --since | head -10"
    (recent o) RecentActivity NoRecentCommits;;
  (* Check for potential conflicts *)
  or_true (tool "comm -12" 0);;
  (if negb (String.eqb (conflict_candidates o) "")
   then echo (ConflictCandidates (conflict_candidates o))
   else echo NoConflictCandidates);;
  (* Dependencies comparison *)
  (if jq_on_path o
   then listing "comm -13 | head -10" (new_dependencies o) NewDependencies NoDependencies
   else mret tt);;
  summary behind.

End Compare.
(** * Concrete inputs and the vocabulary of the properties *)

(** ** Worlds used as concrete inputs *)

Definition empty_repo : Git.repo :=
  {| Git.paths := ∅; Git.rebasing := false; Git.branches := {[ "main" := "c0" ]};
     Git.head := Git.OnBranch "main"; Git.remotes := ∅ |}.

Definition empty_world : world := {| repo := empty_repo; fs := ∅; trace := [] |}.

(** ** Fork health inputs *)

Definition all_failing : Health.oracle :=
  {| Health.fetch_outcome := Git.FetchFailed 128; Health.rev_list_behind := (128, 0);
     Health.build := 1; Health.test_ci := 1; Health.typecheck := 1;
     Health.bun_version_cmd := (127, ""); Health.lefthook_version_cmd := (127, "");
     Health.biome_version_cmd := (127, "") |}.

Definition all_passing : Health.oracle :=
  {| Health.fetch_outcome := Git.Fetched ∅; Health.rev_list_behind := (0, 0);
     Health.build := 0; Health.test_ci := 0; Health.typecheck := 0;
     Health.bun_version_cmd := (0, "1.2.21"); Health.lefthook_version_cmd := (0, "1.7.0");
     Health.biome_version_cmd := (0, "Version: 2.2.0") |}.

Definition nothing_inherited : Health.inherited :=
  {| Health.env_bun_version := ""; Health.env_lefthook_version := "";
     Health.env_biome_version := "" |}.

(** The report of a run; the script has no [exit] and no errexit, so there
    always is one. *)
Definition health_report (o : Health.oracle) (e : Health.inherited) (w : world)
  : option Health.report :=
  match (Health.script o e w).1 with
  | Done r => Some r
  | Exited _ => None
  end.

(** 1 for a command that exited with status 0. *)
Definition succeeded (status : Z) : Z := if status =? 0 then 1 else 0.

(** How many of the six checked commands succeeded. *)
Definition commands_succeeded (o : Health.oracle) : Z :=
  succeeded (Health.build o) + succeeded (Health.test_ci o) + succeeded (Health.typecheck o)
  + succeeded (Health.bun_version_cmd o).1 + succeeded (Health.lefthook_version_cmd o).1
  + succeeded (Health.biome_version_cmd o).1.

(** The count the script really makes: the TypeScript check is always
    counted. *)
Definition checks_counted (o : Health.oracle) : Z :=
  succeeded (Health.build o) + succeeded (Health.test_ci o) + 1
  + succeeded (Health.bun_version_cmd o).1 + succeeded (Health.lefthook_version_cmd o).1
  + succeeded (Health.biome_version_cmd o).1.

(** ** Bake environments *)



(** ** Build inputs *)

(** The steps of [Build.main] that come before the verification. *)
Definition before_verify (o : Build.oracle) : sh world unit :=
  Build.log "Starting Cipher build process...";;
  Build.validate_environment o;;
  Build.install_dependencies o;;
  Build.build_application o;;
  Build.cleanup_build o.

(** A build that works, and leaves dist/index.js but no memAgent directory. *)
Definition working_build : Build.oracle :=
  {| Build.BUILD_UI_env := ""; Build.NODE_ENV_env := ""; Build.ENABLE_CACHE_env := "";
     Build.bun_on_path := true; Build.available_space := 5000000;
     Build.bun := fun args files =>
       if String.eqb args "run compile:no-ui"
       then (0, <["dist/index.js" := RegularFile]> (<["dist" := Directory]> files))
       else (0, files) |}.

(** A build command that succeeds without producing anything. *)
Definition hollow_build : Build.oracle :=
  {| Build.BUILD_UI_env := ""; Build.NODE_ENV_env := ""; Build.ENABLE_CACHE_env := "";
     Build.bun_on_path := true; Build.available_space := 5000000;
     Build.bun := fun args files => (0, files) |}.

Definition source_tree : world :=
  {| repo := empty_repo; fs := {[ "package.json" := RegularFile ]}; trace := [] |}.

Definition memAgent_warning : event := Said (BuildLog "⚠ memAgent configuration not found").

(** ** Conflict resolution inputs and vocabulary *)

Definition allow_list : list string := Resolve.KEEP_OURS ++ Resolve.TAKE_THEIRS.

(** The file a [git checkout --ours/--theirs] or [git add] is run on. *)
Definition touched (e : event) : option string :=
  match e with
  | Ran (GitCheckoutOurs f) | Ran (GitCheckoutTheirs f) | Ran (GitAdd f) => Some f
  | _ => None
  end.

(** The file a printed line names. *)
Definition about (m : msg) : option string :=
  match m with
  | KeepingOurs f | TakingTheirs f | NoOurVersion f | NoUpstreamVersion f
  | DeletedInOurs f | DeletedInUpstream f | ManualFile f => Some f
  | _ => None
  end.

(** What one event of the resolution script may be. *)
Definition resolve_event_ok (e : event) : Prop :=
  match e with
  | Ran c => match touched e with Some f => f ∈ allow_list | None => False end
  | Said (ManualFile _) | Said NotInRebase | Said (AutoResolved _)
  | Said (ManualNeeded _) | Said AllResolved => True
  | Said m => match about m with Some f => f ∈ allow_list | None => False end
  end.

(** How a world may differ from the one the script started in. *)
Definition resolve_step (w w' : world) : Prop :=
  fs w' = fs w
  /\ Git.branches (repo w') = Git.branches (repo w)
  /\ Git.head (repo w') = Git.head (repo w)
  /\ Git.remotes (repo w') = Git.remotes (repo w)
  /\ Git.rebasing (repo w') = Git.rebasing (repo w)
  /\ (forall p, p ∉ allow_list -> Git.paths (repo w') !! p = Git.paths (repo w) !! p)
  /\ exists added, trace w' = (trace w ++ added)%list /\ Forall resolve_event_ok added.

Definition preserves {A : Type} (R : world -> world -> Prop) (m : sh world A) : Prop :=
  forall w, R w (m w).2.

Definition both_modified (b o t : string) : Git.pathstate :=
  {| Git.merged := None; Git.base := Some b; Git.ours := Some o; Git.theirs := Some t;
     Git.worktree := Some "<<<<<<< ours" |}.

Definition mid_rebase (paths : gmap string Git.pathstate) : world :=
  {| repo := {| Git.paths := paths; Git.rebasing := true;
                Git.branches := {[ "main" := "c0"; "integrate/upstream-20250926" := "c0" ]};
                Git.head := Git.Detached "u1"; Git.remotes := {[ "upstream/main" := "u9" ]} |};
     fs := ∅; trace := [] |}.

(** package.json and bun.lock both modified on both sides. *)
Definition two_conflicts : world :=
  mid_rebase {[ "package.json" := both_modified "b1" "o1" "t1";
                "bun.lock" := both_modified "b2" "o2" "t2" ]}.

(** biome.json added on both sides (status AA), nothing else in conflict. *)
Definition both_added : world :=
  mid_rebase {[ "biome.json" :=
                  {| Git.merged := None; Git.base := None; Git.ours := Some "o1";
                     Git.theirs := Some "t1"; Git.worktree := Some "<<<<<<< ours" |} ]}.

(** Only a source file in conflict. *)
Definition source_conflict : world :=
  mid_rebase {[ "src/app.ts" := both_modified "b1" "o1" "t1" ]}.

(** Every status a program can terminate the shell with satisfies [P]. *)
Definition exits_with {A : Type} (P : Z -> Prop) (m : sh world A) : Prop :=
  forall w, match (m w).1 with Done _ => True | Exited c => P c end.

(** ** Rebase workflow inputs and vocabulary *)

Definition commands (t : list event) : list cmd :=
  omap (fun e => match e with Ran c => Some c | Said _ => None end) t.

Definition readiness_cmd : cmd := Tool "./scripts/check-rebase-readiness.sh".
Definition resolve_cmd : cmd := Tool "./scripts/resolve-rebase-conflicts.sh".
Definition unit_tests_cmd : cmd := Tool "bun run test:unit".
Definition rebase_cmd : cmd := GitRebase "upstream/main".

(** A fork on [main] at commit c0. *)
Definition fork_on_main : world :=
  {| repo := {| Git.paths := ∅; Git.rebasing := false; Git.branches := {[ "main" := "c0" ]};
                Git.head := Git.OnBranch "main";
                Git.remotes := {[ "upstream/main" := "u9" ]} |};
     fs := ∅; trace := [] |}.


(** The rebase is clean and the unit tests fail. *)
Definition failing_tests : Rebase.oracle :=
  {| Rebase.readiness_status := 0; Rebase.reply := Some "y";
     Rebase.stamp := "20250926-101500"; Rebase.day := "20250926";
     Rebase.rebase_outcome := Git.RebaseDone "r1";
     Rebase.unit_tests_status := 1 |}.

Definition say (w : world) (events : list event) : world :=
  {| repo := repo w; fs := fs w; trace := trace w ++ events |}.

(** The world right after [git rebase upstream/main] has returned. *)
Definition after_rebase (o : Rebase.oracle) (w : world) : world :=
  {| repo := (Git.rebase (Rebase.rebase_outcome o) (repo w)).2; fs := fs w;
     trace := trace w ++ [Ran rebase_cmd] |}.

(** The world the conflict-resolution script is started in. *)
Definition at_resolve (o : Rebase.oracle) (w : world) : world :=
  say (after_rebase o w) [Said ConflictsDetected; Ran resolve_cmd].

(** The world once the backup branch exists at commit [c]. *)
Definition with_backup (o : Rebase.oracle) (c : Git.commit) (w : world) : world :=
  {| repo := {| Git.paths := Git.paths (repo w); Git.rebasing := Git.rebasing (repo w);
                Git.branches := <[Rebase.backup_name o := c]> (Git.branches (repo w));
                Git.head := Git.head (repo w); Git.remotes := Git.remotes (repo w) |};
     fs := fs w;
     trace := trace w ++ [Ran (GitBranch (Rebase.backup_name o));
                          Said (BackupCreated (Rebase.backup_name o))] |}.

(** The world once the integration branch is checked out at commit [c]. *)
Definition on_integration (o : Rebase.oracle) (c : Git.commit) (w : world) : world :=
  {| repo := {| Git.paths := Git.paths (repo w); Git.rebasing := Git.rebasing (repo w);
                Git.branches := <[Rebase.integration_name o := c]> (Git.branches (repo w));
                Git.head := Git.OnBranch (Rebase.integration_name o);
                Git.remotes := Git.remotes (repo w) |};
     fs := fs w;
     trace := trace w ++ [Ran (GitCheckoutB (Rebase.integration_name o));
                          Said (IntegrationCreated (Rebase.integration_name o))] |}.

(** The world in which the rebase proper starts, for a confirmed run from
    [w] with HEAD at [c]. *)
Definition ready_to_rebase (o : Rebase.oracle) (c : Git.commit) (w : world) : world :=
  on_integration o c (with_backup o c (say w [Ran readiness_cmd])).

(** ** Upstream sync inputs *)

Definition nl : string := String "010"%char EmptyString.

(** Upstream has moved and the preview shows a conflict. *)
Definition conflicting_sync : Sync.oracle :=
  {| Sync.fetch_outcome := Git.Fetched {[ "upstream/main" := "u9" ]};
     Sync.upstream_log := ["u9 feat: new storage backend"];
     Sync.merge_base := (0, "c0");
     Sync.merge_tree :=
       (0, "changed in both" +:+ nl +:+ "@@ -1,3 +1,7 @@" +:+ nl +:+ "+<<<<<<< .our" +:+ nl
           +:+ "+=======" +:+ nl +:+ "+>>>>>>> .their");
     Sync.confirm := None;
     Sync.rebase_outcome := Git.RebaseRefused |}.

(** The remote cannot be reached; nothing upstream is ahead of HEAD. *)
Definition offline_sync : Sync.oracle :=
  {| Sync.fetch_outcome := Git.FetchFailed 128;
     Sync.upstream_log := [];
     Sync.merge_base := (0, "c0");
     Sync.merge_tree := (0, "");
     Sync.confirm := None;
     Sync.rebase_outcome := Git.RebaseRefused |}.

(** The fork with its last fetched view of upstream. *)
Definition fork_behind : world :=
  {| repo := {| Git.paths := ∅; Git.rebasing := false; Git.branches := {[ "main" := "c0" ]};
                Git.head := Git.OnBranch "main";
                Git.remotes := {[ "upstream/main" := "u1" ]} |};
     fs := ∅; trace := [] |}.

(** What a run leaves untouched when it only fetches. *)
Definition same_checkout (r r' : Git.repo) : Prop :=
  Git.paths r' = Git.paths r /\ Git.branches r' = Git.branches r
  /\ Git.head r' = Git.head r /\ Git.rebasing r' = Git.rebasing r.

(** The world right after [git fetch upstream]. *)
Definition after_fetch (o : Sync.oracle) (w : world) : world :=
  {| repo := (Git.fetch (Sync.fetch_outcome o) (repo w)).2; fs := fs w;
     trace := trace w ++ [Ran (GitFetch "upstream")] |}.

(** ** Shell options *)



(** ** Inputs of the further properties *)



(** package.json deleted on our side and modified upstream (status DU), and
    a package.json of a sub-package in conflict. *)
Definition deleted_by_us : world :=
  mid_rebase {[ "package.json" :=
                  {| Git.merged := None; Git.base := Some "b1"; Git.ours := None;
                     Git.theirs := Some "t1"; Git.worktree := None |};
                "src/app/ui/package.json" := both_modified "b2" "o2" "t2" ]}.

(** Upstream has moved, the preview is clean, and the user answers Yes. *)
Definition clean_sync : Sync.oracle :=
  {| Sync.fetch_outcome := Git.Fetched {[ "upstream/main" := "u9" ]};
     Sync.upstream_log := ["u9 feat: new storage backend"];
     Sync.merge_base := (0, "c0");
     Sync.merge_tree := (0, "merged" +:+ nl +:+ "  result 100644 abc src/app.ts");
     Sync.confirm := Some "Yes";
     Sync.rebase_outcome := Git.RebaseDone "r1" |}.

(** The world right after the rebase of the sync script has returned. *)
Definition after_sync_rebase (o : Sync.oracle) (w : world) : world :=
  {| repo := (Git.rebase (Sync.rebase_outcome o) (repo (after_fetch o w))).2; fs := fs w;
     trace := trace (after_fetch o w) ++ [Said CleanIntegration; Ran rebase_cmd] |}.

(** The remote is gone: [git rev-list] fails although it would count 42. *)
Definition no_upstream : Health.oracle :=
  {| Health.fetch_outcome := Git.FetchFailed 128; Health.rev_list_behind := (128, 42);
     Health.build := 0; Health.test_ci := 0; Health.typecheck := 0;
     Health.bun_version_cmd := (0, "1.2.21"); Health.lefthook_version_cmd := (0, "1.7.0");
     Health.biome_version_cmd := (0, "Version: 2.2.0") |}.

(** ** docker/scripts/build.sh: the command lines of a run *)

(** The arguments given to [bun install], as [install_dependencies] puts
    them together. *)
Definition install_line (o : Build.oracle) : string :=
  "install --frozen-lockfile"
  +:+ (if String.eqb (Build.ENABLE_CACHE o) "true" then " --verbose" else "")
  +:+ (if String.eqb (Build.NODE_ENV o) "production" then " --production" else "").

Definition primary_script (o : Build.oracle) : string :=
  if String.eqb (Build.BUILD_UI o) "true" then "compile" else "compile:no-ui".

Definition fallback_script (o : Build.oracle) : string :=
  if String.eqb (Build.BUILD_UI o) "true" then "build" else "build:backend".

Definition dry_run_line (o : Build.oracle) : string :=
  "run --silent " +:+ primary_script o +:+ " --dry-run".

(** The package script that [build_application] ends up running on the
    files [files]. *)
Definition chosen_script (o : Build.oracle) (files : gmap string fkind) : string :=
  if (Build.bun o (dry_run_line o) files).1 =? 0 then primary_script o else fallback_script o.

Definition bun_cmd (args : string) : cmd := Tool ("bun " +:+ args).

(** The files after [bun install] and after the probe of the build script. *)
Definition installed (o : Build.oracle) (w : world) : gmap string fkind :=
  (Build.bun o (install_line o) (fs w)).2.
Definition probed (o : Build.oracle) (w : world) : gmap string fkind :=
  (Build.bun o (dry_run_line o) (installed o w)).2.

(** Under one of the three cache directories that [cleanup_build] removes. *)
Definition in_build_cache (path : string) : bool :=
  existsb (fun d => String.eqb path d || String.prefix (d +:+ "/") path)
          [".turbo"; ".next"; ".cache"].

(** [bun install] is broken and there is no compile script, the fallback
    builds. *)
Definition broken_install : Build.oracle :=
  {| Build.BUILD_UI_env := ""; Build.NODE_ENV_env := "development"; Build.ENABLE_CACHE_env := "";
     Build.bun_on_path := true; Build.available_space := 5000000;
     Build.bun := fun args files => (1, <["node_modules" := Directory]> files) |}.

Definition fallback_build : Build.oracle :=
  {| Build.BUILD_UI_env := "true"; Build.NODE_ENV_env := ""; Build.ENABLE_CACHE_env := "false";
     Build.bun_on_path := true; Build.available_space := 500;
     Build.bun := fun args files =>
       if String.eqb args "run build"
       then (0, <["dist/cipher" := RegularFile]> (<["dist" := Directory]> files))
       else if String.prefix "install" args
       then (0, <["node_modules" := Directory]> files)
       else (1, <[".turbo/cache.json" := RegularFile]> files) |}.

(** No fallback either. *)
Definition no_build_script : Build.oracle :=
  {| Build.BUILD_UI_env := ""; Build.NODE_ENV_env := ""; Build.ENABLE_CACHE_env := "";
     Build.bun_on_path := true; Build.available_space := 5000000;
     Build.bun := fun args files =>
       if String.prefix "install" args then (0, <[".cache/x" := RegularFile]> files)
       else (1, files) |}.

Definition empty_directory : world :=
  {| repo := empty_repo; fs := ∅; trace := [] |}.

(** A step of the build started in [w] ends with [res], leaves the files
    [files], the repository as it was, and has run exactly [cmds]. *)
Definition phase_result (m : sh world unit) (w : world) (res : result unit)
    (files : gmap string fkind) (cmds : list cmd) : Prop :=
  exists t, commands t = cmds
            /\ m w = (res, {| repo := repo w; fs := files; trace := (trace w ++ t)%list |}).

(** The commands of [cleanup_build] on the files [files]. *)
Definition cleanup_commands (o : Build.oracle) (files : gmap string fkind) : list cmd :=
  if String.eqb (Build.NODE_ENV o) "production" then
    (if bool_decide (files !! "node_modules" = Some Directory)
     then [bun_cmd "install --frozen-lockfile --production"] else [])
    ++ [Tool "rm -rf .turbo"; Tool "rm -rf .next"; Tool "rm -rf .cache"]
  else [].

(** The files [cleanup_build] starts its removals from: those left by the
    production reinstall when there is a node_modules directory. *)
Definition reinstalled (o : Build.oracle) (files : gmap string fkind) : gmap string fkind :=
  if bool_decide (files !! "node_modules" = Some Directory)
  then (Build.bun o "install --frozen-lockfile --production" files).2 else files.

(** The files left by [rm -rf path]. *)
Definition removed (path : string) (files : gmap string fkind) : gmap string fkind :=
  filter (fun kv : string * fkind =>
            ¬ (kv.1 = path ∨ String.prefix (path +:+ "/") kv.1 = true)) files.

(** The files left by [cleanup_build]. *)
Definition cleaned (o : Build.oracle) (files : gmap string fkind) : gmap string fkind :=
  if String.eqb (Build.NODE_ENV o) "production"
  then removed ".cache" (removed ".next" (removed ".turbo" (reinstalled o files)))
  else files.

Definition with_caches : world :=
  {| repo := empty_repo;
     fs := {[ "package.json" := RegularFile; "node_modules" := Directory;
              ".turbo" := Directory; ".turbo/cache.json" := RegularFile;
              ".next/build-manifest.json" := RegularFile; ".cachex" := RegularFile;
              "dist" := Directory; "dist/index.js" := RegularFile ]};
     trace := [] |}.

(** ** Bake file and buildx inputs *)

Definition image_target_names : list string := ["cipher-dev"; "cipher-prod"; "cipher-release"].

Definition dev_latest_env : Bake.env := {[ "APP_VERSION" := "dev-latest" ]}.

(** The commands the buildx script has run. *)
Definition docker_commands (t : list Buildx.event) : list string :=
  omap (fun e => match e with Buildx.Docker argv => Some argv | Buildx.Log _ => None end) t.

(** A docker installation with its default builder only. *)
Definition fresh_docker : Buildx.state :=
  {| Buildx.daemon := {| Buildx.builders := {[ "default" := Buildx.DockerContainer "" ]};
                         Buildx.current := Some "default" |};
     Buildx.out := [] |}.

(** The builder is there already, as a container builder. *)
Definition configured_docker : Buildx.state :=
  {| Buildx.daemon :=
       {| Buildx.builders := {[ "default" := Buildx.DockerContainer "";
                                "cipher-builder" := Buildx.DockerContainer "linux/amd64" ]};
          Buildx.current := Some "default" |};
     Buildx.out := [] |}.

Definition local_buildx : Buildx.oracle :=
  {| Buildx.DOCKER_BUILDER_env := ""; Buildx.DOCKER_CLOUD_ENDPOINT_env := "";
     Buildx.PLATFORMS_env := ""; Buildx.create_status := 0 |}.

Definition cloud_buildx : Buildx.oracle :=
  {| Buildx.DOCKER_BUILDER_env := ""; Buildx.DOCKER_CLOUD_ENDPOINT_env := "acme/builders";
     Buildx.PLATFORMS_env := ""; Buildx.create_status := 0 |}.

Definition unreachable_cloud : Buildx.oracle :=
  {| Buildx.DOCKER_BUILDER_env := "ci"; Buildx.DOCKER_CLOUD_ENDPOINT_env := "acme/builders";
     Buildx.PLATFORMS_env := ""; Buildx.create_status := 1 |}.

(** The driver [create_builder] asks for. *)
Definition wanted_driver (o : Buildx.oracle) : Buildx.driver :=
  if bool_decide (Buildx.DOCKER_CLOUD_ENDPOINT o <> "" /\ Buildx.DOCKER_CLOUD_ENDPOINT o <> "default")
  then Buildx.Cloud (Buildx.DOCKER_CLOUD_ENDPOINT o)
  else Buildx.DockerContainer (Buildx.PLATFORMS o).

(** The command line [create_builder] runs. *)
Definition create_line (o : Buildx.oracle) : string :=
  if bool_decide (Buildx.DOCKER_CLOUD_ENDPOINT o <> "" /\ Buildx.DOCKER_CLOUD_ENDPOINT o <> "default")
  then "buildx create --driver cloud --name " +:+ Buildx.DOCKER_BUILDER o
       +:+ " " +:+ Buildx.DOCKER_CLOUD_ENDPOINT o
  else "buildx create --name " +:+ Buildx.DOCKER_BUILDER o
       +:+ " --driver docker-container --platform " +:+ Buildx.PLATFORMS o +:+ " --use".

Definition inspect_line (o : Buildx.oracle) : string :=
  "buildx inspect " +:+ Buildx.DOCKER_BUILDER o.
Definition use_line (o : Buildx.oracle) : string :=
  "buildx use " +:+ Buildx.DOCKER_BUILDER o.

(** ** Import fixer vocabulary *)

(** The text an element of a pattern can match. *)
Definition seg_ok (sg : Regex.seg) (t : Js.str) : Prop :=
  match sg with
  | Regex.Lit s => t = s
  | Regex.Cls p Regex.One => exists c, t = [c] /\ p c = true
  | Regex.Cls p Regex.Star => forallb p t = true
  | Regex.Cls p Regex.Plus => t <> [] /\ forallb p t = true
  end.

Definition import_type : Js.str := Js.lit "import type".

(** A line of a file after the first fixer's loop. *)
Definition rewritten (line : Js.str) : Js.str :=
  default line (FixTypeImports.fixedLine line).

Definition no_newline (line : Js.str) : Prop := Js.newline ∉ line.

(** The entries the loop of the first fixer records for [lines], the first
    of which has index [i]. *)
Fixpoint fixes_from (filePath : string) (i : Z) (lines : list Js.str)
  : list FixTypeImports.ImportFix :=
  match lines with
  | [] => []
  | line :: lines' =>
      match FixTypeImports.fixedLine line with
      | Some fixed =>
          {| FixTypeImports.file := filePath; FixTypeImports.line := i + 1;
             FixTypeImports.original := line; FixTypeImports.fixed := fixed |}
          :: fixes_from filePath (i + 1) lines'
      | None => fixes_from filePath (i + 1) lines'
      end
  end.

Definition needs_fix (line : Js.str) : bool :=
  bool_decide (is_Some (FixTypeImports.fixedLine line)).

Definition show (s : Js.str) : string :=
  String.string_of_list_ascii (ascii_of_N <$> s).

(** A source file with one import that the first fixer rewrites. *)
Definition sample_source : Js.str :=
  (Js.lit "// agent" ++ [Js.newline]
   ++ Js.lit "import { AgentConfig } from './config'; // settings" ++ [Js.newline]
   ++ Js.lit "import { run } from './run';" ++ [Js.newline]
   ++ Js.lit "import type { Tool } from './tool';" ++ [Js.newline])%list.

Definition sample_files : gmap string Js.str :=
  {[ "src/agent.ts" := sample_source; "src/run.ts" := Js.lit "export const run = 1;" ]}.

(** The second fixer's test on a line: one of its two patterns applies. *)
Definition precise_needs_fix (line : Js.str) : bool :=
  (FixTypeImportsPrecise.matches FixTypeImportsPrecise.namedImport line
   && negb (Js.includes line import_type))
  || (FixTypeImportsPrecise.matches FixTypeImportsPrecise.defaultImport line
      && negb (Js.includes line import_type)
      && negb (Js.includes line (Js.lit "{"))).

(** Line [j] (counted from 0) is one of the reported line numbers. *)
Definition listed (lineNumbers : list Z) (j : nat) : bool :=
  bool_decide (Z.of_nat j + 1 ∈ lineNumbers).

Definition fixLineNumbers (lineNumbers : list Z) (lines : list Js.str) : list Js.str * Z :=
  fold_left (fun acc lineNum => FixTypeImportsPrecise.fixLineNumber lineNum acc)
    lineNumbers (lines, 0).

Definition precise_files : FixTypeImportsPrecise.state :=
  {| FixTypeImportsPrecise.files := sample_files; FixTypeImportsPrecise.filesModified := 0 |}.

(** ** Comparison script vocabulary *)

(** A stretch of the comparison script that cannot end the shell and only
    prints and runs read-only commands. *)
Definition appends (m : sh Compare.state unit) : Prop :=
  forall s, exists t,
    m s = (Done tt, {| Compare.repo := Compare.repo s; Compare.fs := Compare.fs s;
                       Compare.out := (Compare.out s ++ t)%list |}).

(** The same, with the last line that is printed. *)
Definition ends_with (m : sh Compare.state unit) (l : Compare.printed) : Prop :=
  forall s, exists t,
    m s = (Done tt, {| Compare.repo := Compare.repo s; Compare.fs := Compare.fs s;
                       Compare.out := (Compare.out s ++ t ++ [Compare.Echo l])%list |}).

Definition verdict (behind : Z) : Compare.printed :=
  if behind =? 0 then Compare.UpToDate
  else if behind <? 10 then Compare.SlightlyBehind behind
  else Compare.SignificantlyBehind behind.

(** Ten commits behind, everything else quiet. *)
Definition ten_behind : Compare.oracle :=
  {| Compare.fetch_outcome := Git.Fetched {[ "upstream/main" := "u9" ]};
     Compare.rev_list_ahead := (0, 0); Compare.rev_list_behind := (0, 10);
     Compare.log_ours := (0, []); Compare.log_upstream := (0, ["u9 fix"]);
     Compare.diff_added := (1, []); Compare.diff_deleted := (1, []);
     Compare.diff_modified := (0, ["package.json"]);
     Compare.diff_quiet := fun _ => 1; Compare.in_upstream := fun _ => 0;
     Compare.recent := (0, ["u9 fix"]); Compare.conflict_candidates := "";
     Compare.jq_on_path := false; Compare.new_dependencies := (0, []) |}.

Definition no_remote : Compare.oracle :=
  {| Compare.fetch_outcome := Git.FetchFailed 128;
     Compare.rev_list_ahead := (0, 0); Compare.rev_list_behind := (0, 0);
     Compare.log_ours := (0, []); Compare.log_upstream := (0, []);
     Compare.diff_added := (1, []); Compare.diff_deleted := (1, []);
     Compare.diff_modified := (1, []);
     Compare.diff_quiet := fun _ => 0; Compare.in_upstream := fun _ => 0;
     Compare.recent := (0, []); Compare.conflict_candidates := "";
     Compare.jq_on_path := false; Compare.new_dependencies := (0, []) |}.

Definition compare_start : Compare.state :=
  {| Compare.repo := empty_repo; Compare.fs := {[ "package.json" := RegularFile ]};
     Compare.out := [] |}.

(** * Properties *)

(** ** Fork health *)

Lemma health_script_completes o e w :
  exists r w', Health.script o e w = (Done r, w').
Proof.
  unfold Health.script, Health.version_of, tool, git, emit, echo, stmt, mbind, mret,
    sh_bind, sh_ret, Sh.bind, Sh.ret, Sh.modify, Sh.get, set_repo; simpl.
  destruct (Health.bun_version_cmd o) as [s1 v1], (Health.lefthook_version_cmd o) as [s2 v2],
    (Health.biome_version_cmd o) as [s3 v3]; simpl.
  destruct (s1 =? 0), (s2 =? 0), (s3 =? 0); simpl; eauto.
Qed.

Ltac sh_unfold :=
  unfold tool, git, child, read, echo, stmt, or_true in *;
  unfold emit, set_repo, set_fs in *;
  unfold mbind, mret, sh_bind, sh_ret, Sh.bind, Sh.ret, Sh.exit, Sh.modify, Sh.get in *.

(** The variables of the report, read off the script. *)
Lemma health_report_fields o e w :
  exists r,
    health_report o e w = Some r
    /\ Health.build_status r = (if Health.build o =? 0 then "pass" else "fail")
    /\ Health.test_status r = (if Health.test_ci o =? 0 then "pass" else "fail")
    /\ Health.ts_status r = (if Health.typecheck o =? 0 then "pass" else "issues")
    /\ Health.bun_version r =
         (if (Health.bun_version_cmd o).1 =? 0 then (Health.bun_version_cmd o).2
          else Health.env_bun_version e)
    /\ Health.lefthook_version r =
         (if (Health.lefthook_version_cmd o).1 =? 0 then (Health.lefthook_version_cmd o).2
          else Health.env_lefthook_version e)
    /\ Health.biome_version r =
         (if (Health.biome_version_cmd o).1 =? 0 then (Health.biome_version_cmd o).2
          else Health.env_biome_version e)
    /\ Health.health_score r =
         Health.tally (Health.nonempty (Health.biome_version r))
           (Health.tally (Health.nonempty (Health.lefthook_version r))
              (Health.tally (Health.nonempty (Health.bun_version r))
                 (Health.tally (negb (String.eqb (Health.ts_status r) "fail"))
                    (Health.tally (String.eqb (Health.test_status r) "pass")
                       (Health.tally (String.eqb (Health.build_status r) "pass") 0)))))
    /\ Health.total_checks r = 6
    /\ Health.health_percentage r = Z.quot (Health.health_score r * 100) (Health.total_checks r).
Proof.
  unfold health_report, Health.script, Health.version_of. sh_unfold. simpl.
  destruct (Health.bun_version_cmd o) as [s1 v1], (Health.lefthook_version_cmd o) as [s2 v2],
    (Health.biome_version_cmd o) as [s3 v3]; simpl.
  destruct (s1 =? 0), (s2 =? 0), (s3 =? 0); simpl;
    eexists; (split; [reflexivity | simpl; repeat split]).
Qed.

Lemma tally_true v : Health.tally true v = v + 1.
Proof. reflexivity. Qed.

Lemma tally_bounds b v : v <= Health.tally b v <= v + 1.
Proof. destruct b; simpl; lia. Qed.

Lemma tally_succeeded (b : bool) st v :
  b = (st =? 0) -> Health.tally b v = v + succeeded st.
Proof. intros ->. unfold succeeded. destruct (st =? 0); simpl; lia. Qed.

Lemma status_word_pass st (other : string) :
  other <> "pass" -> String.eqb (if st =? 0 then "pass" else other) "pass" = (st =? 0).
Proof.
  intros H. destruct (st =? 0); [reflexivity |].
  apply String.eqb_neq. exact H.
Qed.

Lemma ts_status_never_fail st :
  negb (String.eqb (if st =? 0 then "pass" else "issues") "fail") = true.
Proof. destruct (st =? 0); reflexivity. Qed.

(** C8: the TypeScript status is only ever "pass" or "issues", never "fail",
    so its check always counts: on every run the health score is at least 1
    and the reported percentage at least 16, whatever the invoked commands
    return. *)
Theorem fork_health_score_floor (o : Health.oracle) (e : Health.inherited) (w : world) :
  exists r,
    health_report o e w = Some r
    /\ (Health.ts_status r = "pass" \/ Health.ts_status r = "issues")
    /\ Health.ts_status r <> "fail"
    /\ 1 <= Health.health_score r <= 6
    /\ 16 <= Health.health_percentage r <= 100.
Proof.
  destruct (health_report_fields o e w)
    as (r & Hr & Hb & Ht & Hts & _ & _ & _ & Hscore & Htot & Hpct).
  exists r. split; [exact Hr |].
  assert (Hrange : 1 <= Health.health_score r <= 6).
  { rewrite Hscore, Hts, ts_status_never_fail, tally_true.
    pose proof (tally_bounds (Health.nonempty (Health.biome_version r))
      (Health.tally (Health.nonempty (Health.lefthook_version r))
         (Health.tally (Health.nonempty (Health.bun_version r))
            (Health.tally (String.eqb (Health.test_status r) "pass")
               (Health.tally (String.eqb (Health.build_status r) "pass") 0) + 1)))).
    pose proof (tally_bounds (Health.nonempty (Health.lefthook_version r))
      (Health.tally (Health.nonempty (Health.bun_version r))
         (Health.tally (String.eqb (Health.test_status r) "pass")
            (Health.tally (String.eqb (Health.build_status r) "pass") 0) + 1))).
    pose proof (tally_bounds (Health.nonempty (Health.bun_version r))
      (Health.tally (String.eqb (Health.test_status r) "pass")
         (Health.tally (String.eqb (Health.build_status r) "pass") 0) + 1)).
    pose proof (tally_bounds (String.eqb (Health.test_status r) "pass")
      (Health.tally (String.eqb (Health.build_status r) "pass") 0)).
    pose proof (tally_bounds (String.eqb (Health.build_status r) "pass") 0).
    lia. }
  repeat split; try lia.
  - rewrite Hts. destruct (Health.typecheck o =? 0); [left | right]; reflexivity.
  - rewrite Hts. destruct (Health.typecheck o =? 0); discriminate.
  - rewrite Hpct, Htot. apply Z.quot_le_lower_bound; lia.
  - rewrite Hpct, Htot. apply Z.quot_le_upper_bound; lia.
Qed.

(** With every command failing and nothing inherited the floor is reached. *)
Lemma fork_health_all_failing :
  exists r, health_report all_failing nothing_inherited empty_world = Some r
            /\ Health.health_score r = 1 /\ Health.health_percentage r = 16.
Proof. eexists. split; [reflexivity |]. split; reflexivity. Qed.

(** C4, as claimed, fails: with every command failing no check has passed,
    yet the script reports 16%%, not 0%%. *)
Lemma fork_health_percentage_counterexample :
  exists r, health_report all_failing nothing_inherited empty_world = Some r
            /\ commands_succeeded all_failing = 0
            /\ Health.health_percentage r <> Z.quot (commands_succeeded all_failing * 100) 6.
Proof. eexists. split; [reflexivity |]. split; [reflexivity | discriminate]. Qed.

Lemma version_counts st (v inherited : string) :
  inherited = "" -> (st = 0 -> v <> "") ->
  Health.nonempty (if st =? 0 then v else inherited) = (st =? 0).
Proof.
  intros -> Hv. unfold Health.nonempty.
  destruct (Z.eqb_spec st 0) as [H0 | H0]; [| reflexivity].
  apply negb_true_iff, String.eqb_neq; auto.
Qed.

(** C4, amended: the reported percentage is the number of counted checks
    times 100, integer-divided by 6.  The build and the test suite count
    exactly when their command succeeded, the TypeScript typecheck always
    counts, and Bun, Lefthook and Biome count exactly when the version
    command succeeded -- given that it then prints a version and that the
    three version variables are not already set in the environment. *)
Theorem fork_health_percentage (o : Health.oracle) (e : Health.inherited) (w : world)
    (Hbun : Health.env_bun_version e = "")
    (Hlefthook : Health.env_lefthook_version e = "")
    (Hbiome : Health.env_biome_version e = "")
    (Hbun_out : (Health.bun_version_cmd o).1 = 0 -> (Health.bun_version_cmd o).2 <> "")
    (Hlefthook_out :
       (Health.lefthook_version_cmd o).1 = 0 -> (Health.lefthook_version_cmd o).2 <> "")
    (Hbiome_out : (Health.biome_version_cmd o).1 = 0 -> (Health.biome_version_cmd o).2 <> "") :
  exists r,
    health_report o e w = Some r
    /\ Health.health_score r = checks_counted o
    /\ Health.health_percentage r = Z.quot (checks_counted o * 100) 6.
Proof.
  destruct (health_report_fields o e w)
    as (r & Hr & Hb & Ht & Hts & Hbv & Hlv & Hbiv & Hscore & Htot & Hpct).
  exists r. split; [exact Hr |].
  assert (Hs : Health.health_score r = checks_counted o).
  { rewrite Hscore, Hts, ts_status_never_fail, tally_true.
    rewrite (tally_succeeded _ (Health.biome_version_cmd o).1)
      by (rewrite Hbiv; apply version_counts; assumption).
    rewrite (tally_succeeded _ (Health.lefthook_version_cmd o).1)
      by (rewrite Hlv; apply version_counts; assumption).
    rewrite (tally_succeeded _ (Health.bun_version_cmd o).1)
      by (rewrite Hbv; apply version_counts; assumption).
    rewrite (tally_succeeded _ (Health.test_ci o))
      by (rewrite Ht; apply status_word_pass; discriminate).
    rewrite (tally_succeeded _ (Health.build o))
      by (rewrite Hb; apply status_word_pass; discriminate).
    unfold checks_counted. lia. }
  split; [exact Hs |].
  rewrite Hpct, Htot, Hs. reflexivity.
Qed.

Lemma fork_health_percentage_witness :
  exists r,
    health_report all_passing nothing_inherited empty_world = Some r
    /\ Health.health_score r = checks_counted all_passing
    /\ Health.health_percentage r = Z.quot (checks_counted all_passing * 100) 6.
Proof.
  apply (fork_health_percentage all_passing nothing_inherited empty_world);
    try reflexivity; intros _; discriminate.
Defined.

(** ** Bake outputs *)


Lemma bake_output_type_default : Bake.var ∅ "OUTPUT_TYPE" = "docker".
Proof. reflexivity. Qed.




(** ** Build verification *)

Lemma verify_build_status (w : world) :
  (Build.verify_build w).1 =
    (if Build.is_file w "dist/cipher" || Build.is_file w "dist/index.js"
     then Done tt else Exited 1)
  /\ fs (Build.verify_build w).2 = fs w
  /\ (Build.is_dir w "memAgent" = false -> In memAgent_warning (trace (Build.verify_build w).2)).
Proof.
  unfold Build.verify_build, Build.error_exit, Build.log, memAgent_warning. sh_unfold. simpl.
  destruct (Build.is_file _ "dist/cipher"), (Build.is_file _ "dist/index.js"),
    (Build.is_dir _ "memAgent"); simpl; (split; [reflexivity | split; [reflexivity |]]);
    intros H; try discriminate H; rewrite !in_app_iff; simpl; tauto.
Qed.

Lemma main_after_build o w w1 :
  before_verify o w = (Done tt, w1) ->
  (Build.main o w).1 = (Build.verify_build w1).1.
Proof.
  unfold before_verify, Build.main. sh_unfold.
  destruct (Build.log _ w) as [[[]|c0] w0]; [| discriminate].
  destruct (Build.validate_environment o w0) as [[[]|c2] w2]; [| discriminate].
  destruct (Build.install_dependencies o w2) as [[[]|c3] w3]; [| discriminate].
  destruct (Build.build_application o w3) as [[[]|c4] w4]; [| discriminate].
  destruct (Build.cleanup_build o w4) as [[[]|c5] w5]; [| discriminate].
  intros [= ->].
  destruct (Build.verify_build w1) as [[[]|c6] w6]; simpl; [| reflexivity].
  unfold Build.log. sh_unfold. reflexivity.
Qed.

(** C10: once the build steps have succeeded, the script exits with a
    nonzero status (1, from the verification step) if and only if neither
    dist/cipher nor dist/index.js is a file; a missing memAgent directory is
    only logged as a warning and has no part in the status. *)
Theorem build_verification_exit (o : Build.oracle) (w w1 : world)
    (Hbuilt : before_verify o w = (Done tt, w1)) :
  ((Sh.run (Build.main o) w).1 <> 0
     <-> Build.is_file w1 "dist/cipher" = false /\ Build.is_file w1 "dist/index.js" = false)
  /\ (status_of (Build.verify_build w1).1 <> 0
     <-> Build.is_file w1 "dist/cipher" = false /\ Build.is_file w1 "dist/index.js" = false)
  /\ (Build.is_dir w1 "memAgent" = false ->
      In memAgent_warning (trace (Build.verify_build w1).2)
      /\ (Build.is_file w1 "dist/cipher" = true \/ Build.is_file w1 "dist/index.js" = true ->
          (Sh.run (Build.main o) w).1 = 0)).
Proof.
  pose proof (main_after_build o w w1 Hbuilt) as Hmain.
  destruct (verify_build_status w1) as (Hv & _ & Hwarn).
  assert (Hrun : (Sh.run (Build.main o) w).1 = status_of (Build.verify_build w1).1).
  { unfold Sh.run. destruct (Build.main o w) as [r w']. simpl in *. now rewrite Hmain. }
  rewrite Hrun, Hv.
  destruct (Build.is_file w1 "dist/cipher"), (Build.is_file w1 "dist/index.js"); simpl;
    (split; [| split]); try (split; [intros H; try (now exfalso; apply H); auto
                                   | intros [H1 H2]; try discriminate; lia]);
    intros Hd; (split; [apply Hwarn, Hd |]); intros [H | H]; try discriminate; reflexivity.
Qed.

Lemma build_verification_exit_witness :
  (Sh.run (Build.main working_build) source_tree).1 = 0
  /\ Build.is_dir (before_verify working_build source_tree).2 "memAgent" = false.
Proof.
  assert (Hbuilt : before_verify working_build source_tree
                   = (Done tt, (before_verify working_build source_tree).2))
    by (vm_compute; reflexivity).
  split; [| vm_compute; reflexivity].
  destruct (build_verification_exit working_build source_tree _ Hbuilt) as (_ & _ & H).
  apply H; [vm_compute; reflexivity |]. right. vm_compute. reflexivity.
Defined.

(** The other side: a build that produces no dist file fails verification. *)
Lemma build_verification_fails :
  (Sh.run (Build.main hollow_build) source_tree).1 = 1.
Proof. vm_compute. reflexivity. Qed.

(** ** Conflict resolution *)

(** C1 (the code falls short of it): with package.json and bun.lock both in
    conflict and both present in the ours stage, the script keeps our
    package.json, then [((resolved_count++))] evaluates to 0, its status is 1,
    and under [set -e] the script terminates with status 1.  bun.lock, next
    in KEEP_OURS, is never checked out and stays unmerged. *)
Theorem resolve_stops_after_first_file :
  (Sh.run Resolve.script two_conflicts).1 = 1
  /\ trace (Sh.run Resolve.script two_conflicts).2
     = [Said (KeepingOurs "package.json"); Ran (GitCheckoutOurs "package.json");
        Ran (GitAdd "package.json")]
  /\ In "bun.lock" Resolve.KEEP_OURS
  /\ Resolve.status_grep "bun.lock" (repo (Sh.run Resolve.script two_conflicts).2) = true
  /\ Git.show_stage Git.ours "bun.lock" (repo (Sh.run Resolve.script two_conflicts).2) = 0
  /\ Git.paths (repo (Sh.run Resolve.script two_conflicts).2) !! "bun.lock"
     = Some (both_modified "b2" "o2" "t2")
  /\ Git.paths (repo (Sh.run Resolve.script two_conflicts).2) !! "package.json"
     = Some {| Git.merged := Some "o1"; Git.base := None; Git.ours := None;
               Git.theirs := None; Git.worktree := Some "o1" |}.
Proof.
  split; [vm_compute; reflexivity |].
  split; [vm_compute; reflexivity |].
  split; [simpl; tauto |].
  split; [vm_compute; reflexivity |].
  split; [vm_compute; reflexivity |].
  split; vm_compute; reflexivity.
Qed.

(** A list file in conflict because both sides added it is passed over: its
    status line starts with AA, which the grep pattern does not cover. *)
Lemma resolve_skips_both_added :
  (Sh.run Resolve.script both_added).1 = 0
  /\ trace (Sh.run Resolve.script both_added).2
     = [Said (AutoResolved 0); Said (ManualNeeded 1); Said (ManualFile "biome.json")]
  /\ In "biome.json" Resolve.KEEP_OURS
  /\ Git.show_stage Git.ours "biome.json" (repo both_added) = 0.
Proof.
  split; [vm_compute; reflexivity |].
  split; [vm_compute; reflexivity |].
  split; [simpl; tauto | vm_compute; reflexivity].
Qed.

(** The slip in general: the first file the loop resolves ends the script. *)
Lemma resolve_first_resolution_exits (w : world) (file : string) :
  Resolve.status_grep file (repo w) = true ->
  Git.show_stage Git.ours file (repo w) = 0 ->
  (Resolve.keep_ours_body file 0 w).1 = Exited 1.
Proof.
  intros Hgrep Hshow.
  unfold Resolve.keep_ours_body, Resolve.git_checkout_ours, Resolve.git_add,
    Resolve.incr_resolved. sh_unfold. simpl.
  rewrite Hgrep. simpl. rewrite Hshow. simpl.
  destruct (Git.checkout_stage Git.ours file (repo w)) as [st r] eqn:E; simpl.
  destruct (st =? 0); reflexivity.
Qed.

Lemma resolve_step_refl w : resolve_step w w.
Proof.
  unfold resolve_step. repeat (split; [reflexivity |]).
  exists []. split; [rewrite app_nil_r; reflexivity | constructor].
Qed.

Lemma resolve_step_trans w1 w2 w3 :
  resolve_step w1 w2 -> resolve_step w2 w3 -> resolve_step w1 w3.
Proof.
  intros (F1 & B1 & H1 & R1 & G1 & P1 & a1 & T1 & A1) (F2 & B2 & H2 & R2 & G2 & P2 & a2 & T2 & A2).
  unfold resolve_step.
  split; [congruence |]. split; [congruence |]. split; [congruence |].
  split; [congruence |]. split; [congruence |].
  split; [intros p Hp; rewrite P2, P1 by exact Hp; reflexivity |].
  exists (a1 ++ a2)%list. split.
  - rewrite T2, T1, app_assoc. reflexivity.
  - apply Forall_app. split; assumption.
Qed.

Section Preserves.

Context {A B : Type}.

Lemma preserves_ret (a : A) : preserves resolve_step (mret a : sh world A).
Proof. intros w. apply resolve_step_refl. Qed.

Lemma preserves_exit c : preserves resolve_step (Sh.exit c : sh world A).
Proof. intros w. apply resolve_step_refl. Qed.

Lemma preserves_bind (m : sh world A) (k : A -> sh world B) :
  preserves resolve_step m -> (forall a, preserves resolve_step (k a)) ->
  preserves resolve_step (m ≫= k).
Proof.
  intros Hm Hk w. unfold mbind, sh_bind, Sh.bind.
  specialize (Hm w). destruct (m w) as [[a | c] w1]; simpl in *.
  - eapply resolve_step_trans; [exact Hm | apply Hk].
  - exact Hm.
Qed.

Lemma preserves_get (k : world -> sh world B) :
  (forall w0, preserves resolve_step (k w0)) -> preserves resolve_step (Sh.get ≫= k).
Proof. intros Hk w. unfold mbind, sh_bind, Sh.bind, Sh.get. apply Hk. Qed.

End Preserves.

Lemma preserves_emit e : resolve_event_ok e -> preserves resolve_step (emit e).
Proof.
  intros He w. unfold emit, Sh.modify, resolve_step. simpl.
  repeat (split; [reflexivity |]).
  exists [e]. split; [reflexivity | repeat constructor; exact He].
Qed.

Lemma checkout_stage_frame pick file r :
  file ∈ allow_list ->
  Git.branches (Git.checkout_stage pick file r).2 = Git.branches r
  /\ Git.head (Git.checkout_stage pick file r).2 = Git.head r
  /\ Git.remotes (Git.checkout_stage pick file r).2 = Git.remotes r
  /\ Git.rebasing (Git.checkout_stage pick file r).2 = Git.rebasing r
  /\ forall p, p ∉ allow_list ->
       Git.paths (Git.checkout_stage pick file r).2 !! p = Git.paths r !! p.
Proof.
  intros Hin. unfold Git.checkout_stage.
  destruct (Git.paths r !! file) as [e |]; [destruct (pick e) |]; simpl;
    repeat (split; [reflexivity |]); intros p Hp; try reflexivity.
  apply lookup_insert_ne. intros ->. contradiction.
Qed.

Lemma add_frame file r :
  file ∈ allow_list ->
  Git.branches (Git.add file r).2 = Git.branches r
  /\ Git.head (Git.add file r).2 = Git.head r
  /\ Git.remotes (Git.add file r).2 = Git.remotes r
  /\ Git.rebasing (Git.add file r).2 = Git.rebasing r
  /\ forall p, p ∉ allow_list -> Git.paths (Git.add file r).2 !! p = Git.paths r !! p.
Proof.
  intros Hin. unfold Git.add.
  destruct (Git.paths r !! file) as [e |]; simpl;
    repeat (split; [reflexivity |]); intros p Hp; try reflexivity.
  apply lookup_insert_ne. intros ->. contradiction.
Qed.

Lemma git_run c f w :
  git c f w
  = (Done (f (repo w)).1,
     {| repo := (f (repo w)).2; fs := fs w; trace := trace w ++ [Ran c] |}).
Proof. reflexivity. Qed.

Lemma preserves_git c f :
  resolve_event_ok (Ran c) ->
  (forall r, Git.branches (f r).2 = Git.branches r /\ Git.head (f r).2 = Git.head r
             /\ Git.remotes (f r).2 = Git.remotes r /\ Git.rebasing (f r).2 = Git.rebasing r
             /\ forall p, p ∉ allow_list -> Git.paths (f r).2 !! p = Git.paths r !! p) ->
  preserves resolve_step (git c f).
Proof.
  intros Hc Hf w. rewrite git_run. simpl.
  destruct (Hf (repo w)) as (Hb & Hh & Hr & Hg & Hp).
  unfold resolve_step. simpl.
  split; [reflexivity |]. repeat (split; [assumption |]).
  exists [Ran c]. split; [reflexivity | repeat constructor; exact Hc].
Qed.

Lemma preserves_stmt o (c : sh world Z) :
  preserves resolve_step c -> preserves resolve_step (stmt o c).
Proof.
  intros Hc. unfold stmt. apply (preserves_bind c); [exact Hc |].
  intros st. destruct (errexit o && negb (st =? 0)); [apply preserves_exit | apply preserves_ret].
Qed.

Lemma preserves_or_true (c : sh world Z) :
  preserves resolve_step c -> preserves resolve_step (or_true c).
Proof.
  intros Hc. unfold or_true. apply (preserves_bind c); [exact Hc |].
  intros st. apply preserves_ret.
Qed.

Lemma preserves_incr_resolved n : preserves resolve_step (Resolve.incr_resolved n).
Proof.
  unfold Resolve.incr_resolved. destruct (post_incr n) as [n' st].
  apply preserves_bind; [| intros _; apply preserves_ret].
  apply preserves_stmt, preserves_ret.
Qed.

Lemma preserves_keep_ours_body file n :
  file ∈ allow_list -> preserves resolve_step (Resolve.keep_ours_body file n).
Proof.
  intros Hin. unfold Resolve.keep_ours_body.
  apply preserves_get. intros w0.
  destruct (Resolve.status_grep file (repo w0)); [| apply preserves_ret].
  apply preserves_bind; [apply preserves_emit; exact Hin | intros _].
  destruct (Git.show_stage Git.ours file (repo w0) =? 0).
  - apply preserves_bind.
    { apply preserves_git; [exact Hin | intros r; apply checkout_stage_frame, Hin]. }
    intros st. apply preserves_bind.
    { destruct (st =? 0); [apply preserves_ret | apply preserves_emit; exact Hin]. }
    intros _. apply preserves_bind.
    { apply preserves_or_true, preserves_git; [exact Hin | intros r; apply add_frame, Hin]. }
    intros _. apply preserves_incr_resolved.
  - apply preserves_bind; [apply preserves_emit; exact Hin | intros _; apply preserves_ret].
Qed.

Lemma preserves_take_theirs_body file n :
  file ∈ allow_list -> preserves resolve_step (Resolve.take_theirs_body file n).
Proof.
  intros Hin. unfold Resolve.take_theirs_body.
  apply preserves_get. intros w0.
  destruct (Resolve.status_grep file (repo w0)); [| apply preserves_ret].
  apply preserves_bind; [apply preserves_emit; exact Hin | intros _].
  destruct (Git.show_stage Git.theirs file (repo w0) =? 0).
  - apply preserves_bind.
    { apply preserves_git; [exact Hin | intros r; apply checkout_stage_frame, Hin]. }
    intros st. apply preserves_bind.
    { destruct (st =? 0); [apply preserves_ret | apply preserves_emit; exact Hin]. }
    intros _. apply preserves_bind.
    { apply preserves_or_true, preserves_git; [exact Hin | intros r; apply add_frame, Hin]. }
    intros _. apply preserves_incr_resolved.
  - apply preserves_bind; [apply preserves_emit; exact Hin | intros _; apply preserves_ret].
Qed.

Lemma preserves_for_acc {V : Type} (l : list string) (body : string -> V -> sh world V) :
  (forall x v, x ∈ l -> preserves resolve_step (body x v)) ->
  forall v, preserves resolve_step (for_acc l body v).
Proof.
  induction l as [| x l IH]; intros Hbody v; simpl.
  - apply preserves_ret.
  - apply (preserves_bind (body x v)).
    + apply Hbody. left.
    + intros v'. apply IH. intros y v0 Hy. apply Hbody. right. exact Hy.
Qed.

Lemma preserves_for_each (l : list string) (body : string -> sh world unit) :
  (forall x, preserves resolve_step (body x)) ->
  preserves resolve_step (for_each l body).
Proof.
  intros Hbody. induction l as [| x l IH]; simpl.
  - apply preserves_ret.
  - apply (preserves_bind (body x)); [apply Hbody | intros _; exact IH].
Qed.

Lemma preserves_auto_resolve : preserves resolve_step Resolve.auto_resolve.
Proof.
  unfold Resolve.auto_resolve. apply preserves_bind.
  - apply preserves_for_acc. intros x v Hx.
    apply preserves_keep_ours_body. unfold allow_list. apply elem_of_app. left. exact Hx.
  - intros n. apply preserves_for_acc. intros x v Hx.
    apply preserves_take_theirs_body. unfold allow_list. apply elem_of_app. right. exact Hx.
Qed.

Lemma preserves_summary n : preserves resolve_step (Resolve.summary n).
Proof.
  unfold Resolve.summary.
  apply preserves_bind; [apply preserves_emit; exact I | intros _].
  apply preserves_get. intros w0.
  destruct (0 <? _); [| apply preserves_emit; exact I].
  apply preserves_bind; [apply preserves_emit; exact I | intros _].
  apply preserves_for_each. intros x. apply preserves_emit. exact I.
Qed.

Lemma preserves_check_rebase : preserves resolve_step Resolve.check_rebase.
Proof.
  unfold Resolve.check_rebase. apply preserves_get. intros w0.
  destruct (negb _); [| apply preserves_ret].
  apply preserves_bind; [apply preserves_emit; exact I | intros _; apply preserves_exit].
Qed.

Lemma preserves_resolve_script : preserves resolve_step Resolve.script.
Proof.
  unfold Resolve.script. apply preserves_bind; [apply preserves_check_rebase |].
  intros _. apply preserves_bind; [apply preserves_auto_resolve | apply preserves_summary].
Qed.

Lemma run_fst {S : Type} (m : sh S unit) (s : S) : (Sh.run m s).1 = status_of (m s).1.
Proof. unfold Sh.run. destruct (m s). reflexivity. Qed.

Lemma run_snd {S : Type} (m : sh S unit) (s : S) : (Sh.run m s).2 = (m s).2.
Proof. unfold Sh.run. destruct (m s). reflexivity. Qed.

Lemma for_each_echo (f : string -> msg) (l : list string) (w : world) :
  for_each l (fun x => echo (f x)) w
  = (Done tt, {| repo := repo w; fs := fs w;
                 trace := trace w ++ ((fun x => Said (f x)) <$> l) |}).
Proof.
  revert w. induction l as [| x l IH]; intros w; simpl.
  - rewrite app_nil_r. destruct w; reflexivity.
  - unfold Sh.bind, echo, emit, Sh.modify. simpl. rewrite IH. simpl.
    rewrite <- app_assoc. reflexivity.
Qed.

Lemma elem_of_diff_unmerged (r : Git.repo) (p : string) :
  p ∈ Git.diff_unmerged r <-> exists e, Git.paths r !! p = Some e /\ Git.unmerged e = true.
Proof.
  unfold Git.diff_unmerged. rewrite list_elem_of_fmap. split.
  - intros ([p' e] & -> & Hin). apply list_elem_of_filter in Hin as [Hu Hin].
    apply elem_of_map_to_list in Hin. exists e. split; assumption.
  - intros (e & Hl & Hu). exists (p, e). split; [reflexivity |].
    apply list_elem_of_filter. split; [exact Hu | apply elem_of_map_to_list, Hl].
Qed.

(** The summary always completes, changes nothing, and lists every
    unmerged path. *)
Lemma summary_run (n : Z) (w : world) :
  exists tail,
    Resolve.summary n w
    = (Done tt, {| repo := repo w; fs := fs w;
                   trace := trace w ++ Said (AutoResolved n) :: tail |})
    /\ forall p, p ∈ Git.diff_unmerged (repo w) -> In (Said (ManualFile p)) tail.
Proof.
  unfold Resolve.summary. sh_unfold. simpl.
  destruct (Git.diff_unmerged (repo w)) as [| q l] eqn:E.
  - exists [Said AllResolved]. simpl. split.
    + rewrite <- app_assoc. reflexivity.
    + intros p Hp. apply elem_of_nil in Hp. contradiction.
  - assert (H0 : (0 <? Z.of_nat (length (q :: l))) = true)
      by (apply Z.ltb_lt; simpl; lia).
    rewrite H0.
    exists (Said (ManualNeeded (Z.of_nat (length (q :: l))))
              :: ((fun x => Said (ManualFile x)) <$> (q :: l))).
    split.
    + pose proof (for_each_echo ManualFile (q :: l)) as He. unfold echo, emit, Sh.modify in He.
      rewrite He. simpl. rewrite <- !app_assoc. reflexivity.
    + intros p Hp. right. apply list_elem_of_In.
      apply list_elem_of_fmap. exists p. split; [reflexivity | exact Hp].
Qed.

Section ExitsWith.

Context {A B : Type} (P : Z -> Prop).

Lemma exits_ret (a : A) : exits_with P (mret a : sh world A).
Proof. intros w. exact I. Qed.

Lemma exits_exit c : P c -> exits_with P (Sh.exit c : sh world A).
Proof. intros Hc w. exact Hc. Qed.

Lemma exits_bind (m : sh world A) (k : A -> sh world B) :
  exits_with P m -> (forall a, exits_with P (k a)) -> exits_with P (m ≫= k).
Proof.
  intros Hm Hk w. unfold mbind, sh_bind, Sh.bind.
  specialize (Hm w). destruct (m w) as [[a | c] w1]; simpl in *.
  - apply Hk.
  - exact Hm.
Qed.

Lemma exits_get (k : world -> sh world B) :
  (forall w0, exits_with P (k w0)) -> exits_with P (Sh.get ≫= k).
Proof. intros Hk w. unfold mbind, sh_bind, Sh.bind, Sh.get. apply Hk. Qed.

End ExitsWith.

Lemma exits_emit P e : exits_with P (emit e).
Proof. intros w. exact I. Qed.

Lemma exits_git P c f : exits_with P (git c f).
Proof. intros w. rewrite git_run. exact I. Qed.

Lemma exits_or_true P (c : sh world Z) : exits_with P c -> exits_with P (or_true c).
Proof.
  intros Hc. unfold or_true. apply (exits_bind P c); [exact Hc |].
  intros st. apply exits_ret.
Qed.

Lemma exits_incr_resolved n : exits_with (fun c => c = 1) (Resolve.incr_resolved n).
Proof.
  unfold Resolve.incr_resolved, post_incr, stmt. sh_unfold. intros w. simpl.
  destruct (n =? 0); simpl; [reflexivity | exact I].
Qed.

Lemma exits_keep_ours_body file n :
  exits_with (fun c => c = 1) (Resolve.keep_ours_body file n).
Proof.
  unfold Resolve.keep_ours_body, Resolve.git_checkout_ours, Resolve.git_add.
  apply exits_get. intros w0.
  destruct (Resolve.status_grep file (repo w0)); [| apply exits_ret].
  apply exits_bind; [apply exits_emit | intros _].
  destruct (_ =? 0).
  - apply exits_bind; [apply exits_git | intros st].
    apply exits_bind; [destruct (st =? 0); [apply exits_ret | apply exits_emit] | intros _].
    apply exits_bind; [apply exits_or_true, exits_git | intros _].
    apply exits_incr_resolved.
  - apply exits_bind; [apply exits_emit | intros _; apply exits_ret].
Qed.

Lemma exits_take_theirs_body file n :
  exits_with (fun c => c = 1) (Resolve.take_theirs_body file n).
Proof.
  unfold Resolve.take_theirs_body, Resolve.git_checkout_theirs, Resolve.git_add.
  apply exits_get. intros w0.
  destruct (Resolve.status_grep file (repo w0)); [| apply exits_ret].
  apply exits_bind; [apply exits_emit | intros _].
  destruct (_ =? 0).
  - apply exits_bind; [apply exits_git | intros st].
    apply exits_bind; [destruct (st =? 0); [apply exits_ret | apply exits_emit] | intros _].
    apply exits_bind; [apply exits_or_true, exits_git | intros _].
    apply exits_incr_resolved.
  - apply exits_bind; [apply exits_emit | intros _; apply exits_ret].
Qed.

Lemma exits_for_acc {V : Type} P (l : list string) (body : string -> V -> sh world V) :
  (forall x v, exits_with P (body x v)) -> forall v, exits_with P (for_acc l body v).
Proof.
  intros Hbody. induction l as [| x l IH]; intros v; simpl.
  - apply exits_ret.
  - apply (exits_bind P (body x v)); [apply Hbody | exact IH].
Qed.

Lemma exits_auto_resolve : exits_with (fun c => c = 1) Resolve.auto_resolve.
Proof.
  unfold Resolve.auto_resolve. apply exits_bind.
  - apply exits_for_acc. intros x v. apply exits_keep_ours_body.
  - intros n. apply exits_for_acc. intros x v. apply exits_take_theirs_body.
Qed.

Lemma exits_check_rebase : exits_with (fun c => c = 1) Resolve.check_rebase.
Proof.
  unfold Resolve.check_rebase. apply exits_get. intros w0.
  destruct (negb _); [| apply exits_ret].
  apply exits_bind; [apply exits_emit | intros _; apply exits_exit; reflexivity].
Qed.

(** A run of the resolution script ends with status 0 or 1, and a run that
    ends with status 0 went through the summary. *)
Lemma resolve_script_cases (w : world) :
  ((Sh.run Resolve.script w).1 = 1 /\ resolve_step w (Sh.run Resolve.script w).2)
  \/ ((Sh.run Resolve.script w).1 = 0
      /\ exists n w1 tail,
           resolve_step w w1
           /\ (Sh.run Resolve.script w).2
              = {| repo := repo w1; fs := fs w1;
                   trace := trace w1 ++ Said (AutoResolved n) :: tail |}
           /\ forall p, p ∈ Git.diff_unmerged (repo w1) -> In (Said (ManualFile p)) tail).
Proof.
  pose proof (preserves_resolve_script w) as Hfull.
  rewrite run_fst, run_snd. revert Hfull.
  unfold Resolve.script, mbind, sh_bind, Sh.bind.
  pose proof (exits_check_rebase w) as Hc. pose proof (preserves_check_rebase w) as Pc.
  destruct (Resolve.check_rebase w) as [[[] | c] w0]; simpl in *.
  2:{ subst c. intros Hfull. left. split; [reflexivity | exact Hfull]. }
  pose proof (exits_auto_resolve w0) as Ha. pose proof (preserves_auto_resolve w0) as Pa.
  destruct (Resolve.auto_resolve w0) as [[n | c] w1]; simpl in *.
  2:{ subst c. intros Hfull. left. split; [reflexivity | exact Hfull]. }
  destruct (summary_run n w1) as (tail & Hs & Hlist).
  rewrite Hs. simpl. intros _. right. split; [reflexivity |].
  exists n, w1, tail. split; [eapply resolve_step_trans; eassumption |].
  split; [reflexivity | exact Hlist].
Qed.

Lemma resolve_event_not_touching (e : event) (p : string) :
  resolve_event_ok e -> p ∉ allow_list -> touched e <> Some p.
Proof.
  intros He Hp Ht. destruct e as [c | m]; [| discriminate Ht].
  unfold resolve_event_ok in He. rewrite Ht in He. contradiction.
Qed.

Lemma resolve_event_only_lists (m : msg) (p : string) :
  resolve_event_ok (Said m) -> p ∉ allow_list -> about m = Some p -> m = ManualFile p.
Proof.
  intros He Hp Ha.
  destruct m; simpl in *; try discriminate Ha; injection Ha as ->;
    try contradiction; reflexivity.
Qed.

(** C9: a file outside KEEP_OURS and TAKE_THEIRS is never the argument of
    a [git checkout] or [git add] of the script; its index entry and
    working-tree file are what they were before the run; the only line the
    script prints about it is its entry in the list of files needing manual
    resolution; and a run that reaches that list (status 0) does print it
    there when the file is in conflict. *)
Theorem resolve_leaves_other_files (w : world) (p : string) (Hp : p ∉ allow_list) :
  Git.paths (repo (Sh.run Resolve.script w).2) !! p = Git.paths (repo w) !! p
  /\ exists added,
       trace (Sh.run Resolve.script w).2 = (trace w ++ added)%list
       /\ (forall e, In e added -> touched e <> Some p)
       /\ (forall m, In (Said m) added -> about m = Some p -> m = ManualFile p)
       /\ ((Sh.run Resolve.script w).1 = 0 ->
           (exists e, Git.paths (repo w) !! p = Some e /\ Git.unmerged e = true) ->
           In (Said (ManualFile p)) added).
Proof.
  pose proof (preserves_resolve_script w) as Hstep. rewrite <- run_snd in Hstep.
  destruct Hstep as (_ & _ & _ & _ & _ & Hpaths & added & Htrace & Hok).
  split; [apply Hpaths, Hp |].
  exists added. split; [exact Htrace |].
  rewrite Forall_forall in Hok.
  split; [intros e He; apply resolve_event_not_touching; [apply Hok, list_elem_of_In, He | exact Hp] |].
  split; [intros m Hm; apply resolve_event_only_lists; [apply Hok, list_elem_of_In, Hm | exact Hp] |].
  intros Hst (e & He & Hu).
  destruct (resolve_script_cases w) as [[H1 _] | (_ & n & w1 & tail & Hw1 & Hend & Hlist)].
  { rewrite Hst in H1. discriminate H1. }
  destruct Hw1 as (_ & _ & _ & _ & _ & Hp1 & a1 & Ht1 & _).
  assert (Hin : In (Said (ManualFile p)) tail).
  { apply Hlist, elem_of_diff_unmerged. exists e. rewrite Hp1 by exact Hp. auto. }
  rewrite Hend in Htrace. simpl in Htrace. rewrite Ht1, <- app_assoc in Htrace.
  apply app_inv_head in Htrace. subst added.
  apply in_or_app. right. right. exact Hin.
Qed.

Lemma resolve_leaves_other_files_witness :
  ("src/app.ts" ∉ allow_list)
  /\ Git.paths (repo (Sh.run Resolve.script source_conflict).2) !! "src/app.ts"
     = Git.paths (repo source_conflict) !! "src/app.ts"
  /\ trace (Sh.run Resolve.script source_conflict).2
     = [Said (AutoResolved 0); Said (ManualNeeded 1); Said (ManualFile "src/app.ts")].
Proof.
  assert (Hp : "src/app.ts" ∉ allow_list).
  { apply (proj1 (bool_decide_eq_false _)). reflexivity. }
  split; [exact Hp |].
  split; [exact (proj1 (resolve_leaves_other_files source_conflict "src/app.ts" Hp)) |].
  reflexivity.
Defined.

(** ** Rebase workflow *)

Lemma confirm_run (o : Rebase.oracle) (w : world) (r : string) :
  Rebase.readiness_status o = 0 -> Rebase.reply o = Some r -> Rebase.is_yes r = true ->
  Rebase.confirm o w = (Done tt, say w [Ran readiness_cmd]).
Proof.
  intros Hready Hreply Hyes. unfold Rebase.confirm. sh_unfold.
  rewrite Hready, Hreply. simpl. rewrite Hyes. reflexivity.
Qed.

Lemma start_rebase_run (o : Rebase.oracle) (current_branch : string) (w : world) :
  Sh.run (Rebase.start_rebase o current_branch) w
  = if (Git.rebase (Rebase.rebase_outcome o) (repo w)).1 =? 0 then
      (0, say (after_rebase o w)
            ([Said RebaseClean; Ran unit_tests_cmd]
             ++ (if Rebase.unit_tests_status o =? 0
                 then [Said TestsPassed; Said (RebaseSuccessful (Rebase.backup_name o))]
                 else [Said TestsFailed])))
    else
      let res := Sh.run Resolve.script (at_resolve o w) in
      (res.1, if res.1 =? 0
              then say res.2 [Said (ManualIntervention (Rebase.backup_name o))]
              else res.2).
Proof.
  unfold Sh.run, Rebase.start_rebase, Rebase.resolve_rebase_conflicts, at_resolve,
    after_rebase, say, unit_tests_cmd, rebase_cmd, resolve_cmd.
  sh_unfold. simpl.
  destruct (_ =? 0) eqn:Hst; simpl.
  - destruct (Rebase.unit_tests_status o =? 0); simpl; rewrite <- !app_assoc; reflexivity.
  - rewrite <- !app_assoc. simpl.
    unfold Sh.run.
    destruct (Resolve.script _) as [[[] | c] w4] eqn:Hres; simpl.
    + reflexivity.
    + destruct (Z.eqb_spec c 0) as [-> | Hc]; simpl; reflexivity.
Qed.

Lemma backup_is_not_integration (o : Rebase.oracle) :
  Rebase.backup_name o <> Rebase.integration_name o.
Proof. unfold Rebase.backup_name, Rebase.integration_name. simpl. discriminate. Qed.

Lemma stmt_git_run (o : shopts) (c : cmd) (f : Git.repo -> Z * Git.repo) (w : world) :
  stmt o (git c f) w
  = (if errexit o && negb ((f (repo w)).1 =? 0) then Exited (f (repo w)).1 else Done tt,
     {| repo := (f (repo w)).2; fs := fs w; trace := trace w ++ [Ran c] |}).
Proof.
  unfold stmt, Sh.bind. rewrite git_run.
  destruct (errexit o && negb ((f (repo w)).1 =? 0)); reflexivity.
Qed.

Lemma create_branches_run (o : Rebase.oracle) (w : world) (c : Git.commit) :
  Git.head_commit (repo w) = Some c ->
  Git.branches (repo w) !! Rebase.backup_name o = None ->
  Rebase.create_branches o w
  = match Git.branches (repo w) !! Rebase.integration_name o with
    | None => (Done (Git.show_current (repo w)), on_integration o c (with_backup o c w))
    | Some _ =>
        (Exited 128,
         say (with_backup o c w) [Ran (GitCheckoutB (Rebase.integration_name o))])
    end.
Proof.
  intros Hhead Hfresh.
  assert (Hb : Git.branch (Rebase.backup_name o) (repo w)
               = (0, repo (with_backup o c w))).
  { unfold Git.branch. rewrite Hfresh, Hhead. reflexivity. }
  assert (Hhead1 : Git.head_commit (repo (with_backup o c w)) = Some c).
  { unfold Git.head_commit in *. simpl. destruct (Git.head (repo w)) as [b |]; [| exact Hhead].
    rewrite lookup_insert. destruct (decide _); [reflexivity | exact Hhead]. }
  assert (Hc : Git.checkout_b (Rebase.integration_name o) (repo (with_backup o c w))
               = match Git.branches (repo w) !! Rebase.integration_name o with
                 | None => (0, repo (on_integration o c (with_backup o c w)))
                 | Some _ => (128, repo (with_backup o c w))
                 end).
  { unfold Git.checkout_b. rewrite Hhead1. simpl.
    rewrite lookup_insert_ne by apply backup_is_not_integration.
    destruct (Git.branches (repo w) !! Rebase.integration_name o); reflexivity. }
  unfold Rebase.create_branches, mbind, sh_bind, Sh.bind.
  rewrite stmt_git_run, Hb. simpl.
  rewrite stmt_git_run. simpl. fold (with_backup o c w).
  change {| Git.paths := Git.paths (repo w); Git.rebasing := Git.rebasing (repo w);
            Git.branches := <[Rebase.backup_name o := c]> (Git.branches (repo w));
            Git.head := Git.head (repo w); Git.remotes := Git.remotes (repo w) |}
    with (repo (with_backup o c w)).
  rewrite Hc.
  destruct (Git.branches (repo w) !! Rebase.integration_name o); simpl;
    unfold on_integration, with_backup, say; simpl; rewrite <- ?app_assoc; reflexivity.
Qed.

(** A confirmed run: either the integration branch cannot be created and
    the script stops there, or the rebase starts. *)
Lemma script_run_confirmed (o : Rebase.oracle) (w : world) (r : string) (c : Git.commit) :
  Rebase.readiness_status o = 0 -> Rebase.reply o = Some r -> Rebase.is_yes r = true ->
  Git.head_commit (repo w) = Some c ->
  Git.branches (repo w) !! Rebase.backup_name o = None ->
  Sh.run (Rebase.script o) w
  = match Git.branches (repo w) !! Rebase.integration_name o with
    | None =>
        Sh.run (Rebase.start_rebase o (Git.show_current (repo w))) (ready_to_rebase o c w)
    | Some _ =>
        (128, say (with_backup o c (say w [Ran readiness_cmd]))
                [Ran (GitCheckoutB (Rebase.integration_name o))])
    end.
Proof.
  intros Hready Hreply Hyes Hhead Hfresh.
  unfold Sh.run, Rebase.script, mbind, sh_bind, Sh.bind.
  rewrite (confirm_run o w r Hready Hreply Hyes).
  rewrite (create_branches_run o (say w [Ran readiness_cmd]) c Hhead Hfresh). simpl.
  destruct (Git.branches (repo w) !! Rebase.integration_name o); reflexivity.
Qed.

Lemma rebase_keeps_other_branches (out : Git.rebase_outcome) (r : Git.repo) (b name : string) :
  Git.head r = Git.OnBranch b -> name <> b ->
  Git.branches (Git.rebase out r).2 !! name = Git.branches r !! name.
Proof.
  intros Hhead Hne. unfold Git.rebase. destruct out; simpl; try reflexivity.
  rewrite Hhead. simpl. apply lookup_insert_ne. congruence.
Qed.

Lemma resolve_keeps_branches (w : world) :
  Git.branches (repo (Sh.run Resolve.script w).2) = Git.branches (repo w)
  /\ exists added, trace (Sh.run Resolve.script w).2 = (trace w ++ added)%list.
Proof.
  pose proof (preserves_resolve_script w) as H. rewrite <- run_snd in H.
  destruct H as (_ & Hb & _ & _ & _ & _ & added & Ht & _).
  split; [exact Hb | exists added; exact Ht].
Qed.

(** Where [git rebase] sits in the trace of a confirmed run. *)
Lemma start_rebase_trace (o : Rebase.oracle) (current_branch : string) (w : world) :
  Git.branches (repo (Sh.run (Rebase.start_rebase o current_branch) w).2)
  = Git.branches (Git.rebase (Rebase.rebase_outcome o) (repo w)).2
  /\ exists rest,
       trace (Sh.run (Rebase.start_rebase o current_branch) w).2
       = (trace w ++ Ran rebase_cmd :: rest)%list.
Proof.
  rewrite start_rebase_run.
  destruct (_ =? 0); simpl.
  - split; [reflexivity |]. rewrite <- app_assoc. simpl. eexists. reflexivity.
  - destruct (resolve_keeps_branches (at_resolve o w)) as (Hb & added & Ht).
    assert (Hpre : trace (at_resolve o w)
                   = (trace w ++ [Ran rebase_cmd; Said ConflictsDetected; Ran resolve_cmd])%list).
    { unfold at_resolve, after_rebase, say. simpl. rewrite <- app_assoc. reflexivity. }
    destruct (_ =? 0); simpl.
    + split; [exact Hb |]. rewrite Ht, Hpre, <- !app_assoc. simpl. eexists. reflexivity.
    + split; [exact Hb |]. rewrite Ht, Hpre, <- !app_assoc. simpl. eexists. reflexivity.
Qed.






Lemma commands_app (a b : list event) : commands (a ++ b) = (commands a ++ commands b)%list.
Proof. apply omap_app. Qed.






(** ** Upstream sync *)

Lemma fetch_same_checkout (out : Git.fetch_outcome) (r : Git.repo) :
  same_checkout r (Git.fetch out r).2.
Proof. destruct out; repeat split. Qed.

Lemma rev_parse_after_fetch (out : Git.fetch_outcome) (r : Git.repo) :
  Git.rev_parse_abbrev_head (Git.fetch out r).2 = Git.rev_parse_abbrev_head r.
Proof. destruct out; reflexivity. Qed.

(** The script up to the commit count. *)
Lemma sync_up_to_date (o : Sync.oracle) (w : world) :
  (Git.fetch (Sync.fetch_outcome o) (repo w)).1 = 0 ->
  (Git.rev_parse_abbrev_head (repo w)).1 = 0 ->
  Sync.upstream_log o = [] ->
  Sh.run (Sync.script o) w = (0, say (after_fetch o w) [Said ForkCurrent]).
Proof.
  intros Hfetch Hrev Hlog.
  unfold Sh.run, Sync.script, mbind, sh_bind, Sh.bind.
  rewrite stmt_git_run, Hfetch. simpl.
  unfold Sh.get. rewrite rev_parse_after_fetch.
  destruct (Git.rev_parse_abbrev_head (repo w)) as [st current_branch]. simpl in Hrev.
  subst st. rewrite Hlog. sh_unfold. simpl.
  unfold say, after_fetch. simpl. rewrite <- app_assoc. reflexivity.
Qed.

Lemma sync_conflicts (o : Sync.oracle) (w : world) :
  (Git.fetch (Sync.fetch_outcome o) (repo w)).1 = 0 ->
  (Git.rev_parse_abbrev_head (repo w)).1 = 0 ->
  Sync.upstream_log o <> [] ->
  (Sync.merge_base o).1 = 0 ->
  (Sync.merge_tree o).1 = 0 ->
  Sync.contains "<<<<<<< " (Sync.merge_tree o).2 = true ->
  Sh.run (Sync.script o) w
  = (1, say (after_fetch o w)
          (Said ConflictsDetected
           :: if Sync.conflict_files_status (Sync.merge_tree o).2 =? 0
              then [Said ManualWorkflow] else [])).
Proof.
  intros Hfetch Hrev Hlog Hbase Htree Hmarks.
  unfold Sh.run, Sync.script, mbind, sh_bind, Sh.bind.
  rewrite stmt_git_run, Hfetch. simpl.
  unfold Sh.get. rewrite rev_parse_after_fetch.
  destruct (Git.rev_parse_abbrev_head (repo w)) as [st current_branch]. simpl in Hrev.
  subst st.
  destruct (Sync.upstream_log o) as [| l ls]; [contradiction |].
  destruct (Sync.merge_base o) as [st base_commit]. simpl in Hbase. subst st.
  destruct (Sync.merge_tree o) as [st conflict_preview]. simpl in Htree, Hmarks. subst st.
  sh_unfold. simpl. rewrite Hmarks. simpl.
  unfold Sync.conflict_files_status.
  destruct (Sync.conflict_files conflict_preview); simpl;
    unfold say, after_fetch; simpl; rewrite <- ?app_assoc; reflexivity.
Qed.

(** C5, as claimed, fails in two places.  With the remote unreachable and
    no upstream commit ahead of HEAD the script exits with the status of the
    failed fetch, not 0.  And in the conflict case the repository is not what
    it was before the run: the fetch has moved upstream/main. *)
Lemma sync_exit_counterexample :
  (Sync.upstream_log offline_sync = []
   /\ (Sh.run (Sync.script offline_sync) fork_behind).1 <> 0)
  /\ (Sync.contains "<<<<<<< " (Sync.merge_tree conflicting_sync).2 = true
      /\ (Sh.run (Sync.script conflicting_sync) fork_behind).1 = 1
      /\ repo (Sh.run (Sync.script conflicting_sync) fork_behind).2 <> repo fork_behind
      /\ Git.remotes (repo (Sh.run (Sync.script conflicting_sync) fork_behind).2)
           !! "upstream/main" = Some "u9"
      /\ Git.remotes (repo fork_behind) !! "upstream/main" = Some "u1").
Proof.
  assert (Hafter : Git.remotes (repo (Sh.run (Sync.script conflicting_sync) fork_behind).2)
                     !! "upstream/main" = Some "u9") by (vm_compute; reflexivity).
  assert (Hbefore : Git.remotes (repo fork_behind) !! "upstream/main" = Some "u1")
    by (vm_compute; reflexivity).
  split; [split; [reflexivity | vm_compute; discriminate] |].
  split; [vm_compute; reflexivity |].
  split; [vm_compute; reflexivity |].
  split; [| split; assumption].
  intros Heq. rewrite Heq, Hbefore in Hafter. discriminate Hafter.
Qed.

(** C5, amended: once [git fetch upstream] and the branch lookup have
    succeeded, the script exits with status 0, reporting the fork as
    current, whenever the count of upstream commits not in HEAD is zero; and
    when that count is not zero and the merge-tree preview, obtained from a
    successful merge-base and merge-tree, contains conflict markers, it exits
    with status 1.  In the conflict case it runs no rebase: the fetch is the
    only command that has changed the repository, so paths, branches, HEAD
    and rebase state are as before the run and only the remote-tracking refs
    may differ. *)
Theorem sync_exit_status (o : Sync.oracle) (w : world)
    (Hfetch : (Git.fetch (Sync.fetch_outcome o) (repo w)).1 = 0)
    (Hrev : (Git.rev_parse_abbrev_head (repo w)).1 = 0) :
  (Z.of_nat (length (Sync.upstream_log o)) = 0 ->
   (Sh.run (Sync.script o) w).1 = 0
   /\ In (Said ForkCurrent) (trace (Sh.run (Sync.script o) w).2))
  /\ (Z.of_nat (length (Sync.upstream_log o)) <> 0 ->
      (Sync.merge_base o).1 = 0 -> (Sync.merge_tree o).1 = 0 ->
      Sync.contains "<<<<<<< " (Sync.merge_tree o).2 = true ->
      (Sh.run (Sync.script o) w).1 = 1
      /\ (exists added,
            trace (Sh.run (Sync.script o) w).2 = (trace w ++ added)%list
            /\ commands added = [GitFetch "upstream"]
            /\ ~ In rebase_cmd (commands added))
      /\ repo (Sh.run (Sync.script o) w).2 = (Git.fetch (Sync.fetch_outcome o) (repo w)).2
      /\ same_checkout (repo w) (repo (Sh.run (Sync.script o) w).2)
      /\ fs (Sh.run (Sync.script o) w).2 = fs w).
Proof.
  split.
  - intros Hcount.
    assert (Hlog : Sync.upstream_log o = [])
      by (destruct (Sync.upstream_log o); [reflexivity | discriminate Hcount]).
    rewrite (sync_up_to_date o w Hfetch Hrev Hlog). simpl.
    split; [reflexivity |]. rewrite !in_app_iff. simpl. tauto.
  - intros Hcount Hbase Htree Hmarks.
    assert (Hlog : Sync.upstream_log o <> []) by (intros E; rewrite E in Hcount; auto).
    rewrite (sync_conflicts o w Hfetch Hrev Hlog Hbase Htree Hmarks). simpl.
    split; [reflexivity |].
    split.
    { eexists. split; [rewrite <- app_assoc; reflexivity |].
      assert (Hc : commands (if Sync.conflict_files_status (Sync.merge_tree o).2 =? 0
                             then [Said ManualWorkflow] else []) = [])
        by (destruct (_ =? 0); reflexivity).
      simpl. rewrite Hc. split; [reflexivity |].
      unfold rebase_cmd. intros [H | []]. discriminate H. }
    split; [reflexivity |].
    split; [apply fetch_same_checkout | reflexivity].
Qed.

Lemma sync_exit_status_witness :
  (Sh.run (Sync.script conflicting_sync) fork_behind).1 = 1
  /\ same_checkout (repo fork_behind) (repo (Sh.run (Sync.script conflicting_sync) fork_behind).2).
Proof.
  assert (Hfetch : (Git.fetch (Sync.fetch_outcome conflicting_sync) (repo fork_behind)).1 = 0)
    by reflexivity.
  assert (Hrev : (Git.rev_parse_abbrev_head (repo fork_behind)).1 = 0)
    by (vm_compute; reflexivity).
  destruct (proj2 (sync_exit_status conflicting_sync fork_behind Hfetch Hrev))
    as (Hst & _ & _ & Hsame & _); try (vm_compute; reflexivity).
  - vm_compute. discriminate.
  - split; assumption.
Defined.

(** ** Shell options *)

(** Under errexit a failing command in statement position ends the script
    with that command's status. *)
Lemma stmt_errexit {S : Type} (o : shopts) (c : sh S Z) (k : unit -> sh S unit)
    (s s' : S) (st : Z) :
  errexit o = true -> c s = (Done st, s') -> st <> 0 ->
  (stmt o c ≫= k) s = (Exited st, s').
Proof.
  intros He Hc Hst. unfold mbind, sh_bind, stmt, Sh.bind. rewrite Hc, He.
  destruct (Z.eqb_spec st 0); [contradiction | reflexivity].
Qed.

(** Without errexit the same failure is ignored. *)
Lemma stmt_no_errexit {S : Type} (o : shopts) (c : sh S Z) (k : unit -> sh S unit)
    (s s' : S) (st : Z) :
  errexit o = false -> c s = (Done st, s') ->
  (stmt o c ≫= k) s = k tt s'.
Proof.
  intros He Hc. unfold mbind, sh_bind, stmt, Sh.bind. rewrite Hc, He. reflexivity.
Qed.

(** In sync-upstream.sh a failed fetch is the end of the run. *)
Lemma sync_fetch_failure (o : Sync.oracle) (w : world) :
  (Git.fetch (Sync.fetch_outcome o) (repo w)).1 <> 0 ->
  Sh.run (Sync.script o) w
  = ((Git.fetch (Sync.fetch_outcome o) (repo w)).1, after_fetch o w).
Proof.
  intros Hfail. unfold Sh.run, Sync.script.
  rewrite (stmt_errexit Sync.opts _ _ w (after_fetch o w)
             (Git.fetch (Sync.fetch_outcome o) (repo w)).1);
    [reflexivity | reflexivity | apply git_run | exact Hfail].
Qed.




(** * Further properties of the scripts *)

(** ** Rebase workflow: the paths around the rebase *)





(** X3: a confirmed run never moves the branch it was started on: whatever
    happens afterwards, that branch still points at the commit it had.  When
    the rebase completes, the script ends with status 0 on the integration
    branch, which points at the rewritten tip; it does not switch back. *)
Theorem rebase_leaves_starting_branch (o : Rebase.oracle) (w : world) (r b : string)
    (c : Git.commit)
    (Hready : Rebase.readiness_status o = 0)
    (Hreply : Rebase.reply o = Some r) (Hyes : Rebase.is_yes r = true)
    (Hon : Git.head (repo w) = Git.OnBranch b)
    (Hb : Git.branches (repo w) !! b = Some c)
    (Hfresh : Git.branches (repo w) !! Rebase.backup_name o = None) :
  Git.branches (repo (Sh.run (Rebase.script o) w).2) !! b = Some c
  /\ (Git.branches (repo w) !! Rebase.integration_name o = None ->
      forall tip, Rebase.rebase_outcome o = Git.RebaseDone tip ->
        (Sh.run (Rebase.script o) w).1 = 0
        /\ Git.head (repo (Sh.run (Rebase.script o) w).2)
           = Git.OnBranch (Rebase.integration_name o)
        /\ Git.branches (repo (Sh.run (Rebase.script o) w).2) !! Rebase.integration_name o
           = Some tip).
Proof.
  assert (Hhead : Git.head_commit (repo w) = Some c)
    by (unfold Git.head_commit; rewrite Hon; exact Hb).
  assert (Hnb : Rebase.backup_name o <> b) by (intros E; rewrite E in Hfresh; congruence).
  rewrite (script_run_confirmed o w r c Hready Hreply Hyes Hhead Hfresh).
  destruct (Git.branches (repo w) !! Rebase.integration_name o) as [c' |] eqn:Hint.
  - split; [| intros H; discriminate H].
    simpl. rewrite lookup_insert_ne by exact Hnb. exact Hb.
  - assert (Hni : Rebase.integration_name o <> b) by (intros E; rewrite E in Hint; congruence).
    split.
    + destruct (start_rebase_trace o (Git.show_current (repo w)) (ready_to_rebase o c w))
        as (Hbr & _).
      rewrite Hbr.
      rewrite (rebase_keeps_other_branches _ _ (Rebase.integration_name o))
        by (reflexivity || (apply not_eq_sym; exact Hni)).
      simpl. rewrite !lookup_insert_ne by assumption. exact Hb.
    + intros _ tip Hdone. rewrite start_rebase_run.
      unfold after_rebase. rewrite Hdone. simpl.
      split; [reflexivity |]. split; [reflexivity |]. apply lookup_insert_eq.
Qed.

Lemma rebase_leaves_starting_branch_witness :
  Git.branches (repo (Sh.run (Rebase.script failing_tests) fork_on_main).2) !! "main"
  = Some "c0"
  /\ Git.head (repo (Sh.run (Rebase.script failing_tests) fork_on_main).2)
     = Git.OnBranch "integrate/upstream-20250926".
Proof.
  destruct (rebase_leaves_starting_branch failing_tests fork_on_main "y" "main" "c0")
    as (Hmain & Hdone); try (vm_compute; reflexivity).
  split; [exact Hmain |].
  destruct (Hdone eq_refl "r1" eq_refl) as (_ & Hhead & _). exact Hhead.
Defined.

(** ** Conflict resolution: the runs that resolve nothing *)

(** X4: run outside a rebase, the resolution script prints that no rebase
    is in progress and exits with status 1 without running any git command
    or changing the repository. *)
Theorem resolve_outside_rebase (w : world) (Hno : Git.rebasing (repo w) = false) :
  Sh.run Resolve.script w = (1, say w [Said NotInRebase]).
Proof.
  unfold Sh.run, Resolve.script, Resolve.check_rebase. sh_unfold. simpl.
  rewrite Hno. reflexivity.
Qed.

Lemma resolve_outside_rebase_witness :
  Sh.run Resolve.script fork_on_main = (1, say fork_on_main [Said NotInRebase]).
Proof. apply resolve_outside_rebase. reflexivity. Defined.

Lemma say_say (w : world) (a b : list event) : say (say w a) b = say w (a ++ b).
Proof. unfold say. simpl. rewrite <- app_assoc. reflexivity. Qed.

Lemma say_nil (w : world) : say w [] = w.
Proof. unfold say. rewrite app_nil_r. destruct w; reflexivity. Qed.

Lemma keep_ours_body_skips (file : string) (n : Z) (w : world) :
  Git.show_stage Git.ours file (repo w) <> 0 ->
  exists lines,
    Resolve.keep_ours_body file n w = (Done n, say w lines) /\ commands lines = [].
Proof.
  intros Hno. unfold Resolve.keep_ours_body. sh_unfold. simpl.
  destruct (Resolve.status_grep file (repo w)).
  - destruct (Z.eqb_spec (Git.show_stage Git.ours file (repo w)) 0) as [H0 | _];
      [contradiction |].
    exists [Said (KeepingOurs file); Said (DeletedInOurs file)].
    split; [unfold say; simpl; rewrite <- app_assoc |]; reflexivity.
  - exists []. rewrite say_nil. split; reflexivity.
Qed.

Lemma keep_ours_loop_skips (l : list string) (n : Z) (w : world) :
  (forall f, f ∈ l -> Git.show_stage Git.ours f (repo w) <> 0) ->
  exists lines,
    for_acc l Resolve.keep_ours_body n w = (Done n, say w lines) /\ commands lines = [].
Proof.
  revert w. induction l as [| f l IH]; intros w Hno; simpl.
  - exists []. rewrite say_nil. split; reflexivity.
  - destruct (keep_ours_body_skips f n w) as (l1 & H1 & C1); [apply Hno; left |].
    destruct (IH (say w l1)) as (l2 & H2 & C2).
    { intros g Hg. apply Hno. right. exact Hg. }
    exists (l1 ++ l2)%list. unfold Sh.bind. rewrite H1, H2, say_say.
    split; [reflexivity |]. rewrite commands_app, C1, C2. reflexivity.
Qed.

Lemma summary_only_prints (n : Z) (w : world) :
  exists tail,
    Resolve.summary n w = (Done tt, say w (Said (AutoResolved n) :: tail))
    /\ commands tail = []
    /\ forall p, p ∈ Git.diff_unmerged (repo w) -> In (Said (ManualFile p)) tail.
Proof.
  unfold Resolve.summary. sh_unfold. simpl.
  destruct (Git.diff_unmerged (repo w)) as [| q l] eqn:E.
  - exists [Said AllResolved]. simpl. split.
    + unfold say. simpl. rewrite <- app_assoc. reflexivity.
    + split; [reflexivity |]. intros p Hp. apply elem_of_nil in Hp. contradiction.
  - assert (H0 : (0 <? Z.of_nat (length (q :: l))) = true)
      by (apply Z.ltb_lt; simpl; lia).
    rewrite H0.
    exists (Said (ManualNeeded (Z.of_nat (length (q :: l))))
              :: ((fun x => Said (ManualFile x)) <$> (q :: l))).
    split.
    + pose proof (for_each_echo ManualFile (q :: l)) as He. unfold echo, emit, Sh.modify in He.
      rewrite He. unfold say. simpl. rewrite <- !app_assoc. reflexivity.
    + split.
      * simpl. clear. induction l as [| x l IH]; [reflexivity | exact IH].
      * intros p Hp. right. apply list_elem_of_In.
        apply list_elem_of_fmap. exists p. split; [reflexivity | exact Hp].
Qed.

(** X5: during a rebase in which no KEEP_OURS file has an ours stage, the
    script resolves nothing: it runs no git checkout and no git add, leaves
    the repository exactly as it was, exits with status 0, reports 0
    auto-resolved files and lists every unmerged path for manual
    resolution -- even if its loose grep matched some conflict line. *)
Theorem resolve_nothing_to_keep (w : world)
    (Hreb : Git.rebasing (repo w) = true)
    (Hno : forall f, f ∈ Resolve.KEEP_OURS -> Git.show_stage Git.ours f (repo w) <> 0) :
  (Sh.run Resolve.script w).1 = 0
  /\ repo (Sh.run Resolve.script w).2 = repo w
  /\ exists lines,
       trace (Sh.run Resolve.script w).2 = (trace w ++ lines)%list
       /\ commands lines = []
       /\ In (Said (AutoResolved 0)) lines
       /\ forall p, p ∈ Git.diff_unmerged (repo w) -> In (Said (ManualFile p)) lines.
Proof.
  destruct (keep_ours_loop_skips Resolve.KEEP_OURS 0 w Hno) as (l1 & H1 & C1).
  destruct (summary_only_prints 0 (say w l1)) as (tail & Hs & Ct & Hlist).
  assert (Hrun : Resolve.script w
                 = (Done tt, say w (l1 ++ Said (AutoResolved 0) :: tail))).
  { unfold Resolve.script, Resolve.check_rebase, Resolve.auto_resolve,
      mbind, sh_bind, Sh.bind, Sh.get, mret, sh_ret, Sh.ret.
    rewrite Hreb. cbn [negb]. rewrite H1. cbn [for_acc Resolve.TAKE_THEIRS Sh.ret].
    rewrite Hs, say_say. reflexivity. }
  unfold Sh.run. rewrite Hrun. cbn [fst snd status_of say repo trace].
  split; [reflexivity |]. split; [reflexivity |].
  exists (l1 ++ Said (AutoResolved 0) :: tail)%list.
  split; [reflexivity |].
  split; [rewrite commands_app, C1; simpl; exact Ct |].
  split; [apply in_or_app; right; left; reflexivity |].
  intros p Hp. apply in_or_app. right. right. exact (Hlist p Hp).
Qed.

Lemma resolve_nothing_to_keep_witness :
  (Sh.run Resolve.script deleted_by_us).1 = 0
  /\ repo (Sh.run Resolve.script deleted_by_us).2 = repo deleted_by_us
  /\ commands (trace (Sh.run Resolve.script deleted_by_us).2) = []
  /\ In (Said (DeletedInOurs "package.json")) (trace (Sh.run Resolve.script deleted_by_us).2)
  /\ In (Said (ManualFile "src/app/ui/package.json"))
       (trace (Sh.run Resolve.script deleted_by_us).2).
Proof.
  assert (Hno : forall f, f ∈ Resolve.KEEP_OURS ->
                  Git.show_stage Git.ours f (repo deleted_by_us) <> 0).
  { intros f Hf. unfold Resolve.KEEP_OURS in Hf.
    repeat (apply elem_of_cons in Hf as [-> | Hf]; [vm_compute; discriminate |]).
    apply elem_of_nil in Hf. contradiction. }
  destruct (resolve_nothing_to_keep deleted_by_us eq_refl Hno) as (Hst & Hrepo & _).
  split; [exact Hst |]. split; [exact Hrepo |].
  split; [vm_compute; reflexivity |]. split; vm_compute; tauto.
Defined.

(** ** Upstream sync: the clean path *)

(** The script once the preview shows no conflict marker. *)
Lemma sync_clean (o : Sync.oracle) (w : world) :
  (Git.fetch (Sync.fetch_outcome o) (repo w)).1 = 0 ->
  (Git.rev_parse_abbrev_head (repo w)).1 = 0 ->
  Sync.upstream_log o <> [] ->
  (Sync.merge_base o).1 = 0 ->
  (Sync.merge_tree o).1 = 0 ->
  Sync.contains "<<<<<<< " (Sync.merge_tree o).2 = false ->
  Sh.run (Sync.script o) w
  = match Sync.confirm o with
    | None => (1, say (after_fetch o w) [Said CleanIntegration])
    | Some answer =>
        if Sync.confirmed answer then
          let st := (Git.rebase (Sync.rebase_outcome o) (repo (after_fetch o w))).1 in
          (st, if st =? 0 then say (after_sync_rebase o w) [Said SyncComplete]
               else after_sync_rebase o w)
        else (0, say (after_fetch o w) [Said CleanIntegration; Said SyncCancelled])
    end.
Proof.
  intros Hfetch Hrev Hlog Hbase Htree Hmarks.
  unfold Sh.run, Sync.script, mbind, sh_bind, Sh.bind.
  rewrite stmt_git_run, Hfetch. simpl.
  unfold Sh.get. rewrite rev_parse_after_fetch.
  destruct (Git.rev_parse_abbrev_head (repo w)) as [st current_branch]. simpl in Hrev.
  subst st.
  destruct (Sync.upstream_log o) as [| l ls]; [contradiction |].
  destruct (Sync.merge_base o) as [st base_commit]. simpl in Hbase. subst st.
  destruct (Sync.merge_tree o) as [st conflict_preview]. simpl in Htree, Hmarks. subst st.
  sh_unfold. simpl. rewrite Hmarks. simpl.
  destruct (Sync.confirm o) as [answer |]; simpl.
  - destruct (Sync.confirmed answer); simpl.
    + unfold after_sync_rebase, after_fetch, say, rebase_cmd. simpl.
      destruct (Z.eqb_spec (Git.rebase (Sync.rebase_outcome o)
                              (Git.fetch (Sync.fetch_outcome o) (repo w)).2).1 0) as [E | E];
        simpl; rewrite <- ?app_assoc; rewrite ?E; reflexivity.
    + unfold after_fetch, say. simpl. rewrite <- !app_assoc. reflexivity.
  - unfold after_fetch, say. simpl. rewrite <- !app_assoc. reflexivity.
Qed.

(** X6: every run of the sync script runs [git fetch upstream] and at most
    one further git command, [git rebase upstream/main]; and the rebase is
    run only when the fetch, the branch lookup, merge-base and merge-tree
    succeeded, upstream is ahead, the preview shows no conflict marker, and
    the user's answer is y or yes in any letter case. *)
Theorem sync_rebase_needs_consent (o : Sync.oracle) (w : world) :
  commands (trace (Sh.run (Sync.script o) w).2)
  = (commands (trace w) ++ [GitFetch "upstream"])%list
  \/ (commands (trace (Sh.run (Sync.script o) w).2)
      = (commands (trace w) ++ [GitFetch "upstream"; rebase_cmd])%list
      /\ (Git.fetch (Sync.fetch_outcome o) (repo w)).1 = 0
      /\ (Git.rev_parse_abbrev_head (repo w)).1 = 0
      /\ Sync.upstream_log o <> []
      /\ (Sync.merge_base o).1 = 0
      /\ (Sync.merge_tree o).1 = 0
      /\ Sync.contains "<<<<<<< " (Sync.merge_tree o).2 = false
      /\ exists answer, Sync.confirm o = Some answer /\ Sync.confirmed answer = true).
Proof.
  destruct (Z.eq_dec (Git.fetch (Sync.fetch_outcome o) (repo w)).1 0) as [Hfetch | Hfetch].
  2:{ left. rewrite (sync_fetch_failure o w Hfetch). simpl. apply commands_app. }
  destruct (Z.eq_dec (Git.rev_parse_abbrev_head (repo w)).1 0) as [Hrev | Hrev].
  2:{ left. unfold Sh.run, Sync.script, mbind, sh_bind, Sh.bind.
      rewrite stmt_git_run, Hfetch. simpl. unfold Sh.get. rewrite rev_parse_after_fetch.
      destruct (Git.rev_parse_abbrev_head (repo w)) as [st cb]. simpl in Hrev.
      sh_unfold. simpl. destruct (Z.eqb_spec st 0); [contradiction |]. simpl.
      apply commands_app. }
  destruct (Sync.upstream_log o) as [| l ls] eqn:Hlog.
  { left. rewrite (sync_up_to_date o w Hfetch Hrev Hlog). simpl.
    rewrite !commands_app. simpl. rewrite app_nil_r. reflexivity. }
  assert (Hlog' : Sync.upstream_log o <> []) by (rewrite Hlog; discriminate).
  rewrite <- Hlog in *. clear Hlog.
  destruct (Z.eq_dec (Sync.merge_base o).1 0) as [Hbase | Hbase].
  2:{ left. unfold Sh.run, Sync.script, mbind, sh_bind, Sh.bind.
      rewrite stmt_git_run, Hfetch. simpl. unfold Sh.get. rewrite rev_parse_after_fetch.
      destruct (Git.rev_parse_abbrev_head (repo w)) as [st cb]. simpl in Hrev. subst st.
      destruct (Sync.upstream_log o); [contradiction |].
      destruct (Sync.merge_base o) as [st bc]. simpl in Hbase.
      sh_unfold. simpl. destruct (Z.eqb_spec st 0); [contradiction |]. simpl.
      apply commands_app. }
  destruct (Z.eq_dec (Sync.merge_tree o).1 0) as [Htree | Htree].
  2:{ left. unfold Sh.run, Sync.script, mbind, sh_bind, Sh.bind.
      rewrite stmt_git_run, Hfetch. simpl. unfold Sh.get. rewrite rev_parse_after_fetch.
      destruct (Git.rev_parse_abbrev_head (repo w)) as [st cb]. simpl in Hrev. subst st.
      destruct (Sync.upstream_log o); [contradiction |].
      destruct (Sync.merge_base o) as [st bc]. simpl in Hbase. subst st.
      destruct (Sync.merge_tree o) as [st cp]. simpl in Htree.
      sh_unfold. simpl. destruct (Z.eqb_spec st 0); [contradiction |]. simpl.
      apply commands_app. }
  destruct (Sync.contains "<<<<<<< " (Sync.merge_tree o).2) eqn:Hmarks.
  { left. rewrite (sync_conflicts o w Hfetch Hrev Hlog' Hbase Htree Hmarks). simpl.
    rewrite !commands_app. simpl.
    destruct (_ =? 0); simpl; rewrite app_nil_r; reflexivity. }
  rewrite (sync_clean o w Hfetch Hrev Hlog' Hbase Htree Hmarks).
  destruct (Sync.confirm o) as [answer |] eqn:Hc.
  2:{ left. simpl. rewrite !commands_app. simpl. rewrite app_nil_r. reflexivity. }
  destruct (Sync.confirmed answer) eqn:Hyes.
  2:{ left. simpl. rewrite !commands_app. simpl. rewrite app_nil_r. reflexivity. }
  right. split.
  - cbv zeta. destruct (_ =? 0); simpl; rewrite !commands_app; simpl;
      rewrite <- ?app_assoc; simpl; rewrite ?app_nil_r; reflexivity.
  - repeat (split; [assumption || reflexivity |]).
    exists answer. split; [reflexivity | assumption].
Qed.

(** X7: on the clean path (fetch, lookup, merge-base and merge-tree
    succeeded, upstream ahead, no conflict marker) the answer decides.  A
    confirmed run exits with the status of [git rebase]: 0 with "sync
    complete" printed when it finishes, and when the rebase stops on a
    conflict the script ends there with status 1 and the rebase in progress.
    Any other answer exits with status 0 and the checkout untouched; no
    answer at all (end of input) exits with status 1. *)
Theorem sync_clean_outcome (o : Sync.oracle) (w : world)
    (Hfetch : (Git.fetch (Sync.fetch_outcome o) (repo w)).1 = 0)
    (Hrev : (Git.rev_parse_abbrev_head (repo w)).1 = 0)
    (Hlog : Sync.upstream_log o <> [])
    (Hbase : (Sync.merge_base o).1 = 0)
    (Htree : (Sync.merge_tree o).1 = 0)
    (Hmarks : Sync.contains "<<<<<<< " (Sync.merge_tree o).2 = false) :
  (forall answer, Sync.confirm o = Some answer -> Sync.confirmed answer = true ->
     (Sh.run (Sync.script o) w).1
     = (Git.rebase (Sync.rebase_outcome o) (repo (after_fetch o w))).1
     /\ repo (Sh.run (Sync.script o) w).2
        = (Git.rebase (Sync.rebase_outcome o) (repo (after_fetch o w))).2
     /\ (forall tip, Sync.rebase_outcome o = Git.RebaseDone tip ->
           (Sh.run (Sync.script o) w).1 = 0
           /\ In (Said SyncComplete) (trace (Sh.run (Sync.script o) w).2))
     /\ (forall at_ conflicts, Sync.rebase_outcome o = Git.RebaseConflict at_ conflicts ->
           (Sh.run (Sync.script o) w).1 = 1
           /\ Git.rebasing (repo (Sh.run (Sync.script o) w).2) = true
           /\ Git.head (repo (Sh.run (Sync.script o) w).2) = Git.Detached at_))
  /\ (forall answer, Sync.confirm o = Some answer -> Sync.confirmed answer = false ->
        (Sh.run (Sync.script o) w).1 = 0
        /\ same_checkout (repo w) (repo (Sh.run (Sync.script o) w).2)
        /\ In (Said SyncCancelled) (trace (Sh.run (Sync.script o) w).2))
  /\ (Sync.confirm o = None ->
        (Sh.run (Sync.script o) w).1 = 1
        /\ same_checkout (repo w) (repo (Sh.run (Sync.script o) w).2)).
Proof.
  rewrite (sync_clean o w Hfetch Hrev Hlog Hbase Htree Hmarks).
  split; [| split].
  - intros answer -> ->. cbv zeta.
    split; [reflexivity |].
    split; [destruct (_ =? 0); reflexivity |].
    split.
    + intros tip ->. simpl. split; [reflexivity |].
      rewrite !in_app_iff. simpl. tauto.
    + intros at_ conflicts Hc. unfold after_sync_rebase, after_fetch. rewrite Hc. simpl.
      repeat split.
  - intros answer -> ->. simpl. split; [reflexivity |].
    split; [apply fetch_same_checkout |]. rewrite !in_app_iff. simpl. tauto.
  - intros ->. simpl. split; [reflexivity | apply fetch_same_checkout].
Qed.

Lemma sync_clean_outcome_witness :
  (Sh.run (Sync.script clean_sync) fork_behind).1 = 0
  /\ In (Said SyncComplete) (trace (Sh.run (Sync.script clean_sync) fork_behind).2).
Proof.
  assert (H : forall tip, Sync.rebase_outcome clean_sync = Git.RebaseDone tip ->
                (Sh.run (Sync.script clean_sync) fork_behind).1 = 0
                /\ In (Said SyncComplete) (trace (Sh.run (Sync.script clean_sync) fork_behind).2)).
  { refine (proj1 (proj2 (proj2 (proj1 (sync_clean_outcome clean_sync fork_behind
              _ _ _ _ _ _) "Yes" eq_refl _)))); try (vm_compute; reflexivity).
    vm_compute. discriminate. }
  exact (H "r1" eq_refl).
Defined.

Lemma prefix_inv (p l : string) :
  String.prefix p l = true -> exists rest, l = p +:+ rest.
Proof.
  revert l. induction p as [| a p IH]; intros l H.
  - exists l. reflexivity.
  - destruct l as [| b l]; simpl in H; [discriminate H |].
    destruct (ascii_dec a b) as [-> | _]; [| discriminate H].
    destruct (IH l H) as (rest & ->). exists rest. reflexivity.
Qed.

(** X8: the sed expression of the conflict listing leaves the header lines
    of a unified diff ("--- a/path", "+++ b/path") exactly as they are: the
    space after the marks stops it.  It strips the prefix only from a line
    whose a/ or b/ follows the marks directly. *)
Theorem sed_keeps_diff_headers (l : string)
    (Hheader : String.prefix "+++ " l = true \/ String.prefix "--- " l = true) :
  Sync.sed_strip l = l.
Proof.
  destruct Hheader as [H | H]; apply prefix_inv in H as (rest & ->);
    (destruct rest as [| c rest]; [reflexivity |]);
    destruct c as [[] [] [] [] [] [] [] []]; reflexivity.
Qed.

Lemma sed_keeps_diff_headers_witness :
  Sync.sed_strip "+++ b/src/core/index.ts" = "+++ b/src/core/index.ts"
  /\ Sync.sed_strip "+++b/src/core/index.ts" = "src/core/index.ts".
Proof.
  split; [| reflexivity].
  apply sed_keeps_diff_headers. left. reflexivity.
Defined.

(** X9: in the conflict case the script prints its manual-resolution
    workflow only if the preview has at least one line starting with +++ or
    --- that does not mention /dev/null.  Otherwise the final [grep -v] of the
    file listing selects nothing, returns 1, and [set -e] ends the script
    there, still with status 1 but before the workflow is printed. *)
Theorem sync_conflict_workflow_printed (o : Sync.oracle) (w : world)
    (Hfetch : (Git.fetch (Sync.fetch_outcome o) (repo w)).1 = 0)
    (Hrev : (Git.rev_parse_abbrev_head (repo w)).1 = 0)
    (Hlog : Sync.upstream_log o <> [])
    (Hbase : (Sync.merge_base o).1 = 0)
    (Htree : (Sync.merge_tree o).1 = 0)
    (Hmarks : Sync.contains "<<<<<<< " (Sync.merge_tree o).2 = true) :
  (Sh.run (Sync.script o) w).1 = 1
  /\ (Sync.conflict_files (Sync.merge_tree o).2 = [] ->
      trace (Sh.run (Sync.script o) w).2
      = (trace w ++ [Ran (GitFetch "upstream"); Said ConflictsDetected])%list)
  /\ (Sync.conflict_files (Sync.merge_tree o).2 <> [] ->
      trace (Sh.run (Sync.script o) w).2
      = (trace w ++ [Ran (GitFetch "upstream"); Said ConflictsDetected;
                     Said ManualWorkflow])%list).
Proof.
  rewrite (sync_conflicts o w Hfetch Hrev Hlog Hbase Htree Hmarks). simpl.
  split; [reflexivity |].
  unfold Sync.conflict_files_status.
  destruct (Sync.conflict_files (Sync.merge_tree o).2); simpl;
    (split; [intros H | intros H]); try discriminate H; try contradiction;
    rewrite <- app_assoc; reflexivity.
Qed.

Lemma sync_conflict_workflow_printed_witness :
  (Sh.run (Sync.script conflicting_sync) fork_behind).1 = 1
  /\ trace (Sh.run (Sync.script conflicting_sync) fork_behind).2
     = [Ran (GitFetch "upstream"); Said ConflictsDetected].
Proof.
  destruct (sync_conflict_workflow_printed conflicting_sync fork_behind)
    as (Hst & Hnone & _); try (vm_compute; reflexivity).
  - vm_compute. discriminate.
  - split; [exact Hst |]. apply Hnone. vm_compute. reflexivity.
Defined.

(** ** Fork health: priority and verdicts *)

(** X10: the integration priority is read off the number of commits
    behind upstream: none for 0, low for 1 to 5, medium for 6 to 10, high
    above 10.  When [git rev-list] fails (no upstream remote, for one) the
    count falls back to 0 and the fork is reported as current, priority
    none. *)
Theorem fork_health_priority (o : Health.oracle) (e : Health.inherited) (w : world) :
  exists r,
    health_report o e w = Some r
    /\ ((Health.rev_list_behind o).1 <> 0 -> Health.priority r = "none")
    /\ ((Health.rev_list_behind o).1 = 0 ->
        let behind := (Health.rev_list_behind o).2 in
        (behind <= 0 -> Health.priority r = "none")
        /\ (1 <= behind <= 5 -> Health.priority r = "low")
        /\ (6 <= behind <= 10 -> Health.priority r = "medium")
        /\ (10 < behind -> Health.priority r = "high")).
Proof.
  unfold health_report, Health.script, Health.version_of. sh_unfold. simpl.
  destruct (Health.bun_version_cmd o) as [s1 v1], (Health.lefthook_version_cmd o) as [s2 v2],
    (Health.biome_version_cmd o) as [s3 v3]; simpl.
  destruct (Health.rev_list_behind o) as [st behind]; simpl.
  destruct (s1 =? 0), (s2 =? 0), (s3 =? 0); simpl;
    (eexists; split; [reflexivity |]); simpl;
    (split; [intros Hst; destruct (Z.eqb_spec st 0); [contradiction | reflexivity] |]);
    intros ->; simpl;
    repeat split; intros H;
    destruct (Z.ltb_spec 10 behind), (Z.ltb_spec 5 behind), (Z.ltb_spec 0 behind);
    try lia; reflexivity.
Qed.

Lemma fork_health_priority_witness :
  exists r, health_report no_upstream nothing_inherited empty_world = Some r
            /\ Health.priority r = "none".
Proof.
  destruct (fork_health_priority no_upstream nothing_inherited empty_world)
    as (r & Hr & Hfail & _).
  exists r. split; [exact Hr |]. apply Hfail. vm_compute. discriminate.
Defined.

(** X11: with six checks the verdict lines depend on the score alone:
    "Excellent" needs at least 5 passed checks, "Good health with some
    issues" is exactly 4, anything below is "needs maintenance attention";
    and the modernization stack is called "Healthy" exactly when the verdict
    is not the last one, that is from 4 checks of any kind. *)
Theorem fork_health_verdicts (o : Health.oracle) (e : Health.inherited) (w : world) :
  exists r,
    health_report o e w = Some r
    /\ (HealthSummary.status (Health.health_percentage r) = "Excellent fork health"
        <-> 5 <= Health.health_score r)
    /\ (HealthSummary.status (Health.health_percentage r) = "Good health with some issues"
        <-> Health.health_score r = 4)
    /\ (HealthSummary.status (Health.health_percentage r) = "Fork needs maintenance attention"
        <-> Health.health_score r <= 3)
    /\ (HealthSummary.modernization_stack (Health.health_score r) = "Healthy"
        <-> 4 <= Health.health_score r).
Proof.
  destruct (health_report_fields o e w)
    as (r & Hr & _ & _ & _ & _ & _ & _ & _ & Htot & Hpct).
  exists r. split; [exact Hr |].
  rewrite Hpct, Htot. unfold HealthSummary.status, HealthSummary.modernization_stack.
  set (s := Health.health_score r).
  destruct (Z.leb_spec 80 (Z.quot (s * 100) 6)) as [H80 | H80];
    destruct (Z.leb_spec 60 (Z.quot (s * 100) 6)) as [H60 | H60];
    destruct (Z.leb_spec 4 s) as [H4 | H4];
    Z.quot_rem_to_equations; repeat split; intros Hs; try discriminate Hs; try lia;
    try reflexivity.
Qed.

(** ** The container build script, phase by phase *)

Ltac said := rewrite <- ?app_assoc; simpl; unfold say; eexists; (split; [| reflexivity]); reflexivity.

Lemma validate_environment_run (o : Build.oracle) (w : world) :
  exists lines,
    commands lines = []
    /\ Build.validate_environment o w
       = (if Build.is_file w "package.json" && Build.bun_on_path o then Done tt else Exited 1,
          say w lines).
Proof.
  unfold Build.validate_environment, Build.error_exit, Build.log, Build.is_file.
  sh_unfold. simpl.
  destruct (bool_decide (fs w !! "package.json" = Some RegularFile)); simpl;
    [destruct (Build.bun_on_path o); simpl;
       [destruct (Build.available_space o <? 1000000); simpl |] |];
    said.
Qed.

Lemma phase_seq (m k : sh world unit) (w : world) f1 c1 res f2 c2 :
  phase_result m w (Done tt) f1 c1 ->
  (forall w1, repo w1 = repo w -> fs w1 = f1 -> phase_result k w1 res f2 c2) ->
  phase_result (m ;; k) w res f2 (c1 ++ c2)%list.
Proof.
  intros (t1 & Hc1 & Hm) Hk.
  destruct (Hk {| repo := repo w; fs := f1; trace := trace w ++ t1 |} eq_refl eq_refl)
    as (t2 & Hc2 & Hk2).
  exists (t1 ++ t2)%list. split; [rewrite commands_app; congruence |].
  unfold mbind, sh_bind, Sh.bind. rewrite Hm, Hk2. simpl. now rewrite app_assoc.
Qed.

Lemma phase_stop (m k : sh world unit) (w : world) c f1 c1 :
  phase_result m w (Exited c) f1 c1 -> phase_result (m ;; k) w (Exited c) f1 c1.
Proof.
  intros (t1 & Hc1 & Hm). exists t1. split; [exact Hc1 |].
  unfold mbind, sh_bind, Sh.bind. now rewrite Hm.
Qed.

Lemma phase_log (line : string) (w : world) :
  phase_result (Build.log line) w (Done tt) (fs w) [].
Proof. exists [Said (BuildLog line)]. split; reflexivity. Qed.

Ltac phase := rewrite <- ?app_assoc; simpl; eexists; (split; [| reflexivity]); reflexivity.

Lemma validate_environment_phase (o : Build.oracle) (w : world) :
  phase_result (Build.validate_environment o) w
    (if Build.is_file w "package.json" && Build.bun_on_path o then Done tt else Exited 1)
    (fs w) [].
Proof.
  unfold phase_result, Build.validate_environment, Build.error_exit, Build.log, Build.is_file.
  sh_unfold. simpl.
  destruct (bool_decide (fs w !! "package.json" = Some RegularFile)); simpl;
    [destruct (Build.bun_on_path o); simpl;
       [destruct (Build.available_space o <? 1000000); simpl |] |];
    phase.
Qed.

Lemma install_dependencies_phase (o : Build.oracle) (w : world) :
  phase_result (Build.install_dependencies o) w
    (if (Build.bun o (install_line o) (fs w)).1 =? 0 then Done tt else Exited 1)
    (installed o w) [bun_cmd (install_line o)].
Proof.
  unfold phase_result, Build.install_dependencies, Build.run_bun, Build.error_exit, Build.log,
    installed, install_line, bun_cmd.
  sh_unfold. simpl.
  destruct (String.eqb (Build.ENABLE_CACHE o) "true"),
    (String.eqb (Build.NODE_ENV o) "production"); simpl; cbv [String.append];
    match goal with |- context [Build.bun o ?a ?f] => destruct (Build.bun o a f) as [st f1] end;
    simpl; destruct (st =? 0); simpl; phase.
Qed.

Lemma build_application_phase (o : Build.oracle) (w : world) :
  let dry := Build.bun o (dry_run_line o) (fs w) in
  let built := Build.bun o ("run " +:+ chosen_script o (fs w)) dry.2 in
  phase_result (Build.build_application o) w
    (if built.1 =? 0 then Done tt else Exited 1)
    built.2 [bun_cmd (dry_run_line o); bun_cmd ("run " +:+ chosen_script o (fs w))].
Proof.
  unfold phase_result, Build.build_application, Build.run_bun, Build.error_exit, Build.log,
    Build.is_dir, chosen_script, dry_run_line, primary_script, fallback_script, bun_cmd.
  sh_unfold. simpl.
  destruct (String.eqb (Build.BUILD_UI o) "true"); simpl; cbv [String.append];
    match goal with |- context [Build.bun o ?a ?f] => destruct (Build.bun o a f) as [st f1] end;
    simpl; destruct (st =? 0); simpl;
    match goal with |- context [Build.bun o ?a ?f] => destruct (Build.bun o a f) as [st2 f2] end;
    simpl; destruct (st2 =? 0); simpl;
    try match goal with |- context [bool_decide ?P] => destruct (bool_decide P) end; simpl;
    phase.
Qed.

Lemma rm_rf_lookup (path : string) (files : gmap string fkind) (k : string) :
  filter (fun kv : string * fkind =>
            ¬ (kv.1 = path ∨ String.prefix (path +:+ "/") kv.1 = true)) files !! k
  = if String.eqb k path || String.prefix (path +:+ "/") k then None else files !! k.
Proof.
  rewrite map_lookup_filter.
  destruct (files !! k) as [v |] eqn:Hk; simpl.
  - destruct (String.eqb_spec k path) as [-> | Hne]; simpl.
    + rewrite option_guard_False; [reflexivity | simpl; tauto].
    + destruct (String.prefix (path +:+ "/") k) eqn:Hp.
      * rewrite option_guard_False; [reflexivity | simpl; tauto].
      * rewrite option_guard_True; [reflexivity |]. simpl. intros [H | H]; congruence.
  - now destruct (String.eqb k path || String.prefix (path +:+ "/") k).
Qed.

Lemma cleanup_build_phase (o : Build.oracle) (w : world) :
  phase_result (Build.cleanup_build o) w (Done tt) (cleaned o (fs w))
    (cleanup_commands o (fs w)).
Proof.
  unfold phase_result, Build.cleanup_build, Build.rm_rf, Build.run_bun, Build.log,
    Build.is_dir, cleanup_commands, cleaned, removed, reinstalled, bun_cmd.
  sh_unfold. simpl.
  destruct (String.eqb (Build.NODE_ENV o) "production"); simpl;
    [destruct (bool_decide (fs w !! "node_modules" = Some Directory)); simpl |]; phase.
Qed.

Lemma cleaned_lookup (o : Build.oracle) (files : gmap string fkind) (k : string) :
  Build.NODE_ENV o = "production" ->
  cleaned o files !! k = if in_build_cache k then None else reinstalled o files !! k.
Proof.
  intros Hprod. unfold cleaned, removed. rewrite Hprod. simpl.
  rewrite !rm_rf_lookup. unfold in_build_cache. cbv [existsb String.append].
  destruct (String.eqb k ".turbo"), (String.prefix ".turbo/" k),
    (String.eqb k ".next"), (String.prefix ".next/" k),
    (String.eqb k ".cache"), (String.prefix ".cache/" k); reflexivity.
Qed.

Lemma verify_build_phase (w : world) :
  phase_result Build.verify_build w
    (if Build.is_file w "dist/cipher" || Build.is_file w "dist/index.js"
     then Done tt else Exited 1)
    (fs w) [].
Proof.
  unfold phase_result, Build.verify_build, Build.error_exit, Build.log. sh_unfold. simpl.
  destruct (Build.is_file _ "dist/cipher"), (Build.is_file _ "dist/index.js"),
    (Build.is_dir _ "memAgent"); simpl; phase.
Qed.

Lemma phase_run (m : sh world unit) (w : world) res files cmds :
  phase_result m w res files cmds ->
  (Sh.run m w).1 = status_of res
  /\ repo (Sh.run m w).2 = repo w
  /\ fs (Sh.run m w).2 = files
  /\ commands (trace (Sh.run m w).2) = (commands (trace w) ++ cmds)%list.
Proof.
  intros (t & Hc & Hm). rewrite run_fst, run_snd, Hm. simpl.
  rewrite commands_app, Hc. repeat split; reflexivity.
Qed.

(** The script up to and including [install_dependencies]. *)
Lemma main_preflight (o : Build.oracle) (w : world) :
  Build.is_file w "package.json" && Build.bun_on_path o = false ->
  phase_result (Build.main o) w (Exited 1) (fs w) [].
Proof.
  intros Hpre. unfold Build.main.
  change (@nil cmd) with ([] ++ @nil cmd)%list.
  eapply phase_seq; [apply phase_log |]. intros w1 Hr Hf.
  apply phase_stop.
  pose proof (validate_environment_phase o w1) as Hv.
  unfold Build.is_file in *. rewrite Hf, Hpre in Hv. exact Hv.
Qed.

Lemma main_from_install (o : Build.oracle) (w : world) res files cmds :
  Build.is_file w "package.json" = true -> Build.bun_on_path o = true ->
  (forall w1, repo w1 = repo w -> fs w1 = fs w ->
     phase_result (Build.install_dependencies o;; Build.build_application o;;
                   Build.cleanup_build o;; Build.verify_build;;
                   Build.log "Build process completed successfully!") w1 res files cmds) ->
  phase_result (Build.main o) w res files cmds.
Proof.
  intros Hpkg Hbun Hrest. unfold Build.main.
  change cmds with ([] ++ ([] ++ cmds))%list.
  eapply phase_seq; [apply phase_log |]. intros w1 Hr1 Hf1.
  eapply phase_seq.
  - pose proof (validate_environment_phase o w1) as Hv.
    unfold Build.is_file in *. rewrite Hf1, Hpkg, Hbun in Hv. exact Hv.
  - intros w2 Hr2 Hf2. apply Hrest; congruence.
Qed.

(** X12: when package.json is not a file of the working directory, or bun
    is not on the PATH, the build script exits with status 1 before running
    any command: the files and the repository are as they were. *)
Theorem build_preflight_failure (o : Build.oracle) (w : world)
    (Hpre : Build.is_file w "package.json" = false \/ Build.bun_on_path o = false) :
  (Sh.run (Build.main o) w).1 = 1
  /\ repo (Sh.run (Build.main o) w).2 = repo w
  /\ fs (Sh.run (Build.main o) w).2 = fs w
  /\ commands (trace (Sh.run (Build.main o) w).2) = commands (trace w).
Proof.
  assert (Hno : Build.is_file w "package.json" && Build.bun_on_path o = false).
  { destruct Hpre as [-> | ->]; [reflexivity | apply andb_false_r]. }
  destruct (phase_run _ _ _ _ _ (main_preflight o w Hno)) as (Hs & Hr & Hf & Hc).
  rewrite app_nil_r in Hc. repeat split; assumption.
Qed.

Lemma build_preflight_failure_witness :
  (Sh.run (Build.main working_build) empty_directory).1 = 1
  /\ fs (Sh.run (Build.main working_build) empty_directory).2 = ∅.
Proof.
  destruct (build_preflight_failure working_build empty_directory) as (Hs & _ & Hf & _).
  - left. vm_compute. reflexivity.
  - split; [exact Hs | exact Hf].
Defined.

(** X13: past the pre-flight checks, a failing [bun install] ends the
    script with status 1: it is the only command that was run, with
    --frozen-lockfile, --verbose unless ENABLE_CACHE is set to something
    other than true, and --production unless NODE_ENV is set to something
    other than production; no build is attempted. *)
Theorem build_failed_install (o : Build.oracle) (w : world)
    (Hpkg : Build.is_file w "package.json" = true)
    (Hbun : Build.bun_on_path o = true)
    (Hfail : (Build.bun o (install_line o) (fs w)).1 <> 0) :
  (Sh.run (Build.main o) w).1 = 1
  /\ fs (Sh.run (Build.main o) w).2 = installed o w
  /\ commands (trace (Sh.run (Build.main o) w).2)
     = (commands (trace w) ++ [bun_cmd (install_line o)])%list.
Proof.
  assert (Hmain : phase_result (Build.main o) w (Exited 1) (installed o w)
                    [bun_cmd (install_line o)]).
  { apply main_from_install; [exact Hpkg | exact Hbun |]. intros w1 Hr Hf.
    apply phase_stop. pose proof (install_dependencies_phase o w1) as Hi.
    unfold installed in *. rewrite Hf in Hi.
    destruct (Z.eqb_spec (Build.bun o (install_line o) (fs w)).1 0); [contradiction | exact Hi]. }
  destruct (phase_run _ _ _ _ _ Hmain) as (Hs & _ & Hf & Hc).
  repeat split; assumption.
Qed.

Lemma build_failed_install_witness :
  (Sh.run (Build.main broken_install) source_tree).1 = 1
  /\ commands (trace (Sh.run (Build.main broken_install) source_tree).2)
     = [Tool "bun install --frozen-lockfile --verbose"].
Proof.
  destruct (build_failed_install broken_install source_tree) as (Hs & _ & Hc);
    [vm_compute; reflexivity | reflexivity | vm_compute; discriminate |].
  split; [exact Hs | exact Hc].
Defined.

(** X14: after a successful install the script probes the compile script
    (compile with the UI, compile:no-ui without) with --dry-run and then
    runs exactly one build script: the probed one when the probe succeeded,
    otherwise the fallback (build, or build:backend).  When that build
    fails the script exits with status 1 and runs nothing more, so the files are
    those the failed build left; when it succeeds the cleanup commands
    follow and nothing else is run. *)
Theorem build_script_choice (o : Build.oracle) (w : world)
    (Hpkg : Build.is_file w "package.json" = true)
    (Hbun : Build.bun_on_path o = true)
    (Hinst : (Build.bun o (install_line o) (fs w)).1 = 0) :
  let script := chosen_script o (installed o w) in
  let built := Build.bun o ("run " +:+ script) (probed o w) in
  commands (trace (Sh.run (Build.main o) w).2)
  = (commands (trace w)
     ++ [bun_cmd (install_line o); bun_cmd (dry_run_line o); bun_cmd ("run " +:+ script)]
     ++ (if built.1 =? 0 then cleanup_commands o built.2 else []))%list
  /\ (built.1 <> 0 ->
      (Sh.run (Build.main o) w).1 = 1 /\ fs (Sh.run (Build.main o) w).2 = built.2).
Proof.
  intros script built.
  assert (Hmain : exists res files,
    phase_result (Build.main o) w res files
      ([bun_cmd (install_line o)]
       ++ [bun_cmd (dry_run_line o); bun_cmd ("run " +:+ script)]
       ++ (if built.1 =? 0 then cleanup_commands o built.2 else []))
    /\ (built.1 <> 0 -> res = Exited 1 /\ files = built.2)).
  { assert (Hi : forall w1, fs w1 = fs w ->
              phase_result (Build.install_dependencies o) w1 (Done tt) (installed o w)
                [bun_cmd (install_line o)]).
    { intros w1 Hf1. pose proof (install_dependencies_phase o w1) as Hi.
      unfold installed in *. rewrite Hf1, Hinst in Hi. exact Hi. }
    assert (Hb : forall w2, fs w2 = installed o w ->
              phase_result (Build.build_application o) w2
                (if built.1 =? 0 then Done tt else Exited 1) built.2
                [bun_cmd (dry_run_line o); bun_cmd ("run " +:+ script)]).
    { intros w2 Hf2. pose proof (build_application_phase o w2) as Hb. cbv zeta in Hb.
      rewrite Hf2 in Hb. exact Hb. }
    destruct (Z.eqb_spec built.1 0) as [Hok | Hbad].
    - exists (if bool_decide (cleaned o built.2 !! "dist/cipher" = Some RegularFile)
                 || bool_decide (cleaned o built.2 !! "dist/index.js" = Some RegularFile)
              then Done tt else Exited 1), (cleaned o built.2).
      split; [| intros Hne; contradiction].
      apply main_from_install; [exact Hpkg | exact Hbun |]. intros w1 Hr1 Hf1.
      eapply phase_seq; [apply Hi, Hf1 |]. intros w2 Hr2 Hf2.
      eapply phase_seq; [apply Hb, Hf2 |]. intros w4 Hr4 Hf4.
      rewrite <- (app_nil_r (cleanup_commands o built.2)).
      eapply phase_seq.
      { pose proof (cleanup_build_phase o w4) as Hc. rewrite Hf4 in Hc. exact Hc. }
      intros w5 Hr5 Hf5.
      pose proof (verify_build_phase w5) as Hv. unfold Build.is_file in Hv. rewrite Hf5 in Hv.
      destruct (bool_decide (cleaned o built.2 !! "dist/cipher" = Some RegularFile)
                || bool_decide (cleaned o built.2 !! "dist/index.js" = Some RegularFile))
        eqn:Hdist.
      + change (@nil cmd) with ([] ++ @nil cmd)%list.
        eapply phase_seq; [exact Hv |]. intros w6 Hr6 Hf6.
        pose proof (phase_log "Build process completed successfully!" w6) as Hl.
        rewrite Hf6 in Hl. exact Hl.
      + apply phase_stop. exact Hv.
    - exists (Exited 1), built.2. split; [| intros _; split; reflexivity].
      apply main_from_install; [exact Hpkg | exact Hbun |]. intros w1 Hr1 Hf1.
      eapply phase_seq; [apply Hi, Hf1 |]. intros w2 Hr2 Hf2.
      rewrite app_nil_r. apply phase_stop. apply Hb, Hf2. }
  destruct Hmain as (res & files & Hmain & Hfail).
  destruct (phase_run _ _ _ _ _ Hmain) as (Hs & _ & Hf & Hc).
  split; [exact Hc |]. intros Hne. destruct (Hfail Hne) as [-> ->].
  split; assumption.
Qed.

Lemma build_script_choice_witness :
  commands (trace (Sh.run (Build.main fallback_build) source_tree).2)
  = [Tool "bun install --frozen-lockfile --production";
     Tool "bun run --silent compile --dry-run"; Tool "bun run build";
     Tool "bun install --frozen-lockfile --production";
     Tool "rm -rf .turbo"; Tool "rm -rf .next"; Tool "rm -rf .cache"]
  /\ (Sh.run (Build.main no_build_script) source_tree).1 = 1.
Proof.
  split.
  - destruct (build_script_choice fallback_build source_tree) as [Hc _];
      [vm_compute; reflexivity | reflexivity | reflexivity |].
    rewrite Hc. vm_compute. reflexivity.
  - destruct (build_script_choice no_build_script source_tree) as [_ Hf];
      [vm_compute; reflexivity | reflexivity | reflexivity |].
    apply Hf. vm_compute. discriminate.
Defined.

(** X15: the cleanup step cannot fail, not even when the production
    reinstall does.  Outside production it runs no command and leaves every
    file; in production it removes .turbo, .next and .cache with everything
    under them, and every other path is as the reinstall (run only when
    node_modules is a directory) left it: the build output in dist is not
    touched by the removals. *)
Theorem cleanup_build_scope (o : Build.oracle) (w : world) :
  (Build.cleanup_build o w).1 = Done tt
  /\ repo (Build.cleanup_build o w).2 = repo w
  /\ (Build.NODE_ENV o <> "production" ->
      fs (Build.cleanup_build o w).2 = fs w
      /\ commands (trace (Build.cleanup_build o w).2) = commands (trace w))
  /\ (Build.NODE_ENV o = "production" ->
      forall k, fs (Build.cleanup_build o w).2 !! k
                = if in_build_cache k then None else reinstalled o (fs w) !! k).
Proof.
  destruct (cleanup_build_phase o w) as (t & Hc & He). rewrite He. simpl.
  split; [reflexivity |]. split; [reflexivity |]. split.
  - intros Hdev. unfold cleaned, cleanup_commands in *.
    destruct (String.eqb_spec (Build.NODE_ENV o) "production"); [contradiction |].
    split; [reflexivity |]. rewrite commands_app, Hc. apply app_nil_r.
  - intros Hprod k. apply cleaned_lookup, Hprod.
Qed.

Lemma cleanup_build_scope_witness :
  let after := fs (Build.cleanup_build working_build with_caches).2 in
  after !! ".turbo/cache.json" = None
  /\ after !! ".next/build-manifest.json" = None
  /\ after !! ".cachex" = Some RegularFile
  /\ after !! "dist/index.js" = Some RegularFile.
Proof.
  destruct (cleanup_build_scope working_build with_caches) as (_ & _ & _ & H).
  pose proof (H eq_refl) as Hk. cbv zeta.
  rewrite !Hk. vm_compute. repeat split; reflexivity.
Defined.

Lemma phase_exit_one (m : sh world unit) (w : world) (b : bool) files cmds :
  phase_result m w (if b then Done tt else Exited 1) files cmds ->
  match (m w).1 with Done _ => True | Exited c => c = 1 end.
Proof. intros (t & _ & ->). now destruct b. Qed.

Lemma exits_build_main (o : Build.oracle) : exits_with (fun c => c = 1) (Build.main o).
Proof.
  unfold Build.main.
  apply (exits_bind _ (Build.log _)); [intros w; exact I | intros []].
  apply (exits_bind _ (Build.validate_environment o)); [| intros []].
  { intros w. exact (phase_exit_one _ _ _ _ _ (validate_environment_phase o w)). }
  apply (exits_bind _ (Build.install_dependencies o)); [| intros []].
  { intros w. exact (phase_exit_one _ _ _ _ _ (install_dependencies_phase o w)). }
  apply (exits_bind _ (Build.build_application o)); [| intros []].
  { intros w. exact (phase_exit_one _ _ _ _ _ (build_application_phase o w)). }
  apply (exits_bind _ (Build.cleanup_build o)); [| intros []].
  { intros w. destruct (cleanup_build_phase o w) as (t & _ & ->). exact I. }
  apply (exits_bind _ Build.verify_build); [| intros []].
  { intros w. exact (phase_exit_one _ _ _ _ _ (verify_build_phase w)). }
  intros w. exact I.
Qed.

Lemma bind_done {A : Type} (m : sh world A) (k : A -> sh world unit) (w w' : world) :
  (m ≫= k) w = (Done tt, w') -> exists a w1, m w = (Done a, w1) /\ k a w1 = (Done tt, w').
Proof.
  unfold mbind, sh_bind, Sh.bind. destruct (m w) as [[a | c] w1]; [| discriminate].
  intros H. exists a, w1. split; [reflexivity | exact H].
Qed.

(** X16: the build script exits with status 0 or 1 and nothing else, and
    status 0 means that an entry point is there when the script ends:
    dist/cipher or dist/index.js is a regular file. *)
Theorem build_success_means_artifact (o : Build.oracle) (w : world) :
  ((Sh.run (Build.main o) w).1 = 0 \/ (Sh.run (Build.main o) w).1 = 1)
  /\ ((Sh.run (Build.main o) w).1 = 0 ->
      Build.is_file (Sh.run (Build.main o) w).2 "dist/cipher" = true
      \/ Build.is_file (Sh.run (Build.main o) w).2 "dist/index.js" = true).
Proof.
  pose proof (exits_build_main o w) as He. rewrite run_fst, run_snd.
  destruct (Build.main o w) as [[[] | c] w'] eqn:Hmain; simpl in *.
  - split; [left; reflexivity | intros _].
    unfold Build.main in Hmain.
    apply bind_done in Hmain as ([] & w0 & _ & Hmain).
    apply bind_done in Hmain as ([] & w1 & _ & Hmain).
    apply bind_done in Hmain as ([] & w2 & _ & Hmain).
    apply bind_done in Hmain as ([] & w3 & _ & Hmain).
    apply bind_done in Hmain as ([] & w4 & _ & Hmain).
    apply bind_done in Hmain as ([] & w5 & Hv & Hlog).
    destruct (verify_build_phase w4) as (t & _ & Hv4). rewrite Hv in Hv4.
    unfold Build.log in Hlog. sh_unfold. injection Hlog as <-.
    unfold Build.is_file in *. simpl.
    destruct (bool_decide (fs w4 !! "dist/cipher" = Some RegularFile)) eqn:H1;
      destruct (bool_decide (fs w4 !! "dist/index.js" = Some RegularFile)) eqn:H2;
      simpl in Hv4; try discriminate Hv4; injection Hv4 as ->; simpl;
      rewrite ?H1, ?H2; auto.
  - subst c. split; [right; reflexivity | intros H; discriminate H].
Qed.

Lemma build_success_means_artifact_witness :
  (Sh.run (Build.main fallback_build) source_tree).1 = 0
  /\ (Build.is_file (Sh.run (Build.main fallback_build) source_tree).2 "dist/cipher" = true
      \/ Build.is_file (Sh.run (Build.main fallback_build) source_tree).2 "dist/index.js"
         = true).
Proof.
  assert (H0 : (Sh.run (Build.main fallback_build) source_tree).1 = 0)
    by (vm_compute; reflexivity).
  split; [exact H0 |].
  exact (proj2 (build_success_means_artifact fallback_build source_tree) H0).
Defined.

(** ** The bake file: groups, tags and build arguments *)



Lemma prefixed_version_differs (v : string) : "dev-" +:+ v <> v.
Proof.
  intros H. apply (f_equal String.length) in H.
  cbv [String.append] in H. simpl in H. lia.
Qed.

(** X18: cipher-release carries every tag of cipher-prod, so the two push
    the same REGISTRY:APP_VERSION and REGISTRY:latest when built together
    (group all); cipher-dev and cipher-prod share a tag only when
    APP_VERSION is dev-latest. *)
Theorem bake_tag_sharing (e : Bake.env) :
  (forall tag, In tag (BakeFile.tags_of e "cipher-prod") ->
               In tag (BakeFile.tags_of e "cipher-release"))
  /\ ((exists tag, In tag (BakeFile.tags_of e "cipher-dev")
                   /\ In tag (BakeFile.tags_of e "cipher-prod"))
      <-> Bake.var e "APP_VERSION" = "dev-latest").
Proof.
  change (BakeFile.tags_of e "cipher-prod")
    with [Bake.var e "REGISTRY" +:+ ":" +:+ Bake.var e "APP_VERSION";
          Bake.var e "REGISTRY" +:+ ":latest"].
  change (BakeFile.tags_of e "cipher-release")
    with [Bake.var e "REGISTRY" +:+ ":" +:+ Bake.var e "APP_VERSION";
          Bake.var e "REGISTRY" +:+ ":latest";
          Bake.var e "REGISTRY" +:+ ":release-" +:+ Bake.var e "APP_VERSION"].
  change (BakeFile.tags_of e "cipher-dev")
    with [Bake.var e "REGISTRY" +:+ ":dev-" +:+ Bake.var e "APP_VERSION";
          Bake.var e "REGISTRY" +:+ ":dev-latest"].
  set (R := Bake.var e "REGISTRY"). set (V := Bake.var e "APP_VERSION").
  split; [simpl; tauto |]. split.
  - intros (tag & Hdev & Hprod). simpl in Hdev, Hprod.
    destruct Hdev as [<- | [<- | []]]; destruct Hprod as [H | [H | []]];
      apply String.app_inj in H; try discriminate H; injection H as H.
    + symmetry in H. now apply prefixed_version_differs in H.
    + exact H.
  - intros ->. exists (R +:+ ":dev-latest"). simpl. tauto.
Qed.

Lemma bake_tag_sharing_witness :
  exists tag, In tag (BakeFile.tags_of dev_latest_env "cipher-dev")
              /\ In tag (BakeFile.tags_of dev_latest_env "cipher-prod").
Proof.
  apply (proj2 (proj2 (bake_tag_sharing dev_latest_env))). vm_compute. reflexivity.
Defined.

(** X19: build arguments reach the image targets through inheritance:
    each of cipher-dev, cipher-prod and cipher-release gets BUN_VERSION and
    BASE from cipher-base (cipher-release through cipher-prod).  BUILD_UI
    follows the variable for cipher-dev only: cipher-prod and cipher-release
    always build the UI.  Only cipher-release is built for several
    platforms. *)
Theorem bake_args_inherited (e : Bake.env) (t : string)
    (Ht : In t image_target_names) :
  BakeFile.args_of e t !! "BUN_VERSION" = Some (Bake.var e "BUN_VERSION")
  /\ BakeFile.args_of e t !! "BASE" = Some ("oven/bun:" +:+ Bake.var e "BUN_VERSION" +:+ "-slim")
  /\ BakeFile.args_of e t !! "BUILD_UI"
     = Some (if String.eqb t "cipher-dev" then Bake.var e "BUILD_UI" else "true")
  /\ BakeFile.args_of e t !! "NODE_ENV"
     = Some (if String.eqb t "cipher-dev" then "development" else "production")
  /\ (BakeFile.platforms_of t <> [] <-> t = "cipher-release").
Proof.
  unfold image_target_names in Ht. simpl in Ht.
  destruct Ht as [<- | [<- | [<- | []]]];
    (repeat split; try (vm_compute; reflexivity); try discriminate;
     intros H; try reflexivity; try (exfalso; apply H; reflexivity)).
Qed.

Lemma bake_args_inherited_witness :
  BakeFile.args_of ∅ "cipher-release" !! "BASE" = Some "oven/bun:1.2.21-slim"
  /\ BakeFile.args_of {[ "BUILD_UI" := "false" ]} "cipher-release" !! "BUILD_UI" = Some "true".
Proof.
  split.
  - destruct (bake_args_inherited ∅ "cipher-release") as (_ & H & _).
    + simpl. tauto.
    + rewrite H. vm_compute. reflexivity.
  - destruct (bake_args_inherited {[ "BUILD_UI" := "false" ]} "cipher-release")
      as (_ & _ & H & _).
    + simpl. tauto.
    + rewrite H. reflexivity.
Defined.

(** ** The buildx configuration script *)

Ltac buildx_unfold :=
  unfold Buildx.main, Buildx.create_builder, Buildx.check_builder, Buildx.use, Buildx.create,
    Buildx.inspect, Buildx.log, Buildx.emit, stmt, or_true in *;
  unfold mbind, mret, sh_bind, sh_ret, Sh.bind, Sh.ret, Sh.exit, Sh.modify, Sh.get in *.

Lemma buildx_main_existing (o : Buildx.oracle) (s : Buildx.state) :
  is_Some (Buildx.builders (Buildx.daemon s) !! Buildx.DOCKER_BUILDER o) ->
  exists t,
    docker_commands t = [inspect_line o; use_line o; inspect_line o]
    /\ Buildx.main o s
       = (Done tt,
          {| Buildx.daemon := {| Buildx.builders := Buildx.builders (Buildx.daemon s);
                                 Buildx.current := Some (Buildx.DOCKER_BUILDER o) |};
             Buildx.out := (Buildx.out s ++ t)%list |}).
Proof.
  intros Hex. buildx_unfold. simpl.
  rewrite !(bool_decide_eq_true_2 _ Hex). simpl.
  rewrite !(bool_decide_eq_true_2 _ Hex). simpl.
  rewrite <- !app_assoc. simpl. eexists. split; [| reflexivity]. reflexivity.
Qed.

Lemma buildx_main_missing (o : Buildx.oracle) (s : Buildx.state) :
  Buildx.builders (Buildx.daemon s) !! Buildx.DOCKER_BUILDER o = None ->
  exists t,
    docker_commands t
    = ([inspect_line o; create_line o]
       ++ (if Buildx.create_status o =? 0 then [use_line o; inspect_line o] else []))%list
    /\ Buildx.main o s
       = (if Buildx.create_status o =? 0 then Done tt else Exited (Buildx.create_status o),
          {| Buildx.daemon :=
               if Buildx.create_status o =? 0
               then {| Buildx.builders := <[Buildx.DOCKER_BUILDER o := wanted_driver o]>
                                            (Buildx.builders (Buildx.daemon s));
                       Buildx.current := Some (Buildx.DOCKER_BUILDER o) |}
               else Buildx.daemon s;
             Buildx.out := (Buildx.out s ++ t)%list |}).
Proof.
  intros Hno.
  assert (Hfree : ¬ is_Some (Buildx.builders (Buildx.daemon s) !! Buildx.DOCKER_BUILDER o)).
  { rewrite Hno. intros [x Hx]. discriminate Hx. }
  assert (Htaken : forall d, is_Some (<[Buildx.DOCKER_BUILDER o := d]>
                     (Buildx.builders (Buildx.daemon s)) !! Buildx.DOCKER_BUILDER o)).
  { intros d. rewrite lookup_insert_eq. eexists. reflexivity. }
  unfold wanted_driver, create_line, inspect_line, use_line.
  buildx_unfold. simpl.
  rewrite !(bool_decide_eq_false_2 _ Hfree). simpl.
  destruct (String.eqb_spec (Buildx.DOCKER_CLOUD_ENDPOINT o) "") as [He | He];
    [| destruct (String.eqb_spec (Buildx.DOCKER_CLOUD_ENDPOINT o) "default") as [Hd | Hd]];
    simpl.
  all: try (rewrite bool_decide_eq_false_2 by (intros [H1 H2]; contradiction)).
  all: try (rewrite bool_decide_eq_true_2 by (split; assumption)).
  all: rewrite !(bool_decide_eq_false_2 _ Hfree); simpl;
    destruct (Buildx.create_status o =? 0) eqn:Hst;
    repeat (simpl; rewrite ?Hst, ?(bool_decide_eq_true_2 _ (Htaken _)));
    rewrite <- ?app_assoc; simpl; (eexists; split; [| reflexivity]); reflexivity.
Qed.

(** X20: when the builder named by DOCKER_BUILDER exists, the script
    creates nothing: it runs inspect, use, inspect, exits with status 0,
    makes the builder current and leaves every builder as it is, whatever
    driver the configuration asks for. *)
Theorem buildx_reuses_existing_builder (o : Buildx.oracle) (s : Buildx.state)
    (Hex : is_Some (Buildx.builders (Buildx.daemon s) !! Buildx.DOCKER_BUILDER o)) :
  (Sh.run (Buildx.main o) s).1 = 0
  /\ Buildx.builders (Buildx.daemon (Sh.run (Buildx.main o) s).2)
     = Buildx.builders (Buildx.daemon s)
  /\ Buildx.current (Buildx.daemon (Sh.run (Buildx.main o) s).2)
     = Some (Buildx.DOCKER_BUILDER o)
  /\ docker_commands (Buildx.out (Sh.run (Buildx.main o) s).2)
     = (docker_commands (Buildx.out s) ++ [inspect_line o; use_line o; inspect_line o])%list.
Proof.
  destruct (buildx_main_existing o s Hex) as (t & Ht & Hrun).
  unfold Sh.run. rewrite Hrun. simpl.
  unfold docker_commands in *. rewrite omap_app, Ht. repeat split; reflexivity.
Qed.

Lemma buildx_reuses_existing_builder_witness :
  Buildx.builders (Buildx.daemon (Sh.run (Buildx.main cloud_buildx) configured_docker).2)
    !! "cipher-builder"
  = Some (Buildx.DockerContainer "linux/amd64").
Proof.
  destruct (buildx_reuses_existing_builder cloud_buildx configured_docker) as (_ & Hb & _).
  - vm_compute. eexists. reflexivity.
  - rewrite Hb. vm_compute. reflexivity.
Defined.

(** X21: when there is no such builder the script creates it, as a cloud
    builder on DOCKER_CLOUD_ENDPOINT when that is set and is not the word
    default, as a docker-container builder for PLATFORMS otherwise.  If the
    creation fails the script ends there with the status of
    [docker buildx create], before any [docker buildx use], and docker is
    as it was; if it succeeds the script exits with status 0 and the new
    builder is the current one. *)
Theorem buildx_creates_missing_builder (o : Buildx.oracle) (s : Buildx.state)
    (Hno : Buildx.builders (Buildx.daemon s) !! Buildx.DOCKER_BUILDER o = None) :
  (Buildx.create_status o <> 0 ->
     (Sh.run (Buildx.main o) s).1 = Buildx.create_status o
     /\ Buildx.daemon (Sh.run (Buildx.main o) s).2 = Buildx.daemon s
     /\ docker_commands (Buildx.out (Sh.run (Buildx.main o) s).2)
        = (docker_commands (Buildx.out s) ++ [inspect_line o; create_line o])%list)
  /\ (Buildx.create_status o = 0 ->
     (Sh.run (Buildx.main o) s).1 = 0
     /\ Buildx.builders (Buildx.daemon (Sh.run (Buildx.main o) s).2)
        = <[Buildx.DOCKER_BUILDER o := wanted_driver o]> (Buildx.builders (Buildx.daemon s))
     /\ Buildx.current (Buildx.daemon (Sh.run (Buildx.main o) s).2)
        = Some (Buildx.DOCKER_BUILDER o)
     /\ docker_commands (Buildx.out (Sh.run (Buildx.main o) s).2)
        = (docker_commands (Buildx.out s)
           ++ [inspect_line o; create_line o; use_line o; inspect_line o])%list).
Proof.
  destruct (buildx_main_missing o s Hno) as (t & Ht & Hrun).
  unfold Sh.run. rewrite Hrun. simpl.
  unfold docker_commands in *. rewrite omap_app, Ht.
  split; intros Hst.
  - destruct (Z.eqb_spec (Buildx.create_status o) 0); [contradiction |].
    repeat split; reflexivity.
  - rewrite Hst. simpl. repeat split; reflexivity.
Qed.

Lemma buildx_creates_missing_builder_witness :
  Buildx.daemon (Sh.run (Buildx.main cloud_buildx) fresh_docker).2
  = {| Buildx.builders := {[ "default" := Buildx.DockerContainer "";
                             "cipher-builder" := Buildx.Cloud "acme/builders" ]};
       Buildx.current := Some "cipher-builder" |}
  /\ (Sh.run (Buildx.main unreachable_cloud) fresh_docker).1 = 1
  /\ docker_commands (Buildx.out (Sh.run (Buildx.main unreachable_cloud) fresh_docker).2)
     = ["buildx inspect ci"; "buildx create --driver cloud --name ci acme/builders"].
Proof.
  split; [| split].
  - destruct (buildx_creates_missing_builder cloud_buildx fresh_docker) as [_ H];
      [vm_compute; reflexivity |].
    destruct (H eq_refl) as (_ & Hb & Hc & _).
    destruct (Buildx.daemon _) as [b c]. simpl in *. rewrite Hb, Hc.
    vm_compute. reflexivity.
  - destruct (buildx_creates_missing_builder unreachable_cloud fresh_docker) as [H _];
      [vm_compute; reflexivity |].
    destruct H as (Hs & _); [discriminate | exact Hs].
  - destruct (buildx_creates_missing_builder unreachable_cloud fresh_docker) as [H _];
      [vm_compute; reflexivity |].
    destruct H as (_ & _ & Hc); [discriminate | exact Hc].
Defined.

(** X22: the script can be run again: after a run that ended with status
    0 the builder exists and is current, and a second run exits with status
    0, creates nothing and leaves docker exactly as the first run left
    it. *)
Theorem buildx_idempotent (o : Buildx.oracle) (s : Buildx.state)
    (Hok : (Sh.run (Buildx.main o) s).1 = 0) :
  let s1 := (Sh.run (Buildx.main o) s).2 in
  is_Some (Buildx.builders (Buildx.daemon s1) !! Buildx.DOCKER_BUILDER o)
  /\ Buildx.current (Buildx.daemon s1) = Some (Buildx.DOCKER_BUILDER o)
  /\ (Sh.run (Buildx.main o) s1).1 = 0
  /\ Buildx.daemon (Sh.run (Buildx.main o) s1).2 = Buildx.daemon s1
  /\ docker_commands (Buildx.out (Sh.run (Buildx.main o) s1).2)
     = (docker_commands (Buildx.out s1) ++ [inspect_line o; use_line o; inspect_line o])%list.
Proof.
  intros s1.
  assert (H1 : is_Some (Buildx.builders (Buildx.daemon s1) !! Buildx.DOCKER_BUILDER o)
               /\ Buildx.current (Buildx.daemon s1) = Some (Buildx.DOCKER_BUILDER o)).
  { subst s1.
    destruct (Buildx.builders (Buildx.daemon s) !! Buildx.DOCKER_BUILDER o) as [d |] eqn:Hb.
    - destruct (buildx_main_existing o s) as (t & _ & Hrun);
        [rewrite Hb; eexists; reflexivity |].
      unfold Sh.run. rewrite Hrun. simpl. rewrite Hb. split; [eexists |]; reflexivity.
    - destruct (buildx_main_missing o s Hb) as (t & _ & Hrun).
      unfold Sh.run in *. rewrite Hrun in *. simpl in *.
      destruct (Buildx.create_status o =? 0) eqn:Hst; simpl in *.
      + rewrite lookup_insert_eq. split; [eexists |]; reflexivity.
      + apply Z.eqb_neq in Hst. contradiction. }
  destruct H1 as [Hex Hcur]. split; [exact Hex |]. split; [exact Hcur |].
  destruct (buildx_main_existing o s1 Hex) as (t & Ht & Hrun).
  unfold Sh.run. rewrite Hrun. simpl.
  unfold docker_commands in *. rewrite omap_app, Ht.
  split; [reflexivity |]. split; [| reflexivity].
  destruct (Buildx.daemon s1) as [b c]. simpl in *. now rewrite Hcur.
Qed.

Lemma buildx_idempotent_witness :
  Buildx.daemon (Sh.run (Buildx.main local_buildx)
                   (Sh.run (Buildx.main local_buildx) fresh_docker).2).2
  = Buildx.daemon (Sh.run (Buildx.main local_buildx) fresh_docker).2.
Proof.
  destruct (buildx_idempotent local_buildx fresh_docker) as (_ & _ & _ & H & _).
  - vm_compute. reflexivity.
  - exact H.
Defined.

(** * The TypeScript import fixers *)

Local Open Scope list_scope.

(** ** String methods *)

Lemma startsWith_app (p s : Js.str) : Js.startsWith (p ++ s) p = true.
Proof. induction p as [| c p IH]; simpl; [reflexivity |]. now rewrite N.eqb_refl. Qed.

Lemma startsWith_inv (s p : Js.str) :
  Js.startsWith s p = true -> s = p ++ drop (length p) s.
Proof.
  revert s. induction p as [| c p IH]; intros s H; simpl in *; [reflexivity |].
  destruct s as [| d s]; [discriminate |].
  apply andb_true_iff in H as [Hc Hp]. apply N.eqb_eq in Hc as ->.
  simpl. f_equal. apply IH, Hp.
Qed.

Lemma includes_here (s needle : Js.str) :
  Js.startsWith s needle = true -> Js.includes s needle = true.
Proof. destruct s; simpl; intros H; [exact H | now rewrite H]. Qed.

Lemma includes_app (a b needle : Js.str) :
  Js.includes b needle = true -> Js.includes (a ++ b) needle = true.
Proof.
  induction a as [| c a IH]; simpl; intros H; [exact H |].
  rewrite (IH H). apply orb_true_r.
Qed.

Lemma split_nonempty (sep : N) (s : Js.str) : Js.split sep s <> [].
Proof.
  induction s as [| c s IH]; simpl; [discriminate |].
  destruct (N.eqb c sep); [discriminate |]. destruct (Js.split sep s); discriminate.
Qed.

Lemma split_no_sep (sep : N) (s : Js.str) : Forall (fun piece => sep ∉ piece) (Js.split sep s).
Proof.
  induction s as [| c s IH]; simpl.
  - constructor; [apply not_elem_of_nil | constructor].
  - destruct (N.eqb_spec c sep) as [-> | Hne].
    + constructor; [apply not_elem_of_nil | exact IH].
    + destruct (Js.split sep s) as [| piece pieces].
      * constructor; [| constructor]. intros Hin. apply list_elem_of_singleton in Hin.
        congruence.
      * inversion IH as [| ? ? Hp Hps]; subst. constructor; [| exact Hps].
        intros Hin. apply elem_of_cons in Hin as [-> | Hin]; [congruence | contradiction].
Qed.

Lemma join_split (sep : N) (s : Js.str) : Js.join sep (Js.split sep s) = s.
Proof.
  induction s as [| c s IH]; simpl; [reflexivity |].
  pose proof (split_nonempty sep s) as Hne.
  destruct (N.eqb_spec c sep) as [-> | Hc].
  - simpl. destruct (Js.split sep s) as [| piece pieces]; [contradiction |].
    simpl in *. now rewrite IH.
  - destruct (Js.split sep s) as [| piece pieces]; [contradiction |].
    simpl in *. destruct pieces; simpl in *; now rewrite <- IH.
Qed.

Lemma split_piece (sep : N) (piece s : Js.str) :
  sep ∉ piece ->
  Js.split sep (piece ++ sep :: s) = piece :: Js.split sep s.
Proof.
  induction piece as [| c piece IH]; intros Hno; simpl.
  - now rewrite N.eqb_refl.
  - apply not_elem_of_cons in Hno as [Hc Hp].
    destruct (N.eqb_spec c sep) as [-> | _]; [contradiction |].
    now rewrite (IH Hp).
Qed.

Lemma split_whole (sep : N) (piece : Js.str) : sep ∉ piece -> Js.split sep piece = [piece].
Proof.
  induction piece as [| c piece IH]; intros Hno; simpl; [reflexivity |].
  apply not_elem_of_cons in Hno as [Hc Hp].
  destruct (N.eqb_spec c sep) as [-> | _]; [contradiction |].
  now rewrite (IH Hp).
Qed.

Lemma split_join (sep : N) (pieces : list Js.str) :
  pieces <> [] -> Forall (fun piece => sep ∉ piece) pieces ->
  Js.split sep (Js.join sep pieces) = pieces.
Proof.
  induction pieces as [| piece pieces IH]; intros Hne Hall; [contradiction |].
  inversion Hall as [| ? ? Hp Hps]; subst.
  destruct pieces as [| piece' pieces].
  - simpl. apply split_whole, Hp.
  - change (Js.join sep (piece :: piece' :: pieces))
      with (piece ++ sep :: Js.join sep (piece' :: pieces)).
    rewrite (split_piece _ _ _ Hp). f_equal. apply IH; [discriminate | exact Hps].
Qed.

Lemma trimStart_sub (s : Js.str) (c : N) : c ∈ Js.trimStart s -> c ∈ s.
Proof.
  induction s as [| d s IH]; simpl; [auto |].
  destruct (Js.is_space d); [| auto]. intros H. apply elem_of_cons. right. apply IH, H.
Qed.

Lemma trim_sub (s : Js.str) (c : N) : c ∈ Js.trim s -> c ∈ s.
Proof.
  unfold Js.trim, Js.trimEnd. intros H.
  rewrite list_elem_of_In, <- in_rev, <- list_elem_of_In in H.
  apply trimStart_sub in H.
  rewrite list_elem_of_In, <- in_rev, <- list_elem_of_In in H.
  apply trimStart_sub, H.
Qed.

Lemma trimStart_spaces (ws s : Js.str) :
  forallb Js.is_space ws = true -> Js.trimStart (ws ++ s) = Js.trimStart s.
Proof.
  induction ws as [| c ws IH]; simpl; [reflexivity |].
  intros H. apply andb_true_iff in H as [-> Hws]. apply IH, Hws.
Qed.

(** ** The pattern matcher *)

Lemma backtrack_some {A : Type} (attempt : nat -> option A) (least k : nat) (r : A) :
  Regex.backtrack attempt least k = Some r ->
  exists j, (least <= j <= k)%nat /\ attempt j = Some r.
Proof.
  induction k as [| k IH]; simpl.
  - destruct (Nat.ltb_spec 0 least); [discriminate |].
    destruct (attempt 0%nat) eqn:Ha; [| discriminate].
    intros [= ->]. exists 0%nat. split; [lia | exact Ha].
  - destruct (Nat.ltb_spec (S k) least); [discriminate |].
    destruct (attempt (S k)) eqn:Ha.
    + intros [= ->]. exists (S k). split; [lia | exact Ha].
    + intros Hb. destruct (IH Hb) as (j & Hj & Hr). exists j. split; [lia | exact Hr].
Qed.

Lemma backtrack_complete {A : Type} (attempt : nat -> option A) (least k j : nat) :
  (least <= j <= k)%nat -> is_Some (attempt j) ->
  is_Some (Regex.backtrack attempt least k).
Proof.
  intros Hj Hs. induction k as [| k IH]; simpl.
  - assert (j = 0%nat) as -> by lia.
    destruct (Nat.ltb_spec 0 least); [lia |].
    destruct Hs as [r ->]. eexists. reflexivity.
  - destruct (Nat.ltb_spec (S k) least); [lia |].
    destruct (attempt (S k)) eqn:Ha; [eexists; reflexivity |].
    apply IH. destruct (decide (j = S k)) as [-> | Hne]; [| lia].
    rewrite Ha in Hs. destruct Hs as [? Hs]. discriminate Hs.
Qed.

Lemma span_take (p : N -> bool) (s : Js.str) (k : nat) :
  (k <= Regex.span p s)%nat -> forallb p (take k s) = true /\ length (take k s) = k.
Proof.
  revert k. induction s as [| c s IH]; intros k Hk; simpl in *.
  - assert (k = 0%nat) as -> by lia. split; reflexivity.
  - destruct k as [| k]; [split; reflexivity |]. simpl.
    destruct (p c); [| lia].
    destruct (IH k) as [Hp Hl]; [lia |]. rewrite Hp, Hl. split; reflexivity.
Qed.

Lemma run_sound (segs : list Regex.seg) (input : Js.str) (texts : list Js.str) (rest : Js.str) :
  Regex.run segs input = Some (texts, rest) ->
  Forall2 seg_ok segs texts /\ input = concat texts ++ rest.
Proof.
  revert input texts rest.
  induction segs as [| sg segs IH]; intros input texts rest; simpl.
  - intros [= <- <-]. split; [constructor | reflexivity].
  - destruct sg as [s | p q].
    + destruct (Js.startsWith input s) eqn:Hs; [| discriminate].
      destruct (Regex.run segs (drop (length s) input)) as [[texts' rest'] |] eqn:Hrun;
        [| discriminate].
      simpl. intros [= <- <-]. destruct (IH _ _ _ Hrun) as [Hall Hin].
      split; [constructor; [reflexivity | exact Hall] |].
      simpl. rewrite <- app_assoc, <- Hin. apply startsWith_inv, Hs.
    + assert (Hgreedy : forall least,
        Regex.backtrack
          (fun k => (fun r => (take k input :: r.1, r.2)) <$> Regex.run segs (drop k input))
          least (Regex.span p input) = Some (texts, rest) ->
        exists t texts', texts = t :: texts' /\ (least <= length t)%nat
                         /\ forallb p t = true /\ Forall2 seg_ok segs texts'
                         /\ input = concat texts ++ rest).
      { intros least Hb. apply backtrack_some in Hb as (j & Hj & Hr).
        destruct (Regex.run segs (drop j input)) as [[texts' rest'] |] eqn:Hrun;
          [| discriminate].
        simpl in Hr. injection Hr as <- <-.
        destruct (IH _ _ _ Hrun) as [Hall Hin].
        destruct (span_take p input j) as [Hp Hl]; [lia |].
        exists (take j input), texts'. split; [reflexivity |].
        split; [lia |]. split; [exact Hp |]. split; [exact Hall |].
        simpl. rewrite <- app_assoc, <- Hin. symmetry. apply take_drop. }
      destruct q.
      * destruct input as [| c input']; [discriminate |].
        destruct (p c) eqn:Hc; [| discriminate].
        destruct (Regex.run segs input') as [[texts' rest'] |] eqn:Hrun; [| discriminate].
        simpl. intros [= <- <-]. destruct (IH _ _ _ Hrun) as [Hall Hin].
        split; [constructor; [exists c; split; [reflexivity | exact Hc] | exact Hall] |].
        simpl. now rewrite <- Hin.
      * intros Hb. destruct (Hgreedy _ Hb) as (t & texts' & -> & _ & Hp & Hall & Hin).
        split; [constructor; [exact Hp | exact Hall] | exact Hin].
      * intros Hb. destruct (Hgreedy _ Hb) as (t & texts' & -> & Hlen & Hp & Hall & Hin).
        split; [constructor; [| exact Hall] | exact Hin].
        split; [| exact Hp]. intros ->. simpl in Hlen. lia.
Qed.

Lemma run_prefix (a b : list Regex.seg) (input : Js.str) :
  is_Some (Regex.run (a ++ b) input) -> is_Some (Regex.run a input).
Proof.
  revert input. induction a as [| sg a IH]; intros input; simpl.
  - intros _. eexists. reflexivity.
  - destruct sg as [s | p q].
    + destruct (Js.startsWith input s); [| intros [? H]; discriminate H].
      intros Hs. rewrite fmap_is_Some in *. apply IH, Hs.
    + assert (Hgreedy : forall least,
        is_Some (Regex.backtrack
          (fun k => (fun r => (take k input :: r.1, r.2)) <$> Regex.run (a ++ b) (drop k input))
          least (Regex.span p input)) ->
        is_Some (Regex.backtrack
          (fun k => (fun r => (take k input :: r.1, r.2)) <$> Regex.run a (drop k input))
          least (Regex.span p input))).
      { intros least [r Hb]. apply backtrack_some in Hb as (j & Hj & Hr).
        apply (backtrack_complete _ _ _ j Hj).
        rewrite fmap_is_Some. apply IH.
        apply (fmap_is_Some (fun r => (take j input :: r.1, r.2))).
        rewrite Hr. eexists. reflexivity. }
      destruct q; [| apply Hgreedy | apply Hgreedy].
      destruct input as [| c input']; [intros [? H]; discriminate H |].
      destruct (p c); [| intros [? H]; discriminate H].
      intros Hs. rewrite fmap_is_Some in *. apply IH, Hs.
Qed.

(** ** fix-type-imports.ts *)

Ltac forall2_inv H :=
  repeat match type of H with
         | Forall2 _ (_ :: _) _ =>
             let t := fresh "t" in let ts := fresh "ts" in
             let Ht := fresh "Ht" in
             apply Forall2_cons_inv_l in H as (t & ts & Ht & H & ->)
         | Forall2 _ [] _ => apply Forall2_nil_inv_l in H as ->
         end.

Lemma importMatch_shape (line indent imports from : Js.str) :
  FixTypeImports.importMatch line = Some (indent, imports, from) ->
  exists ws1 ws2 ws3 ws4 ws5 q1 specifier q2 rest,
    line = indent ++ Js.lit "import" ++ ws1 ++ Js.lit "{" ++ ws2 ++ imports ++ ws3
           ++ Js.lit "}" ++ ws4 ++ Js.lit "from" ++ ws5 ++ from ++ rest
    /\ forallb Js.is_space indent = true
    /\ from = q1 :: specifier ++ [q2]
    /\ FixTypeImports.quote q1 = true /\ FixTypeImports.quote q2 = true.
Proof.
  unfold FixTypeImports.importMatch.
  destruct (Regex.run FixTypeImports.importPattern line) as [[texts rest] |] eqn:Hrun;
    [| discriminate].
  apply run_sound in Hrun as [Hall Hline].
  unfold FixTypeImports.importPattern in Hall. forall2_inv Hall.
  intros [= <- <- <-]. cbn [seg_ok] in *.
  destruct Ht10 as (q1 & -> & Hq1). destruct Ht12 as (q2 & -> & Hq2).
  subst. exists t1, t3, t5, t7, t9, q1, t11, q2, rest.
  split; [| split; [assumption | split; [reflexivity | split; assumption]]].
  cbn [concat]. rewrite ?app_nil_r, <- ?app_assoc. reflexivity.
Qed.

Lemma fixedLine_skip (line : Js.str) :
  Js.includes line import_type = true -> FixTypeImports.fixedLine line = None.
Proof.
  intros H. unfold FixTypeImports.fixedLine.
  destruct (FixTypeImports.importMatch line) as [[[indent imports] from] |]; [| reflexivity].
  fold import_type. now rewrite H.
Qed.

Lemma fixedLine_form (line fixed : Js.str) :
  FixTypeImports.fixedLine line = Some fixed ->
  exists indent imports from,
    FixTypeImports.importMatch line = Some (indent, imports, from)
    /\ Js.includes line import_type = false
    /\ fixed = indent ++ Js.lit "import type { " ++ Js.trim imports
               ++ Js.lit " } from " ++ from.
Proof.
  unfold FixTypeImports.fixedLine.
  destruct (FixTypeImports.importMatch line) as [[[indent imports] from] |]; [| discriminate].
  fold import_type. destruct (Js.includes line import_type); [discriminate |].
  destruct (FixTypeImports.isLikelyTypeImport imports from); [| discriminate].
  intros [= <-]. exists indent, imports, from. repeat split; reflexivity.
Qed.

Lemma fixedLine_includes (line fixed : Js.str) :
  FixTypeImports.fixedLine line = Some fixed -> Js.includes fixed import_type = true.
Proof.
  intros H. apply fixedLine_form in H as (indent & imports & from & _ & _ & ->).
  apply includes_app, includes_here.
  change (Js.lit "import type { ") with (import_type ++ Js.lit " { ").
  rewrite <- app_assoc. apply startsWith_app.
Qed.

Lemma fixedLine_no_newline (line fixed : Js.str) :
  no_newline line -> FixTypeImports.fixedLine line = Some fixed -> no_newline fixed.
Proof.
  intros Hno H. apply fixedLine_form in H as (indent & imports & from & Hm & _ & ->).
  apply importMatch_shape in Hm
    as (ws1 & ws2 & ws3 & ws4 & ws5 & q1 & sp & q2 & rest & Hline & _ & Hfrom & _).
  unfold no_newline in *. rewrite Hline in Hno.
  rewrite !elem_of_app in *. intros [H | [H | [H | [H | H]]]].
  - apply Hno. tauto.
  - vm_compute in H. repeat (apply elem_of_cons in H as [H | H]; [discriminate H |]).
    now apply elem_of_nil in H.
  - apply trim_sub in H. apply Hno. tauto.
  - vm_compute in H. repeat (apply elem_of_cons in H as [H | H]; [discriminate H |]).
    now apply elem_of_nil in H.
  - apply Hno. tauto.
Qed.

Lemma rewritten_settled (line : Js.str) : FixTypeImports.fixedLine (rewritten line) = None.
Proof.
  unfold rewritten. destruct (FixTypeImports.fixedLine line) as [fixed |] eqn:H; simpl.
  - apply fixedLine_skip. apply (fixedLine_includes _ _ H).
  - exact H.
Qed.

Lemma rewritten_no_newline (line : Js.str) : no_newline line -> no_newline (rewritten line).
Proof.
  intros Hno. unfold rewritten.
  destruct (FixTypeImports.fixedLine line) as [fixed |] eqn:H; simpl; [| exact Hno].
  apply (fixedLine_no_newline _ _ Hno H).
Qed.

Lemma loop_spec (filePath : string) (lines : list Js.str) :
  forall i newLines fixes modified,
    FixTypeImports.loop filePath i lines newLines fixes modified
    = (newLines ++ (rewritten <$> lines), fixes ++ fixes_from filePath i lines,
       modified || existsb needs_fix lines).
Proof.
  induction lines as [| line lines IH]; intros i newLines fixes modified; simpl.
  - now rewrite !app_nil_r, orb_false_r.
  - unfold rewritten at 1, needs_fix at 1.
    destruct (FixTypeImports.fixedLine line) as [fixed |] eqn:Hfix; simpl.
    + rewrite IH, <- !app_assoc. simpl. now rewrite orb_true_r.
    + rewrite IH, <- !app_assoc. reflexivity.
Qed.

Lemma settled_lines (lines : list Js.str) :
  existsb needs_fix lines = false ->
  rewritten <$> lines = lines /\ forall filePath i, fixes_from filePath i lines = [].
Proof.
  induction lines as [| line lines IH]; [split; reflexivity |].
  intros H. simpl in H. apply orb_false_iff in H as [Hl Hls].
  unfold needs_fix in Hl. apply bool_decide_eq_false in Hl.
  destruct (IH Hls) as [Hmap Hfix].
  assert (Hnone : FixTypeImports.fixedLine line = None).
  { destruct (FixTypeImports.fixedLine line); [exfalso; apply Hl; eexists |]; reflexivity. }
  split.
  - rewrite fmap_cons, Hmap. unfold rewritten. now rewrite Hnone.
  - intros filePath i. simpl. rewrite Hnone. apply Hfix.
Qed.

Lemma rewritten_lines_settled (lines : list Js.str) :
  existsb needs_fix (rewritten <$> lines) = false.
Proof.
  induction lines as [| line lines IH]; [reflexivity |].
  rewrite fmap_cons. cbn [existsb]. rewrite IH, orb_false_r. unfold needs_fix.
  apply bool_decide_eq_false_2. rewrite rewritten_settled. intros [? H]. discriminate H.
Qed.

(** What one call of [fixFileImports] does to a file that exists. *)
Lemma fixFileImports_run (filePath : string) (s : FixTypeImports.state) (content : Js.str) :
  FixTypeImports.files s !! filePath = Some content ->
  let lines := Js.split Js.newline content in
  let modified := existsb needs_fix lines in
  FixTypeImports.fixFileImports filePath s
  = (Done modified,
     {| FixTypeImports.files :=
          if modified
          then <[filePath := Js.join Js.newline (rewritten <$> lines)]> (FixTypeImports.files s)
          else FixTypeImports.files s;
        FixTypeImports.fixes := FixTypeImports.fixes s ++ fixes_from filePath 0 lines;
        FixTypeImports.filesProcessed := FixTypeImports.filesProcessed s + 1;
        FixTypeImports.filesModified :=
          if modified then FixTypeImports.filesModified s + 1
          else FixTypeImports.filesModified s;
        FixTypeImports.out := FixTypeImports.out s |}).
Proof.
  intros Hfile lines modified. unfold FixTypeImports.fixFileImports.
  unfold mbind, mret, sh_bind, sh_ret, Sh.bind, Sh.ret, Sh.get, Sh.modify.
  rewrite Hfile. fold lines. rewrite loop_spec. simpl. reflexivity.
Qed.

Lemma split_rewritten (content : Js.str) :
  Js.split Js.newline (Js.join Js.newline (rewritten <$> Js.split Js.newline content))
  = rewritten <$> Js.split Js.newline content.
Proof.
  apply split_join.
  - pose proof (split_nonempty Js.newline content) as Hne.
    destruct (Js.split Js.newline content); [contradiction | discriminate].
  - apply Forall_fmap. eapply Forall_impl; [apply split_no_sep |].
    intros line Hno. apply rewritten_no_newline, Hno.
Qed.

(** X23: the first import fixer can be run again on its own output: a
    second call of [fixFileImports] on the same file finds nothing to fix,
    writes nothing and records no new fix. *)
Theorem fix_type_imports_idempotent (filePath : string) (s s1 : FixTypeImports.state)
    (modified : bool)
    (Hrun : FixTypeImports.fixFileImports filePath s = (Done modified, s1)) :
  exists s2,
    FixTypeImports.fixFileImports filePath s1 = (Done false, s2)
    /\ FixTypeImports.files s2 = FixTypeImports.files s1
    /\ FixTypeImports.fixes s2 = FixTypeImports.fixes s1
    /\ FixTypeImports.filesModified s2 = FixTypeImports.filesModified s1.
Proof.
  destruct (FixTypeImports.files s !! filePath) as [content |] eqn:Hfile.
  - rewrite (fixFileImports_run _ _ _ Hfile) in Hrun. cbv zeta in Hrun.
    injection Hrun as Hm Hs1.
    set (lines := Js.split Js.newline content) in *.
    assert (Hnext : exists content1,
      FixTypeImports.files s1 !! filePath = Some content1
      /\ existsb needs_fix (Js.split Js.newline content1) = false).
    { subst s1. simpl. destruct (existsb needs_fix lines) eqn:Hex.
      - eexists. split; [apply lookup_insert_eq |].
        unfold lines. rewrite split_rewritten. apply rewritten_lines_settled.
      - exists content. split; [exact Hfile | exact Hex]. }
    destruct Hnext as (content1 & Hfile1 & Hsettled).
    rewrite (fixFileImports_run _ _ _ Hfile1). cbv zeta. rewrite Hsettled.
    eexists. split; [reflexivity |]. simpl.
    destruct (settled_lines _ Hsettled) as [_ Hnone]. rewrite Hnone, app_nil_r.
    repeat split; reflexivity.
  - unfold FixTypeImports.fixFileImports in Hrun.
    unfold mbind, sh_bind, Sh.bind, Sh.get in Hrun. rewrite Hfile in Hrun.
    discriminate Hrun.
Qed.

Lemma fix_type_imports_idempotent_witness :
  exists s2,
    FixTypeImports.fixFileImports "src/agent.ts"
      (FixTypeImports.fixFileImports "src/agent.ts" (FixTypeImports.initial sample_files)).2
    = (Done false, s2).
Proof.
  destruct (fix_type_imports_idempotent "src/agent.ts" (FixTypeImports.initial sample_files)
              (FixTypeImports.fixFileImports "src/agent.ts"
                 (FixTypeImports.initial sample_files)).2 true) as (s2 & H & _).
  - vm_compute. reflexivity.
  - exists s2. exact H.
Defined.

Lemma not_an_import (line : Js.str) :
  Js.startsWith (Js.trimStart line) (Js.lit "import") = false ->
  FixTypeImports.fixedLine line = None.
Proof.
  intros Hstart. destruct (FixTypeImports.fixedLine line) as [fixed |] eqn:Hfix; [| reflexivity].
  apply fixedLine_form in Hfix as (indent & imports & from & Hm & _ & _).
  apply importMatch_shape in Hm
    as (ws1 & ws2 & ws3 & ws4 & ws5 & q1 & sp & q2 & rest & Hline & Hindent & _).
  rewrite Hline, (trimStart_spaces _ _ Hindent) in Hstart.
  change (Js.lit "import") with (105%N :: Js.lit "mport") in Hstart at 1.
  cbn [app Js.trimStart] in Hstart.
  change (Js.is_space 105) with false in Hstart. cbv iota in Hstart.
  change (105%N :: Js.lit "mport" ++ ?x) with (Js.lit "import" ++ x) in Hstart.
  rewrite startsWith_app in Hstart. discriminate Hstart.
Qed.

(** X24: [fixFileImports] leaves the number of lines of the file as it is,
    keeps every line that contains the text import type or whose first
    non-blank text is not the word import, and touches no other file. *)
Theorem fix_type_imports_keeps_lines (filePath : string) (s : FixTypeImports.state)
    (content : Js.str)
    (Hfile : FixTypeImports.files s !! filePath = Some content) :
  exists modified s1 content1,
    FixTypeImports.fixFileImports filePath s = (Done modified, s1)
    /\ FixTypeImports.files s1 !! filePath = Some content1
    /\ length (Js.split Js.newline content1) = length (Js.split Js.newline content)
    /\ (forall i line,
          Js.split Js.newline content !! i = Some line ->
          Js.includes line import_type = true
          \/ Js.startsWith (Js.trimStart line) (Js.lit "import") = false ->
          Js.split Js.newline content1 !! i = Some line)
    /\ (forall other, other <> filePath ->
          FixTypeImports.files s1 !! other = FixTypeImports.files s !! other).
Proof.
  rewrite (fixFileImports_run _ _ _ Hfile). cbv zeta.
  set (lines := Js.split Js.newline content).
  assert (Hkept : forall i line, lines !! i = Some line ->
            Js.includes line import_type = true
            \/ Js.startsWith (Js.trimStart line) (Js.lit "import") = false ->
            (rewritten <$> lines) !! i = Some line).
  { intros i line Hi Hcond. rewrite list_lookup_fmap, Hi. simpl. f_equal.
    unfold rewritten.
    destruct Hcond as [H | H]; [rewrite (fixedLine_skip _ H) | rewrite (not_an_import _ H)];
      reflexivity. }
  destruct (existsb needs_fix lines) eqn:Hex.
  - eexists _, _, _. split; [reflexivity |]. simpl.
    split; [apply lookup_insert_eq |]. unfold lines. rewrite split_rewritten.
    split; [apply length_fmap |]. split; [exact Hkept |].
    intros other Hne. apply lookup_insert_ne. congruence.
  - eexists _, _, _. split; [reflexivity |]. simpl.
    split; [exact Hfile |]. split; [reflexivity |]. split; [intros; assumption |].
    reflexivity.
Qed.

Lemma fix_type_imports_keeps_lines_witness :
  exists s1 content1,
    (FixTypeImports.fixFileImports "src/agent.ts" (FixTypeImports.initial sample_files)).2 = s1
    /\ FixTypeImports.files s1 !! "src/agent.ts" = Some content1
    /\ Js.split Js.newline content1 !! 3%nat = Some (Js.lit "import type { Tool } from './tool';")
    /\ FixTypeImports.files s1 !! "src/run.ts" = Some (Js.lit "export const run = 1;").
Proof.
  destruct (fix_type_imports_keeps_lines "src/agent.ts" (FixTypeImports.initial sample_files)
              sample_source) as (m & s1 & content1 & Hrun & Hfile & _ & Hkept & Hother).
  - vm_compute. reflexivity.
  - exists s1, content1. rewrite Hrun. split; [reflexivity |]. split; [exact Hfile |].
    split.
    + apply Hkept; [vm_compute; reflexivity | left; vm_compute; reflexivity].
    + rewrite Hother by discriminate. vm_compute. reflexivity.
Defined.

(** X25: a line that the first fixer rewrites is replaced by its
    indentation, import type, the trimmed list of names in braces, from, and
    the quoted module specifier: the new line ends with the closing quote of
    the specifier, and what the old line had after it is not carried
    over. *)
Theorem fix_type_imports_cuts_after_specifier (line fixed : Js.str)
    (Hfix : FixTypeImports.fixedLine line = Some fixed) :
  exists indent imports from before rest closing,
    line = before ++ from ++ rest
    /\ Js.startsWith before (indent ++ Js.lit "import") = true
    /\ forallb Js.is_space indent = true
    /\ fixed = indent ++ Js.lit "import type { " ++ Js.trim imports
               ++ Js.lit " } from " ++ from
    /\ last fixed = Some closing
    /\ FixTypeImports.quote closing = true.
Proof.
  apply fixedLine_form in Hfix as (indent & imports & from & Hm & _ & ->).
  apply importMatch_shape in Hm
    as (ws1 & ws2 & ws3 & ws4 & ws5 & q1 & sp & q2 & rest & Hline & Hindent & Hfrom & _ & Hq2).
  exists indent, imports, from,
    (indent ++ Js.lit "import" ++ ws1 ++ Js.lit "{" ++ ws2 ++ imports ++ ws3
     ++ Js.lit "}" ++ ws4 ++ Js.lit "from" ++ ws5), rest, q2.
  split; [rewrite Hline, <- !app_assoc; reflexivity |].
  split; [rewrite (app_assoc indent); apply startsWith_app |].
  split; [exact Hindent |]. split; [reflexivity |]. split; [| exact Hq2].
  rewrite Hfrom.
  change (q1 :: sp ++ [q2]) with ((q1 :: sp) ++ [q2]).
  rewrite !app_assoc. apply last_snoc.
Qed.

Lemma fix_type_imports_cuts_after_specifier_witness :
  exists fixed closing,
    FixTypeImports.fixedLine (Js.lit "import { AgentConfig } from './config'; // settings")
    = Some fixed
    /\ show fixed = "import type { AgentConfig } from './config'"
    /\ last fixed = Some closing
    /\ FixTypeImports.quote closing = true.
Proof.
  assert (Hfix : FixTypeImports.fixedLine
                   (Js.lit "import { AgentConfig } from './config'; // settings")
                 = Some (Js.lit "import type { AgentConfig } from './config'"))
    by (vm_compute; reflexivity).
  destruct (fix_type_imports_cuts_after_specifier _ _ Hfix)
    as (indent & imports & from & before & rest & closing & _ & _ & _ & _ & Hlast & Hq).
  exists (Js.lit "import type { AgentConfig } from './config'"), closing.
  split; [exact Hfix |]. split; [vm_compute; reflexivity |].
  split; [exact Hlast | exact Hq].
Defined.

Lemma fixes_from_nonempty (filePath : string) (lines : list Js.str) (i : Z) :
  existsb needs_fix lines = true -> (1 <= length (fixes_from filePath i lines))%nat.
Proof.
  revert i. induction lines as [| line lines IH]; intros i; simpl; [discriminate |].
  unfold needs_fix at 1.
  destruct (FixTypeImports.fixedLine line) as [fixed |]; simpl; [lia |].
  intros H. apply IH, H.
Qed.

Lemma for_each_fixFileImports (found : list string) :
  forall s,
    (forall f, f ∈ found -> is_Some (FixTypeImports.files s !! f)) ->
    exists s',
      for_each found (fun file => _ ← FixTypeImports.fixFileImports file; mret tt) s
      = (Done tt, s')
      /\ FixTypeImports.filesProcessed s'
         = FixTypeImports.filesProcessed s + Z.of_nat (length found)
      /\ FixTypeImports.filesModified s <= FixTypeImports.filesModified s'
         <= FixTypeImports.filesModified s + Z.of_nat (length found)
      /\ FixTypeImports.filesModified s' - FixTypeImports.filesModified s
         <= Z.of_nat (length (FixTypeImports.fixes s'))
            - Z.of_nat (length (FixTypeImports.fixes s))
      /\ FixTypeImports.out s' = FixTypeImports.out s.
Proof.
  induction found as [| file found IH]; intros s Hall.
  - exists s. simpl. split; [reflexivity |]. repeat split; (lia || reflexivity).
  - destruct (Hall file) as [content Hfile]; [apply elem_of_cons; left; reflexivity |].
    pose proof (fixFileImports_run _ _ _ Hfile) as Hrun. cbv zeta in Hrun.
    set (lines := Js.split Js.newline content) in *.
    match type of Hrun with _ = (_, ?w) => set (s1 := w) in * end.
    destruct (IH s1) as (s' & Hloop & Hp & Hm & Hf & Ho).
    { intros f Hf. destruct (Hall f) as [c Hc]; [apply elem_of_cons; right; exact Hf |].
      subst s1. simpl. destruct (existsb needs_fix lines); [| eexists; exact Hc].
      destruct (decide (f = file)) as [-> | Hne].
      - rewrite lookup_insert_eq. eexists. reflexivity.
      - rewrite lookup_insert_ne by congruence. eexists. exact Hc. }
    exists s'. split.
    { cbn [for_each]. unfold mbind, mret, sh_bind, sh_ret, Sh.bind, Sh.ret in *.
      rewrite Hrun. exact Hloop. }
    pose proof (fixes_from_nonempty file lines 0) as Hne.
    subst s1. simpl in *. rewrite length_app in Hf.
    destruct (existsb needs_fix lines); [specialize (Hne eq_refl) |];
      repeat split; (lia || exact Ho).
Qed.

Lemma for_each_fixFileImports_missing (found : list string) :
  forall s,
    (exists f, f ∈ found /\ FixTypeImports.files s !! f = None) ->
    (for_each found (fun file => _ ← FixTypeImports.fixFileImports file; mret tt) s).1
    = Exited 1.
Proof.
  induction found as [| file found IH]; intros s (f & Hin & Hnone).
  - now apply elem_of_nil in Hin.
  - cbn [for_each]. unfold mbind, mret, sh_bind, sh_ret, Sh.bind, Sh.ret in *.
    destruct (FixTypeImports.files s !! file) as [content |] eqn:Hfile.
    + pose proof (fixFileImports_run _ _ _ Hfile) as Hrun. cbv zeta in Hrun.
      rewrite Hrun. apply IH. exists f.
      apply elem_of_cons in Hin as [-> | Hin]; [congruence |].
      split; [exact Hin |]. simpl.
      destruct (existsb needs_fix _); [| exact Hnone].
      rewrite lookup_insert_ne; [exact Hnone | congruence].
    + unfold FixTypeImports.fixFileImports, FixTypeImports.throw.
      unfold mbind, sh_bind, Sh.bind, Sh.get, Sh.exit. rewrite Hfile. reflexivity.
Qed.

Lemma for_each_log_samples (samples : list (Z * FixTypeImports.ImportFix)) :
  forall s,
    exists s',
      for_each samples (fun sample => FixTypeImports.log
                                        (FixTypeImports.Sample sample.1 sample.2)) s
      = (Done tt, s')
      /\ FixTypeImports.filesProcessed s' = FixTypeImports.filesProcessed s
      /\ FixTypeImports.filesModified s' = FixTypeImports.filesModified s
      /\ FixTypeImports.fixes s' = FixTypeImports.fixes s
      /\ FixTypeImports.files s' = FixTypeImports.files s
      /\ FixTypeImports.out s'
         = FixTypeImports.out s
           ++ ((fun sample => FixTypeImports.Sample sample.1 sample.2) <$> samples).
Proof.
  induction samples as [| sample samples IH]; intros s.
  - exists s. simpl. rewrite app_nil_r. repeat split; reflexivity.
  - cbn [for_each]. unfold FixTypeImports.log at 1. unfold Sh.bind, Sh.modify.
    match goal with |- context [for_each samples ?body ?w] => destruct (IH w)
      as (s' & Hloop & Hp & Hm & Hf & Hfs & Ho) end.
    exists s'. rewrite Hloop. simpl in *. rewrite Ho, <- app_assoc.
    repeat split; assumption || reflexivity.
Qed.

Lemma sh_bind_done {S A B : Type} (m : sh S A) (k : A -> sh S B) (s s1 : S) (a : A) :
  m s = (Done a, s1) -> (m ≫= k) s = k a s1.
Proof. intros H. unfold mbind, sh_bind, Sh.bind. now rewrite H. Qed.

Lemma sh_bind_exit {S A B : Type} (m : sh S A) (k : A -> sh S B) (s s1 : S) (c : Z) :
  m s = (Exited c, s1) -> (m ≫= k) s = (Exited c, s1).
Proof. intros H. unfold mbind, sh_bind, Sh.bind. now rewrite H. Qed.

(** X26: a run of the first fixer over the files that the glob finds
    processes each of them once: it reports as many files processed as were
    found, at most that many files modified, and at least one fix for each
    modified file; it prints one sample for each of the first ten fixes, and
    the line about further fixes when there are more than ten.  A file
    that cannot be read ends the run with exit status 1. *)
Theorem fix_type_imports_main_counts (fs : gmap string Js.str) (found : list string) :
  ((forall f, f ∈ found -> is_Some (fs !! f)) ->
   exists s',
     FixTypeImports.main found (FixTypeImports.initial fs) = (Done tt, s')
     /\ FixTypeImports.filesProcessed s' = Z.of_nat (length found)
     /\ 0 <= FixTypeImports.filesModified s' <= Z.of_nat (length found)
     /\ FixTypeImports.filesModified s' <= Z.of_nat (length (FixTypeImports.fixes s'))
     /\ take 4 (FixTypeImports.out s')
        = [FixTypeImports.Found (Z.of_nat (length found));
           FixTypeImports.FilesProcessed (Z.of_nat (length found));
           FixTypeImports.FilesModified (FixTypeImports.filesModified s');
           FixTypeImports.TotalFixes (Z.of_nat (length (FixTypeImports.fixes s')))]
     /\ length (FixTypeImports.out s')
        = (4 + Nat.min 10 (length (FixTypeImports.fixes s'))
           + (if Z.ltb 10 (Z.of_nat (length (FixTypeImports.fixes s'))) then 1 else 0))%nat)
  /\ ((exists f, f ∈ found /\ fs !! f = None) ->
      (Sh.run (FixTypeImports.main found) (FixTypeImports.initial fs)).1 = 1).
Proof.
  split.
  - intros Hall. unfold FixTypeImports.main.
    erewrite sh_bind_done by reflexivity. cbv beta.
    match goal with |- context [(for_each found ?body ≫= _) ?w] =>
      destruct (for_each_fixFileImports found w) as (s1 & Hloop & Hp & Hm & Hf & Ho);
        [exact Hall |] end.
    erewrite sh_bind_done by exact Hloop.
    erewrite sh_bind_done by reflexivity.
    do 3 (erewrite sh_bind_done by reflexivity).
    simpl in Hp, Hm, Hf, Ho. cbn [FixTypeImports.fixes].
    cbv beta.
    assert (Hp' : FixTypeImports.filesProcessed s1 = Z.of_nat (length found)) by lia.
    clear Hp.
    destruct (0 <? Z.of_nat (length (FixTypeImports.fixes s1))) eqn:Hany.
    + match goal with |- context [(for_each ?l ?body ≫= _) ?w] =>
        destruct (for_each_log_samples l w) as (s2 & Hl2 & Hp2 & Hm2 & Hf2 & _ & Ho2) end.
      erewrite sh_bind_done by exact Hl2.
      cbn [FixTypeImports.filesProcessed FixTypeImports.filesModified FixTypeImports.fixes
           FixTypeImports.out] in Hp2, Hm2, Hf2, Ho2.
      rewrite Ho, Hp' in Ho2. cbn [app] in Ho2.
      destruct (Z.ltb 10 (Z.of_nat (length (FixTypeImports.fixes s1)))) eqn:Hmore;
        (eexists; split; [reflexivity |]);
        cbn [FixTypeImports.filesProcessed FixTypeImports.filesModified FixTypeImports.fixes
             FixTypeImports.out FixTypeImports.log Sh.modify snd];
        rewrite ?Hp2, ?Hm2, ?Hf2, ?Ho2, ?Hp', ?Hmore;
        (split; [reflexivity |]); (split; [lia |]); (split; [lia |]);
        (split; [reflexivity |]);
        cbn [app length]; rewrite ?length_app, ?length_fmap, ?length_imap, ?length_take;
        cbn [length]; lia.
    + eexists. split; [reflexivity |].
      cbn [FixTypeImports.filesProcessed FixTypeImports.filesModified FixTypeImports.fixes
           FixTypeImports.out].
      rewrite Ho, Hp'. apply Z.ltb_ge in Hany.
      assert (Hlen : length (FixTypeImports.fixes s1) = 0%nat) by lia.
      rewrite Hlen in *. cbn [app].
      split; [reflexivity |]. split; [lia |]. split; [lia |]. split; reflexivity.
  - intros Hmissing. rewrite run_fst. unfold FixTypeImports.main.
    erewrite sh_bind_done by reflexivity. cbv beta.
    match goal with |- context [(for_each found ?body ≫= _) ?w] =>
      pose proof (for_each_fixFileImports_missing found w Hmissing) as Hloop;
      destruct (for_each found body w) as [r w'] eqn:Hfe end.
    simpl in Hloop. subst r.
    erewrite sh_bind_exit by exact Hfe. reflexivity.
Qed.

Lemma fix_type_imports_main_counts_witness :
  exists s',
    FixTypeImports.main ["src/agent.ts"; "src/run.ts"] (FixTypeImports.initial sample_files)
    = (Done tt, s')
    /\ FixTypeImports.filesProcessed s' = 2
    /\ (Sh.run (FixTypeImports.main ["src/gone.ts"]) (FixTypeImports.initial sample_files)).1
       = 1.
Proof.
  destruct (fix_type_imports_main_counts sample_files ["src/agent.ts"; "src/run.ts"])
    as [Hok _].
  destruct Hok as (s' & Hrun & Hp & _).
  - intros f Hf. repeat (apply elem_of_cons in Hf as [-> | Hf]; [vm_compute; eexists; reflexivity |]).
    now apply elem_of_nil in Hf.
  - exists s'. split; [exact Hrun |]. split; [exact Hp |].
    apply (proj2 (fix_type_imports_main_counts sample_files ["src/gone.ts"])).
    exists "src/gone.ts". split; [apply elem_of_cons; left; reflexivity | vm_compute; reflexivity].
Defined.

(** ** fix-type-imports-precise.ts *)

Lemma replaceImport_shape (line : Js.str) :
  precise_needs_fix line = true ->
  exists indent ws rest,
    line = indent ++ Js.lit "import" ++ ws ++ rest
    /\ FixTypeImportsPrecise.replaceImport line = indent ++ Js.lit "import type " ++ rest
    /\ forallb Js.is_space indent = true
    /\ ws <> [] /\ forallb Js.is_space ws = true.
Proof.
  intros Hneeds.
  assert (Hkw : is_Some (Regex.run FixTypeImportsPrecise.importKeyword line)).
  { unfold precise_needs_fix, FixTypeImportsPrecise.matches in Hneeds.
    apply orb_true_iff in Hneeds as [H | H].
    - apply andb_true_iff in H as [H _]. apply bool_decide_eq_true in H.
      apply (run_prefix FixTypeImportsPrecise.importKeyword [Regex.Lit (Js.lit "{")]), H.
    - apply andb_true_iff in H as [H _]. apply andb_true_iff in H as [H _].
      apply bool_decide_eq_true in H.
      apply (run_prefix FixTypeImportsPrecise.importKeyword
               [Regex.Cls Js.is_letter Regex.One]), H. }
  destruct Hkw as [[texts rest] Hrun].
  unfold FixTypeImportsPrecise.replaceImport. rewrite Hrun.
  apply run_sound in Hrun as [Hall Hline].
  unfold FixTypeImportsPrecise.importKeyword in Hall. forall2_inv Hall.
  cbn [seg_ok] in *. subst t0. destruct Ht1 as [Hne Hws].
  exists t, t1, rest. split; [| split; [reflexivity | repeat split; assumption]].
  rewrite Hline. cbn [concat]. rewrite ?app_nil_r, <- ?app_assoc. reflexivity.
Qed.

Lemma replaceImport_includes (line : Js.str) :
  precise_needs_fix line = true ->
  Js.includes (FixTypeImportsPrecise.replaceImport line) import_type = true.
Proof.
  intros H. apply replaceImport_shape in H as (indent & ws & rest & _ & -> & _).
  apply includes_app, includes_here.
  change (Js.lit "import type ") with (import_type ++ Js.lit " ").
  rewrite <- app_assoc. apply startsWith_app.
Qed.

Lemma includes_settled (line : Js.str) :
  Js.includes line import_type = true -> precise_needs_fix line = false.
Proof.
  intros H. unfold precise_needs_fix. rewrite H. simpl.
  now rewrite !andb_false_r.
Qed.

Lemma replaceImport_no_newline (line : Js.str) :
  precise_needs_fix line = true -> no_newline line ->
  no_newline (FixTypeImportsPrecise.replaceImport line).
Proof.
  intros H Hno. apply replaceImport_shape in H as (indent & ws & rest & Hline & -> & _).
  unfold no_newline in *. rewrite Hline in Hno. rewrite !elem_of_app in *.
  intros [H | [H | H]].
  - apply Hno. tauto.
  - vm_compute in H. repeat (apply elem_of_cons in H as [H | H]; [discriminate H |]).
    now apply elem_of_nil in H.
  - apply Hno. tauto.
Qed.

(** One iteration of the loop over the line numbers. *)
Lemma fixLineNumber_spec (lineNum : Z) (lines : list Js.str) (fixCount : Z) :
  let r := FixTypeImportsPrecise.fixLineNumber lineNum (lines, fixCount) in
  length r.1 = length lines
  /\ (forall j line, lines !! j = Some line ->
        r.1 !! j = Some (if bool_decide (Z.of_nat j + 1 = lineNum) && precise_needs_fix line
                         then FixTypeImportsPrecise.replaceImport line else line))
  /\ (r = (lines, fixCount)
      \/ r.2 = fixCount + 1
         /\ exists target, 1 <= lineNum /\ lines !! Z.to_nat (lineNum - 1) = Some target
                           /\ precise_needs_fix target = true).
Proof.
  cbv zeta. unfold FixTypeImportsPrecise.fixLineNumber.
  assert (Hsame : forall j line, lines !! j = Some line ->
            (forall l, lines !! Z.to_nat (lineNum - 1) = Some l -> 1 <= lineNum ->
                       precise_needs_fix l = false) ->
            lines !! j = Some (if bool_decide (Z.of_nat j + 1 = lineNum)
                                  && precise_needs_fix line
                               then FixTypeImportsPrecise.replaceImport line else line)).
  { intros j line Hj Hnot. rewrite Hj. f_equal.
    destruct (bool_decide (Z.of_nat j + 1 = lineNum)) eqn:Hd; [| reflexivity].
    apply bool_decide_eq_true in Hd. simpl.
    rewrite (Hnot line); [reflexivity | | lia].
    replace (Z.to_nat (lineNum - 1)) with j by lia. exact Hj. }
  destruct ((lineNum - 1 <? 0) || (Z.of_nat (length lines) <=? lineNum - 1)) eqn:Hrange.
  { split; [reflexivity |]. split; [| left; reflexivity].
    intros j line Hj. apply Hsame; [exact Hj |]. intros l Hl Hpos.
    apply lookup_lt_Some in Hl. apply orb_true_iff in Hrange as [H | H]; lia. }
  destruct (lines !! Z.to_nat (lineNum - 1)) as [target |] eqn:Htarget.
  2: { split; [reflexivity |]. split; [| left; reflexivity].
       intros j line Hj. apply Hsame; [exact Hj |]. intros l Hl. discriminate Hl. }
  apply orb_false_iff in Hrange as [Hlo Hhi].
  assert (Hfix : forall j line, lines !! j = Some line ->
            precise_needs_fix target = true ->
            <[Z.to_nat (lineNum - 1) := FixTypeImportsPrecise.replaceImport target]> lines !! j
            = Some (if bool_decide (Z.of_nat j + 1 = lineNum) && precise_needs_fix line
                    then FixTypeImportsPrecise.replaceImport line else line)).
  { intros j line Hj Hneeds.
    destruct (decide (j = Z.to_nat (lineNum - 1))) as [-> | Hne].
    - rewrite list_lookup_insert_eq by (apply lookup_lt_Some in Hj; exact Hj).
      rewrite Htarget in Hj. injection Hj as <-.
      rewrite bool_decide_eq_true_2 by lia. now rewrite Hneeds.
    - rewrite list_lookup_insert_ne by congruence.
      rewrite bool_decide_eq_false_2 by lia. exact Hj. }
  fold import_type.
  destruct (FixTypeImportsPrecise.matches FixTypeImportsPrecise.namedImport target
            && negb (Js.includes target import_type)) eqn:H1.
  { assert (Hneeds : precise_needs_fix target = true)
      by (unfold precise_needs_fix; now rewrite H1).
    split; [apply length_insert |]. split.
    - intros j line Hj. apply Hfix; [exact Hj | exact Hneeds].
    - right. split; [reflexivity |]. exists target.
      split; [lia |]. split; [reflexivity | exact Hneeds]. }
  destruct (FixTypeImportsPrecise.matches FixTypeImportsPrecise.defaultImport target
            && negb (Js.includes target import_type)
            && negb (Js.includes target (Js.lit "{"))) eqn:H2.
  { assert (Hneeds : precise_needs_fix target = true)
      by (unfold precise_needs_fix; now rewrite H1, H2).
    split; [apply length_insert |]. split.
    - intros j line Hj. apply Hfix; [exact Hj | exact Hneeds].
    - right. split; [reflexivity |]. exists target.
      split; [lia |]. split; [reflexivity | exact Hneeds]. }
  split; [reflexivity |]. split; [| left; reflexivity].
  intros j line Hj. apply Hsame; [exact Hj |]. intros l Hl _.
  injection Hl as <-. unfold precise_needs_fix. now rewrite H1, H2.
Qed.

Lemma fold_fixLineNumber (lineNumbers : list Z) :
  forall (lines : list Js.str) (fixCount : Z),
    let r := fold_left (fun acc lineNum => FixTypeImportsPrecise.fixLineNumber lineNum acc)
               lineNumbers (lines, fixCount) in
    length r.1 = length lines
    /\ (forall j line, lines !! j = Some line ->
          r.1 !! j = Some (if listed lineNumbers j && precise_needs_fix line
                           then FixTypeImportsPrecise.replaceImport line else line))
    /\ fixCount <= r.2 <= fixCount + Z.of_nat (length lineNumbers)
    /\ (r.2 = fixCount -> r.1 = lines).
Proof.
  induction lineNumbers as [| n ns IH]; intros lines fixCount; cbv zeta.
  - cbn [fold_left fst snd length]. split; [reflexivity |].
    split; [| split; [lia | reflexivity]].
    intros j line Hj. unfold listed.
    rewrite (bool_decide_eq_false_2 (Z.of_nat j + 1 ∈ [])) by apply not_elem_of_nil.
    exact Hj.
  - cbn [fold_left].
    destruct (fixLineNumber_spec n lines fixCount) as (Hlen & Hstep & Hcount).
    destruct (FixTypeImportsPrecise.fixLineNumber n (lines, fixCount)) as [lines1 c1] eqn:Hr.
    cbn [fst snd] in *.
    destruct (IH lines1 c1) as (Hlen' & Hrest & Hc & Hsame). cbv zeta in *.
    split; [congruence |]. split; [| split].
    + intros j line Hj. rewrite (Hrest j _ (Hstep j line Hj)). f_equal.
      unfold listed.
      destruct (bool_decide (Z.of_nat j + 1 = n)) eqn:Hd.
      * apply bool_decide_eq_true in Hd.
        rewrite (bool_decide_eq_true_2 (Z.of_nat j + 1 ∈ n :: ns))
          by (apply elem_of_cons; left; exact Hd).
        cbn [andb]. destruct (precise_needs_fix line) eqn:Hneeds.
        -- rewrite (includes_settled _ (replaceImport_includes _ Hneeds)).
           now rewrite andb_false_r.
        -- rewrite Hneeds. now rewrite andb_false_r.
      * apply bool_decide_eq_false in Hd. cbn [andb].
        destruct (decide (Z.of_nat j + 1 ∈ ns)) as [Hin | Hout].
        -- rewrite !bool_decide_eq_true_2; [reflexivity | | exact Hin].
           apply elem_of_cons. right. exact Hin.
        -- rewrite !bool_decide_eq_false_2; [reflexivity | | exact Hout].
           intros Hin. apply elem_of_cons in Hin as [Heq | Hin]; [congruence | contradiction].
    + cbn [length]. destruct Hcount as [[= -> ->] | [-> _]]; lia.
    + intros Hfinal. destruct Hcount as [[= -> ->] | [-> _]]; [apply Hsame, Hfinal | lia].
Qed.

Lemma fold_fixLineNumber_settled (lineNumbers : list Z) (lines : list Js.str) (fixCount : Z) :
  (forall j line, lines !! j = Some line -> listed lineNumbers j = true ->
                  precise_needs_fix line = false) ->
  fold_left (fun acc lineNum => FixTypeImportsPrecise.fixLineNumber lineNum acc)
    lineNumbers (lines, fixCount) = (lines, fixCount).
Proof.
  revert lines fixCount. induction lineNumbers as [| n ns IH]; intros lines fixCount Hset;
    [reflexivity |].
  cbn [fold_left].
  assert (Hstep : FixTypeImportsPrecise.fixLineNumber n (lines, fixCount) = (lines, fixCount)).
  { destruct (fixLineNumber_spec n lines fixCount) as (_ & _ & [H | [_ H]]); [exact H |].
    destruct H as (target & Hpos & Htarget & Hneeds).
    rewrite (Hset _ _ Htarget) in Hneeds; [discriminate Hneeds |].
    unfold listed. apply bool_decide_eq_true_2, elem_of_cons. left. lia. }
  rewrite Hstep. apply IH. intros j line Hj Hl. apply (Hset j line Hj).
  unfold listed in *. apply bool_decide_eq_true in Hl.
  apply bool_decide_eq_true_2, elem_of_cons. right. exact Hl.
Qed.

Lemma fixLineNumbers_no_newline (lineNumbers : list Z) (lines : list Js.str) :
  Forall no_newline lines -> Forall no_newline (fixLineNumbers lineNumbers lines).1.
Proof.
  intros Hall. destruct (fold_fixLineNumber lineNumbers lines 0) as (Hlen & Hlines & _).
  cbv zeta in *. fold (fixLineNumbers lineNumbers lines) in *.
  apply Forall_lookup. intros j line' Hj.
  destruct (lines !! j) as [line |] eqn:Hline.
  - rewrite (Hlines j line Hline) in Hj. injection Hj as <-.
    pose proof (proj1 (Forall_lookup _ _) Hall j line Hline) as Hno.
    destruct (listed lineNumbers j); simpl; [| exact Hno].
    destruct (precise_needs_fix line) eqn:Hneeds; [| exact Hno].
    apply replaceImport_no_newline; assumption.
  - apply lookup_ge_None in Hline. apply lookup_lt_Some in Hj. lia.
Qed.

(** What one call of the second fixer does to a file that exists. *)
Lemma precise_run (filePath : string) (lineNumbers : list Z)
    (s : FixTypeImportsPrecise.state) (content : Js.str) :
  FixTypeImportsPrecise.files s !! filePath = Some content ->
  let r := fixLineNumbers lineNumbers (Js.split Js.newline content) in
  exists s1 content1,
    FixTypeImportsPrecise.fixFileImports filePath lineNumbers s = (Done r.2, s1)
    /\ FixTypeImportsPrecise.files s1 !! filePath = Some content1
    /\ Js.split Js.newline content1 = r.1
    /\ (r.2 = 0 -> s1 = s)
    /\ (forall other, other <> filePath ->
          FixTypeImportsPrecise.files s1 !! other = FixTypeImportsPrecise.files s !! other).
Proof.
  intros Hfile r.
  destruct (fold_fixLineNumber lineNumbers (Js.split Js.newline content) 0)
    as (Hlen & _ & Hcount & Hsame).
  cbv zeta in *. fold (fixLineNumbers lineNumbers (Js.split Js.newline content)) in *.
  fold r in Hlen, Hcount, Hsame.
  unfold FixTypeImportsPrecise.fixFileImports.
  unfold mbind, mret, sh_bind, sh_ret, Sh.bind, Sh.ret, Sh.get, Sh.modify.
  rewrite Hfile. fold (fixLineNumbers lineNumbers (Js.split Js.newline content)). fold r.
  destruct r as [lines' fixCount] eqn:Hr. cbn [fst snd] in *.
  destruct (Z.ltb_spec 0 fixCount) as [Hpos | Hzero].
  - eexists _, _. split; [reflexivity |]. cbn [FixTypeImportsPrecise.files].
    split; [apply lookup_insert_eq |]. split; [| split; [lia |]].
    + apply split_join.
      * pose proof (split_nonempty Js.newline content) as Hne.
        destruct lines'; [| discriminate].
        destruct (Js.split Js.newline content); [contradiction | discriminate Hlen].
      * pose proof (fixLineNumbers_no_newline lineNumbers (Js.split Js.newline content)
                      (split_no_sep Js.newline content)) as Hno.
        fold r in Hno. rewrite Hr in Hno. exact Hno.
    + intros other Hne. apply lookup_insert_ne. congruence.
  - assert (fixCount = 0) as -> by lia.
    exists s, content. split; [reflexivity |]. split; [exact Hfile |].
    split; [symmetry; apply Hsame; reflexivity |]. split; reflexivity.
Qed.

(** X27: the second fixer changes lines of a file only at the line numbers
    it is given: the file keeps its number of lines, every line whose number
    is not listed is kept, line numbers outside the file are skipped, no
    other file is touched, the count it returns is at most the number of
    entries, and with a count of 0 nothing is written. *)
Theorem precise_only_listed_lines (filePath : string) (lineNumbers : list Z)
    (s : FixTypeImportsPrecise.state) (content : Js.str)
    (Hfile : FixTypeImportsPrecise.files s !! filePath = Some content) :
  exists fixCount s1 content1,
    FixTypeImportsPrecise.fixFileImports filePath lineNumbers s = (Done fixCount, s1)
    /\ FixTypeImportsPrecise.files s1 !! filePath = Some content1
    /\ length (Js.split Js.newline content1) = length (Js.split Js.newline content)
    /\ (forall j line,
          Js.split Js.newline content !! j = Some line ->
          Z.of_nat j + 1 ∉ lineNumbers ->
          Js.split Js.newline content1 !! j = Some line)
    /\ 0 <= fixCount <= Z.of_nat (length lineNumbers)
    /\ (fixCount = 0 -> s1 = s)
    /\ (forall other, other <> filePath ->
          FixTypeImportsPrecise.files s1 !! other = FixTypeImportsPrecise.files s !! other).
Proof.
  destruct (precise_run filePath lineNumbers s content Hfile)
    as (s1 & content1 & Hrun & Hfile1 & Hsplit & Hzero & Hother).
  destruct (fold_fixLineNumber lineNumbers (Js.split Js.newline content) 0)
    as (Hlen & Hlines & Hcount & _).
  cbv zeta in *. fold (fixLineNumbers lineNumbers (Js.split Js.newline content)) in *.
  eexists _, s1, content1. split; [exact Hrun |]. split; [exact Hfile1 |].
  rewrite Hsplit. split; [exact Hlen |]. split; [| split; [lia | split; assumption]].
  intros j line Hj Hout. rewrite (Hlines j line Hj). f_equal.
  unfold listed. now rewrite bool_decide_eq_false_2.
Qed.

Lemma precise_only_listed_lines_witness :
  exists fixCount s1 content1,
    FixTypeImportsPrecise.fixFileImports "src/agent.ts" [3; 99; 0] precise_files
    = (Done fixCount, s1)
    /\ FixTypeImportsPrecise.files s1 !! "src/agent.ts" = Some content1
    /\ Js.split Js.newline content1 !! 1%nat
       = Some (Js.lit "import { AgentConfig } from './config'; // settings").
Proof.
  destruct (precise_only_listed_lines "src/agent.ts" [3; 99; 0] precise_files sample_source)
    as (fixCount & s1 & content1 & Hrun & Hfile & _ & Hkept & _).
  - vm_compute. reflexivity.
  - exists fixCount, s1, content1. split; [exact Hrun |]. split; [exact Hfile |].
    apply Hkept; [vm_compute; reflexivity |].
    intros Hin. repeat (apply elem_of_cons in Hin as [Hin | Hin]; [discriminate Hin |]).
    now apply elem_of_nil in Hin.
Defined.

(** X28: a line that the second fixer changes keeps its indentation and
    everything after the import keyword: the keyword and the blanks after it
    become import type and one blank, and the rest of the line, with what
    follows the module specifier, is carried over. *)
Theorem precise_keeps_rest_of_line (filePath : string) (lineNumbers : list Z)
    (s : FixTypeImportsPrecise.state) (content content1 : Js.str) (j : nat)
    (line line' : Js.str)
    (Hfile : FixTypeImportsPrecise.files s !! filePath = Some content)
    (Hfile1 : FixTypeImportsPrecise.files
                (FixTypeImportsPrecise.fixFileImports filePath lineNumbers s).2 !! filePath
              = Some content1)
    (Hline : Js.split Js.newline content !! j = Some line)
    (Hline' : Js.split Js.newline content1 !! j = Some line')
    (Hchanged : line' <> line) :
  Z.of_nat j + 1 ∈ lineNumbers
  /\ Js.includes line import_type = false
  /\ exists indent ws rest,
       line = indent ++ Js.lit "import" ++ ws ++ rest
       /\ line' = indent ++ Js.lit "import type " ++ rest
       /\ forallb Js.is_space indent = true
       /\ ws <> [] /\ forallb Js.is_space ws = true.
Proof.
  destruct (precise_run filePath lineNumbers s content Hfile)
    as (s1 & content1' & Hrun & Hfile1' & Hsplit & _).
  rewrite Hrun in Hfile1. cbn [snd] in Hfile1. rewrite Hfile1' in Hfile1.
  injection Hfile1 as ->.
  destruct (fold_fixLineNumber lineNumbers (Js.split Js.newline content) 0)
    as (_ & Hlines & _).
  cbv zeta in *. fold (fixLineNumbers lineNumbers (Js.split Js.newline content)) in *.
  rewrite Hsplit, (Hlines j line Hline) in Hline'. injection Hline' as Hl.
  unfold listed in Hl.
  destruct (decide (Z.of_nat j + 1 ∈ lineNumbers)) as [Hin | Hout].
  - rewrite bool_decide_eq_true_2 in Hl by exact Hin. cbn [andb] in Hl.
    destruct (precise_needs_fix line) eqn:Hneeds; [| congruence].
    split; [exact Hin |]. split.
    + destruct (Js.includes line import_type) eqn:Hinc; [| reflexivity].
      rewrite (includes_settled _ Hinc) in Hneeds. discriminate Hneeds.
    + destruct (replaceImport_shape line Hneeds) as (indent & ws & rest & H1 & H2 & H3).
      exists indent, ws, rest. split; [exact H1 |]. split; [congruence | exact H3].
  - rewrite bool_decide_eq_false_2 in Hl by exact Hout. cbn [andb] in Hl. congruence.
Qed.

Lemma precise_keeps_rest_of_line_witness :
  exists content1 line',
    FixTypeImportsPrecise.files
      (FixTypeImportsPrecise.fixFileImports "src/agent.ts" [2] precise_files).2
      !! "src/agent.ts" = Some content1
    /\ Js.split Js.newline content1 !! 1%nat = Some line'
    /\ show line' = "import type { AgentConfig } from './config'; // settings"
    /\ exists rest, line' = Js.lit "import type " ++ rest.
Proof.
  set (content1 := Js.join Js.newline
         (fixLineNumbers [2] (Js.split Js.newline sample_source)).1).
  set (line' := Js.lit "import type { AgentConfig } from './config'; // settings").
  assert (Hfile1 : FixTypeImportsPrecise.files
            (FixTypeImportsPrecise.fixFileImports "src/agent.ts" [2] precise_files).2
            !! "src/agent.ts" = Some content1) by (vm_compute; reflexivity).
  assert (Hline' : Js.split Js.newline content1 !! 1%nat = Some line')
    by (vm_compute; reflexivity).
  exists content1, line'. split; [exact Hfile1 |]. split; [exact Hline' |].
  split; [vm_compute; reflexivity |].
  destruct (precise_keeps_rest_of_line "src/agent.ts" [2] precise_files sample_source
              content1 1 (Js.lit "import { AgentConfig } from './config'; // settings") line')
    as (_ & _ & indent & ws & rest & Hold & Hnew & Hindent & _).
  - vm_compute. reflexivity.
  - exact Hfile1.
  - vm_compute. reflexivity.
  - exact Hline'.
  - vm_compute. discriminate.
  - exists rest. rewrite Hnew.
    destruct indent as [| c indent]; [reflexivity |].
    exfalso. apply (f_equal (fun l => hd 0%N l)) in Hold. cbn [hd app] in Hold.
    cbn [forallb] in Hindent. apply andb_true_iff in Hindent as [Hc _].
    rewrite <- Hold in Hc. vm_compute in Hc. discriminate Hc.
Defined.

(** X29: the second fixer can be run again with the same line numbers:
    after a first call a second one fixes nothing, returns 0 and leaves the
    files and the counter as they are. *)
Theorem precise_idempotent (filePath : string) (lineNumbers : list Z)
    (s s1 : FixTypeImportsPrecise.state) (fixCount : Z)
    (Hrun : FixTypeImportsPrecise.fixFileImports filePath lineNumbers s = (Done fixCount, s1)) :
  FixTypeImportsPrecise.fixFileImports filePath lineNumbers s1 = (Done 0, s1).
Proof.
  destruct (FixTypeImportsPrecise.files s !! filePath) as [content |] eqn:Hfile.
  - destruct (precise_run filePath lineNumbers s content Hfile)
      as (s1' & content1 & Hrun' & Hfile1 & Hsplit & _).
    rewrite Hrun in Hrun'. injection Hrun' as _ <-.
    destruct (fold_fixLineNumber lineNumbers (Js.split Js.newline content) 0)
      as (Hlen & Hlines & _).
    cbv zeta in *. fold (fixLineNumbers lineNumbers (Js.split Js.newline content)) in *.
    unfold FixTypeImportsPrecise.fixFileImports.
    unfold mbind, mret, sh_bind, sh_ret, Sh.bind, Sh.ret, Sh.get, Sh.modify.
    rewrite Hfile1, Hsplit. rewrite fold_fixLineNumber_settled; [reflexivity |].
    intros j line' Hj Hlisted.
    destruct (Js.split Js.newline content !! j) as [line |] eqn:Hline.
    + rewrite (Hlines j line Hline) in Hj. injection Hj as <-.
      rewrite Hlisted. cbn [andb].
      destruct (precise_needs_fix line) eqn:Hneeds; [| exact Hneeds].
      apply includes_settled, replaceImport_includes, Hneeds.
    + apply lookup_ge_None in Hline. apply lookup_lt_Some in Hj. lia.
  - unfold FixTypeImportsPrecise.fixFileImports in Hrun.
    unfold mbind, sh_bind, Sh.bind, Sh.get in Hrun. rewrite Hfile in Hrun.
    discriminate Hrun.
Qed.

Lemma precise_idempotent_witness :
  FixTypeImportsPrecise.fixFileImports "src/agent.ts" [2; 3]
    (FixTypeImportsPrecise.fixFileImports "src/agent.ts" [2; 3] precise_files).2
  = (Done 0, (FixTypeImportsPrecise.fixFileImports "src/agent.ts" [2; 3] precise_files).2).
Proof.
  apply (precise_idempotent "src/agent.ts" [2; 3] precise_files _ 2).
  vm_compute. reflexivity.
Defined.

(** * The comparison script *)

Ltac compare_unfold :=
  unfold Compare.listing, Compare.key_file, Compare.summary, Compare.tool, Compare.echo,
    Compare.emit, stmt, or_true in *;
  unfold mbind, mret, sh_bind, sh_ret, Sh.bind, Sh.ret, Sh.exit, Sh.modify, Sh.get in *.

Ltac appended :=
  rewrite <- ?app_assoc; cbn [app]; eexists; reflexivity.

Lemma appends_ret : appends (mret tt).
Proof. intros s. exists []. destruct s. cbn. now rewrite app_nil_r. Qed.

Lemma appends_echo (l : Compare.printed) : appends (Compare.echo l).
Proof. intros s. compare_unfold. cbn. appended. Qed.

Lemma appends_bind (m k : sh Compare.state unit) :
  appends m -> appends k -> appends (m ;; k).
Proof.
  intros Hm Hk s. destruct (Hm s) as (t1 & H1).
  match type of H1 with _ = (_, ?w) => destruct (Hk w) as (t2 & H2) end.
  unfold mbind, sh_bind, Sh.bind. rewrite H1, H2. cbn. appended.
Qed.

Lemma ends_bind (m k : sh Compare.state unit) (l : Compare.printed) :
  appends m -> ends_with k l -> ends_with (m ;; k) l.
Proof.
  intros Hm Hk s. destruct (Hm s) as (t1 & H1).
  match type of H1 with _ = (_, ?w) => destruct (Hk w) as (t2 & H2) end.
  unfold mbind, sh_bind, Sh.bind. rewrite H1, H2. cbn.
  exists (t1 ++ t2). now rewrite <- !app_assoc.
Qed.

Lemma appends_listing argv result shown fallback :
  appends (Compare.listing argv result shown fallback).
Proof.
  intros s. compare_unfold. cbn. destruct (result.1 =? 0); cbn; appended.
Qed.

Lemma appends_key_file (o : Compare.oracle) (file : string) :
  appends (Compare.key_file o file).
Proof.
  intros s. compare_unfold. cbn.
  destruct (bool_decide (Compare.fs s !! file = Some RegularFile)); cbn;
    [destruct (Compare.diff_quiet o file =? 0); cbn |];
    try destruct (Compare.in_upstream o file =? 0); cbn; appended.
Qed.

Lemma appends_for_each {A : Type} (l : list A) (body : A -> sh Compare.state unit) :
  (forall x, appends (body x)) -> appends (for_each l body).
Proof.
  intros Hbody. induction l as [| x l IH]; [apply appends_ret |].
  cbn [for_each]. apply (appends_bind (body x) (for_each l body)); [apply Hbody | exact IH].
Qed.

Lemma ends_summary (behind : Z) : ends_with (Compare.summary behind) (verdict behind).
Proof.
  intros s. unfold verdict. compare_unfold. cbn.
  destruct (behind =? 0); [| destruct (behind <? 10)]; cbn;
    exists [Compare.Echo Compare.SummaryTitle]; now rewrite <- !app_assoc.
Qed.

(** The part of the script after the two commit lists. *)
Lemma compare_report_ends (o : Compare.oracle) (behind : Z) :
  ends_with
    (Compare.echo Compare.FileDifferences;;
     Compare.listing "git diff --name-only --diff-filter=A HEAD upstream/main | grep -v"
       (Compare.diff_added o) Compare.OnlyInOurFork Compare.NoneListed;;
     Compare.listing "git diff --name-only --diff-filter=D HEAD upstream/main | grep -v"
       (Compare.diff_deleted o) Compare.DeletedInOurFork Compare.NoneListed;;
     Compare.listing "git diff --name-only --diff-filter=M HEAD upstream/main | grep -v"
       (Compare.diff_modified o) Compare.ModifiedFiles Compare.NoneListed;;
     Compare.echo Compare.KeyFilesTitle;;
     for_each Compare.KEY_FILES (Compare.key_file o);;
     Compare.echo Compare.ComparisonOptions;;
     Compare.listing "git log upstream/main --oneline --since | head -10"
       (Compare.recent o) Compare.RecentActivity Compare.NoRecentCommits;;
     or_true (Compare.tool "comm -12" 0);;
     (if negb (String.eqb (Compare.conflict_candidates o) "")
      then Compare.echo (Compare.ConflictCandidates (Compare.conflict_candidates o))
      else Compare.echo Compare.NoConflictCandidates);;
     (if Compare.jq_on_path o
      then Compare.listing "comm -13 | head -10" (Compare.new_dependencies o)
             Compare.NewDependencies Compare.NoDependencies
      else mret tt);;
     Compare.summary behind)
    (verdict behind).
Proof.
  apply ends_bind; [apply appends_echo |].
  do 3 (apply ends_bind; [apply appends_listing |]).
  apply ends_bind; [apply appends_echo |].
  apply ends_bind; [apply appends_for_each, appends_key_file |].
  apply ends_bind; [apply appends_echo |].
  apply ends_bind; [apply appends_listing |].
  apply ends_bind; [intros s; compare_unfold; cbn; appended |].
  apply ends_bind; [destruct (negb _); apply appends_echo |].
  apply ends_bind; [destruct (Compare.jq_on_path o); [apply appends_listing | apply appends_ret] |].
  apply ends_summary.
Qed.

(** X30: the comparison script stops at the first of its plain commands
    that fails: when [git fetch upstream] fails it ends with the status of
    the fetch, having printed its first two lines and nothing else.  When
    the fetch, the two commit counts and the commit lists it shows succeed,
    it runs to the end with status 0, changes only what the fetch changed,
    and its last line is the verdict: up to date for 0 commits behind,
    slightly behind below 10, significantly behind from 10 on. *)
Theorem compare_exit_and_summary (o : Compare.oracle) (s : Compare.state) :
  (forall c, Compare.fetch_outcome o = Git.FetchFailed c -> c <> 0 ->
     Sh.run (Compare.script o) s
     = (c, {| Compare.repo := Compare.repo s; Compare.fs := Compare.fs s;
              Compare.out := Compare.out s
                             ++ [Compare.Echo Compare.Title; Compare.Echo Compare.Fetching;
                                 Compare.Ran (GitFetch "upstream")] |}))
  /\ (forall refs, Compare.fetch_outcome o = Git.Fetched refs ->
      (Compare.rev_list_ahead o).1 = 0 -> (Compare.rev_list_behind o).1 = 0 ->
      (0 < (Compare.rev_list_ahead o).2 -> (Compare.log_ours o).1 = 0) ->
      (0 < (Compare.rev_list_behind o).2 -> (Compare.log_upstream o).1 = 0) ->
      (Sh.run (Compare.script o) s).1 = 0
      /\ Compare.repo (Sh.run (Compare.script o) s).2
         = (Git.fetch (Compare.fetch_outcome o) (Compare.repo s)).2
      /\ Compare.fs (Sh.run (Compare.script o) s).2 = Compare.fs s
      /\ last (Compare.out (Sh.run (Compare.script o) s).2)
         = Some (Compare.Echo (verdict (Compare.rev_list_behind o).2))).
Proof.
  split.
  - intros c Hfetch Hc. unfold Sh.run, Compare.script. compare_unfold.
    rewrite Hfetch. cbn. destruct (Z.eqb_spec c 0); [contradiction |]. cbn.
    rewrite <- !app_assoc. reflexivity.
  - intros refs Hfetch Hahead Hbehind Hours Hupstream.
    assert (Hlog1 : appends
      (if 0 <? (Compare.rev_list_ahead o).2
       then stmt Compare.opts
              (st ← Compare.tool "git log --oneline --no-merges upstream/main..HEAD | head -20"
                      (Compare.log_ours o).1;
               Compare.echo (Compare.OurUniqueCommits (Compare.log_ours o).2);;
               mret st)
       else mret tt)).
    { destruct (Z.ltb_spec 0 (Compare.rev_list_ahead o).2); [| apply appends_ret].
      intros w. compare_unfold. rewrite (Hours ltac:(assumption)). cbn. appended. }
    assert (Hlog2 : appends
      (if 0 <? (Compare.rev_list_behind o).2
       then stmt Compare.opts
              (st ← Compare.tool "git log --oneline --no-merges HEAD..upstream/main | head -20"
                      (Compare.log_upstream o).1;
               Compare.echo (Compare.NewUpstreamCommits (Compare.log_upstream o).2);;
               mret st)
       else mret tt)).
    { destruct (Z.ltb_spec 0 (Compare.rev_list_behind o).2); [| apply appends_ret].
      intros w. compare_unfold. rewrite (Hupstream ltac:(assumption)). cbn. appended. }
    pose proof (ends_bind _ _ _ Hlog1
                  (ends_bind _ _ _ Hlog2
                     (compare_report_ends o (Compare.rev_list_behind o).2))) as Hrest.
    assert (Hscript : exists w,
      Compare.script o s = (Done tt, w)
      /\ Compare.repo w = (Git.fetch (Compare.fetch_outcome o) (Compare.repo s)).2
      /\ Compare.fs w = Compare.fs s
      /\ last (Compare.out w) = Some (Compare.Echo (verdict (Compare.rev_list_behind o).2))).
    { unfold Compare.script.
      do 2 (erewrite (sh_bind_done (Compare.echo _)) by reflexivity).
      erewrite sh_bind_done by (compare_unfold; rewrite Hfetch; reflexivity).
      erewrite (sh_bind_done (Compare.echo _)) by reflexivity.
      erewrite sh_bind_done by (compare_unfold; rewrite Hahead; reflexivity).
      erewrite sh_bind_done by (compare_unfold; rewrite Hbehind; reflexivity).
      erewrite (sh_bind_done (Compare.echo _)) by reflexivity.
      match goal with |- exists w, (_ ≫= _) ?w0 = _ /\ _ =>
        destruct (Hrest w0) as (t & Hrun) end.
      rewrite Hrun. eexists. split; [reflexivity |]. cbn.
      rewrite Hfetch. cbn. split; [reflexivity |]. split; [reflexivity |].
      rewrite !app_assoc. apply last_snoc. }
    destruct Hscript as (w & Hrun & Hrepo & Hfs & Hlast).
    unfold Sh.run. rewrite Hrun. cbn. repeat split; assumption.
Qed.

Lemma compare_exit_and_summary_witness :
  (Sh.run (Compare.script no_remote) compare_start).1 = 128
  /\ last (Compare.out (Sh.run (Compare.script ten_behind) compare_start).2)
     = Some (Compare.Echo (Compare.SignificantlyBehind 10)).
Proof.
  split.
  - destruct (compare_exit_and_summary no_remote compare_start) as [Hfail _].
    rewrite (Hfail 128 eq_refl); [reflexivity | discriminate].
  - destruct (compare_exit_and_summary ten_behind compare_start) as [_ Hok].
    destruct (Hok _ eq_refl eq_refl eq_refl) as (_ & _ & _ & Hlast).
    + intros _. reflexivity.
    + intros _. reflexivity.
    + exact Hlast.
Defined.
